(** * Usage metering of the quiz server

    A shallow embedding of the entitlement logic of the quiz server
    (checkUserUsage, decrementFreeUsage, the subscription endpoints and the
    generation-gated request handlers) together with the properties its
    specification states about it.

    Conventions of the embedding:
    - Firestore is an explicit state: the [users] collection is a finite map
      from document ids to documents, the [quizzes] and [mock_tests]
      collections are lists in insertion order, and [log] records the writes
      the store has acknowledged, in order.
    - Every Firestore call may reject.  [outages] lists, for the upcoming
      calls, whether the call rejects; once the list is used up, calls
      succeed.
    - [async] functions are computations in the monad [M] (state plus
      exceptions); [await] is bind, [try]/[catch] is [try_catch].
    - Timestamps and [Date] values are milliseconds since the epoch, in [Z].
      One request reads one clock value [now].
    - The generative model, the PDF parser, the PDF writer and the random
      identifier are inputs of a request. *)

From Stdlib Require Import ZArith Lia Ascii String.
From stdpp Require Import base decidable option list strings pretty gmap.

Local Open Scope Z_scope.

(** ** JavaScript values that come back from [JSON.parse]

    The server never computes with a parsed number: it tests its truthiness
    and turns it into text.  A number is therefore given by what these two
    operations make of it, whether it differs from zero and the text that
    [Number::toString] gives ("3", "2.5", "1e+21"). *)
Record Number : Type := mkNumber {
  num_nonzero : bool;
  num_text : string
}.

(** The number [n] for an integer below 2^53 in size, which prints in plain
    decimal. *)
Definition integer (n : Z) : Number :=
  {| num_nonzero := bool_decide (n ≠ 0); num_text := pretty n |}.

(** An object lists its properties in order. *)
#[warnings="-register-all"]
Inductive Json : Type :=
| JNull
| JBool (b : bool)
| JNum (n : Number)
| JStr (s : string)
| JArr (l : list Json)
| JObj (fields : list (string * Json)).

(** A JavaScript exception. *)
Inductive Exn : Type :=
| FirestoreError            (* a rejected Firestore call *)
| UpstreamError             (* model.generateContent rejects *)
| SyntaxError               (* JSON.parse on text that is not JSON *)
| TypeError                 (* property read on null/undefined, call of a non-function,
                               conversion of an object without a usable toString *)
| PdfError                  (* pdf-parse or the PDF writer fails *)
| Error (message : string). (* new Error(message) *)

Inductive Outcome (A : Type) : Type :=
| Return (a : A)
| Throw (e : Exn).
Arguments Return {A} a.
Arguments Throw {A} e.

(** ** Documents *)

(** A document of the [users] collection.  [user_id] is optional because the
    subscribe endpoint creates the document without it. *)
Record UserDoc : Type := mkUserDoc {
  user_id : option string;
  free_generations_remaining : Z;
  subscription_status : string;
  subscription_expiry : option Z;
  created_at : Z
}.

(** The field sets the code passes to [updateDoc]. *)
Inductive UserPatch : Type :=
| PatchSubscription (status : string) (expiry : option Z)
| PatchFree (remaining : Z).

Definition apply_patch (p : UserPatch) (d : UserDoc) : UserDoc :=
  match p with
  | PatchSubscription status expiry =>
      {| user_id := user_id d;
         free_generations_remaining := free_generations_remaining d;
         subscription_status := status;
         subscription_expiry := expiry;
         created_at := created_at d |}
  | PatchFree remaining =>
      {| user_id := user_id d;
         free_generations_remaining := remaining;
         subscription_status := subscription_status d;
         subscription_expiry := subscription_expiry d;
         created_at := created_at d |}
  end.

Record Question : Type := mkQuestion {
  q_question : string;
  q_type : string;
  q_options : list string;
  q_answer : string
}.

Record Flashcard : Type := mkFlashcard {
  f_term : string;
  f_definition : string
}.

Record PdfDetails : Type := mkPdfDetails {
  total_pages : Z;
  processed_start : Z;
  processed_end : Z;
  pd_num_questions : Z;
  pd_num_options : Z;
  pd_include_flashcards : Json
}.

(** A document of the [quizzes] collection. *)
Record QuizDoc : Type := mkQuizDoc {
  quiz_id : string;
  content_name : string;
  quiz_user_id : string;
  quiz_created_at : Z;
  source : option string;
  pdf_details : option PdfDetails;
  questions : list Question;
  flashcards : list Flashcard
}.

(** A document of the [mock_tests] collection. *)
Record MockTestDoc : Type := mkMockTestDoc {
  test_id : string;
  mt_user_id : string;
  mt_topic : string;
  mt_difficulty : string;
  mt_num_questions : Z;
  mt_created_at : Z;
  test_data : Json;
  pdf_path : string
}.

(** ** The store *)

Inductive Write : Type :=
| WSetUser (id : string) (d : UserDoc)
| WUpdateUser (id : string) (p : UserPatch)
| WAddQuiz (q : QuizDoc)
| WAddMockTest (m : MockTestDoc).

Record World : Type := mkWorld {
  users : gmap string UserDoc;
  quizzes : list QuizDoc;
  mock_tests : list MockTestDoc;
  log : list Write;
  outages : list bool
}.

Definition set_outages (o : list bool) (w : World) : World :=
  {| users := users w; quizzes := quizzes w; mock_tests := mock_tests w;
     log := log w; outages := o |}.

Definition write_user (id : string) (d : UserDoc) (ev : Write) (w : World) : World :=
  {| users := <[id := d]> (users w); quizzes := quizzes w;
     mock_tests := mock_tests w; log := log w ++ [ev]; outages := outages w |}.

Definition write_quiz (q : QuizDoc) (w : World) : World :=
  {| users := users w; quizzes := quizzes w ++ [q];
     mock_tests := mock_tests w; log := log w ++ [WAddQuiz q];
     outages := outages w |}.

Definition write_mock_test (m : MockTestDoc) (w : World) : World :=
  {| users := users w; quizzes := quizzes w;
     mock_tests := mock_tests w ++ [m]; log := log w ++ [WAddMockTest m];
     outages := outages w |}.

(** ** The monad of [async] functions *)

Definition M (A : Type) : Type := World → Outcome A * World.

#[global] Instance M_ret : MRet M := λ A a w, (Return a, w).

#[global] Instance M_bind : MBind M := λ A B f m w,
  match m w with
  | (Return a, w') => f a w'
  | (Throw e, w') => (Throw e, w')
  end.

#[global] Instance M_fmap : FMap M := λ A B f m w,
  match m w with
  | (Return a, w') => (Return (f a), w')
  | (Throw e, w') => (Throw e, w')
  end.

Definition throw {A : Type} (e : Exn) : M A := λ w, (Throw e, w).

Definition try_catch {A : Type} (body : M A) (handler : Exn → M A) : M A :=
  λ w, match body w with
       | (Return a, w') => (Return a, w')
       | (Throw e, w') => handler e w'
       end.

(** Lifting of a synchronous computation that may throw. *)
Definition lift {A : Type} (o : Outcome A) : M A := λ w, (o, w).

(** The round trip to Firestore that every call makes: it consumes the next
    entry of [outages] and rejects when that entry is [true]. *)
Definition firestore_call : M unit := λ w,
  match outages w with
  | [] => (Return (), w)
  | down :: rest =>
      (if down : bool then Throw FirestoreError else Return (), set_outages rest w)
  end.

Definition get_world : M World := λ w, (Return w, w).
Definition put_world (w' : World) : M unit := λ _, (Return (), w').

(** [getDoc(doc(db, 'users', id))]: [None] is a snapshot with
    [exists() = false], [Some d] one whose [data()] is [d]. *)
Definition getDoc (id : string) : M (option UserDoc) :=
  firestore_call;;
  w ← get_world;
  mret (users w !! id).

(** [setDoc] replaces the whole document. *)
Definition setDoc (id : string) (d : UserDoc) : M unit :=
  firestore_call;;
  w ← get_world;
  put_world (write_user id d (WSetUser id d) w).

(** [updateDoc] merges the given fields into an existing document and rejects
    when there is none. *)
Definition updateDoc (id : string) (p : UserPatch) : M unit :=
  firestore_call;;
  w ← get_world;
  match users w !! id with
  | Some d => put_world (write_user id (apply_patch p d) (WUpdateUser id p) w)
  | None => throw FirestoreError
  end.

(** [addDoc(collection(db, 'quizzes'), q)] *)
Definition addDoc_quizzes (q : QuizDoc) : M unit :=
  firestore_call;;
  w ← get_world;
  put_world (write_quiz q w).

(** [addDoc(collection(db, 'mock_tests'), m)] *)
Definition addDoc_mock_tests (m : MockTestDoc) : M unit :=
  firestore_call;;
  w ← get_world;
  put_world (write_mock_test m w).

(** ** The metering engine *)

Record UsageStatus : Type := mkUsageStatus {
  canGenerate : bool;
  remainingFree : Z;
  subscriptionStatus : string
}.

(** The profile written for a user seen for the first time. *)
Definition new_profile (userId : string) (now : Z) : UserDoc :=
  {| user_id := Some userId;
     free_generations_remaining := 10;
     subscription_status := "free";
     subscription_expiry := None;
     created_at := now |}.

(** [userData.subscription_expiry && userData.subscription_expiry.toDate() > new Date()] *)
Definition expiry_after (now : Z) (userData : UserDoc) : bool :=
  match subscription_expiry userData with
  | Some expiry => bool_decide (now < expiry)
  | None => false
  end.

(** The tail of checkUserUsage, "For free users, check remaining generations". *)
Definition free_tier (userData : UserDoc) : UsageStatus :=
  if decide (0 < free_generations_remaining userData)
  then {| canGenerate := true;
          remainingFree := free_generations_remaining userData;
          subscriptionStatus := "free" |}
  else {| canGenerate := false; remainingFree := 0; subscriptionStatus := "free" |}.

Definition checkUserUsage (now : Z) (userId : string) : M UsageStatus :=
  try_catch
    (userSnap ← getDoc userId;
     match userSnap with
     | None =>
         setDoc userId (new_profile userId now);;
         mret {| canGenerate := true; remainingFree := 10; subscriptionStatus := "free" |}
     | Some userData =>
         if decide (subscription_status userData ≠ "free") then
           if expiry_after now userData then
             mret {| canGenerate := true;
                     remainingFree := 0;
                     subscriptionStatus := subscription_status userData |}
           else
             updateDoc userId (PatchSubscription "free" None);;
             mret (free_tier userData)
         else mret (free_tier userData)
     end)
    (λ error, throw error).

Definition decrementFreeUsage (userId : string) : M Z :=
  try_catch
    (userSnap ← getDoc userId;
     match userSnap with
     | Some userData =>
         if decide (subscription_status userData = "free"
                    ∧ 0 < free_generations_remaining userData) then
           updateDoc userId (PatchFree (free_generations_remaining userData - 1));;
           mret (free_generations_remaining userData - 1)
         else mret 0
     | None => mret 0
     end)
    (λ _, mret 0).

(** ** ECMAScript time values

    The day and calendar functions of the language specification ("Time
    Values and Time Range", "Year Number", "Month Number", "Date Number",
    [MakeDay], [MakeDate]), on which [Date.prototype.getMonth], [setMonth],
    [getFullYear] and [setFullYear] are defined. *)

Definition msPerDay : Z := 86400000.

Definition Day (t : Z) : Z := t / msPerDay.

Definition TimeWithinDay (t : Z) : Z := t mod msPerDay.

Definition DaysInYear (y : Z) : Z :=
  if decide (y mod 4 ≠ 0) then 365
  else if decide (y mod 100 ≠ 0) then 366
  else if decide (y mod 400 ≠ 0) then 365
  else 366.

Definition DayFromYear (y : Z) : Z :=
  365 * (y - 1970) + (y - 1969) / 4 - (y - 1901) / 100 + (y - 1601) / 400.

(** Downward search for the largest year that starts on or before [day]. *)
Fixpoint year_search (fuel : nat) (y day : Z) : Z :=
  match fuel with
  | O => y
  | S fuel' =>
      if decide (DayFromYear y ≤ day) then y else year_search fuel' (y - 1) day
  end.

(** "the largest integer y such that TimeFromYear(y) ≤ t".  A year has 365
    or 366 days, which brackets the answer between [lo] and [hi]. *)
Definition YearFromTime (t : Z) : Z :=
  let day := Day t in
  let hi := 1970 + (if decide (0 ≤ day) then day / 365 else day / 366) in
  let lo := 1970 + (if decide (0 ≤ day) then day / 366 else day / 365) in
  year_search (Z.to_nat (hi - lo)) hi day.

Definition InLeapYear_of (y : Z) : Z :=
  if decide (DaysInYear y = 366) then 1 else 0.

Definition InLeapYear (t : Z) : Z := InLeapYear_of (YearFromTime t).

Definition DayWithinYear (t : Z) : Z := Day t - DayFromYear (YearFromTime t).

(** Day within the year on which month [m] (0 = January) starts; month 12 is
    the start of the next year. *)
Definition month_offset (leap m : Z) : Z :=
  if decide (m = 0) then 0
  else if decide (m = 1) then 31
  else if decide (m = 2) then 59 + leap
  else if decide (m = 3) then 90 + leap
  else if decide (m = 4) then 120 + leap
  else if decide (m = 5) then 151 + leap
  else if decide (m = 6) then 181 + leap
  else if decide (m = 7) then 212 + leap
  else if decide (m = 8) then 243 + leap
  else if decide (m = 9) then 273 + leap
  else if decide (m = 10) then 304 + leap
  else if decide (m = 11) then 334 + leap
  else 365 + leap.

Definition month_of_day (leap d : Z) : Z :=
  if decide (d < month_offset leap 1) then 0
  else if decide (d < month_offset leap 2) then 1
  else if decide (d < month_offset leap 3) then 2
  else if decide (d < month_offset leap 4) then 3
  else if decide (d < month_offset leap 5) then 4
  else if decide (d < month_offset leap 6) then 5
  else if decide (d < month_offset leap 7) then 6
  else if decide (d < month_offset leap 8) then 7
  else if decide (d < month_offset leap 9) then 8
  else if decide (d < month_offset leap 10) then 9
  else if decide (d < month_offset leap 11) then 10
  else 11.

Definition MonthFromTime (t : Z) : Z :=
  month_of_day (InLeapYear t) (DayWithinYear t).

Definition DateFromTime (t : Z) : Z :=
  DayWithinYear t - month_offset (InLeapYear t) (MonthFromTime t) + 1.

Definition MakeDay (year month date : Z) : Z :=
  let ym := year + month / 12 in
  let mn := month mod 12 in
  DayFromYear ym + month_offset (InLeapYear_of ym) mn + date - 1.

Definition MakeDate (day time : Z) : Z := day * msPerDay + time.

Definition DaysInMonth (y m : Z) : Z :=
  month_offset (InLeapYear_of y) (m + 1) - month_offset (InLeapYear_of y) m.

Section LocalTime.

(** [LocalTZA(t, isUTC)], the offset of the server's time zone from UTC in
    milliseconds: with [isUTC = true] the offset in force at the instant
    [t], with [isUTC = false] the offset by which the local time value [t]
    is read.  The two differ around the changes of daylight saving time. *)
Variable LocalTZA : Z → bool → Z.

Definition LocalTime (t : Z) : Z := t + LocalTZA t true.
Definition UTC (t : Z) : Z := t - LocalTZA t false.

Definition getMonth (date : Z) : Z := MonthFromTime (LocalTime date).
Definition getFullYear (date : Z) : Z := YearFromTime (LocalTime date).

Definition setMonth (date month : Z) : Z :=
  let t := LocalTime date in
  UTC (MakeDate (MakeDay (YearFromTime t) month (DateFromTime t)) (TimeWithinDay t)).

Definition setFullYear (date year : Z) : Z :=
  let t := LocalTime date in
  UTC (MakeDate (MakeDay year (MonthFromTime t) (DateFromTime t)) (TimeWithinDay t)).

End LocalTime.

(** A zone that keeps one offset all year. *)
Definition fixed_offset (tza : Z) : Z → bool → Z := λ _ _, tza.

(** ** JavaScript values *)

(** A JavaScript value read out of parsed JSON: [None] is [undefined]. *)
Abbreviation JsVal := (option Json).

#[global] Instance Outcome_ret : MRet Outcome := λ A a, Return a.

#[global] Instance Outcome_bind : MBind Outcome := λ A B f o,
  match o with
  | Return a => f a
  | Throw e => Throw e
  end.

#[global] Instance Outcome_fmap : FMap Outcome := λ A B f o,
  match o with
  | Return a => Return (f a)
  | Throw e => Throw e
  end.

(** Truthiness, as [!v], [v || d] and [v ? a : b] test it. *)
Definition truthy (v : JsVal) : bool :=
  match v with
  | None | Some JNull => false
  | Some (JBool b) => b
  | Some (JNum n) => num_nonzero n
  | Some (JStr s) => bool_decide (s ≠ "")
  | Some (JArr _) | Some (JObj _) => true
  end.

(** The own property [k] of an object literal; of a repeated key the last
    occurrence counts, as in [JSON.parse]. *)
Fixpoint get_field (k : string) (fields : list (string * Json)) : JsVal :=
  match fields with
  | [] => None
  | (k', v) :: rest =>
      match get_field k rest with
      | Some v' => Some v'
      | None => if decide (k = k') then Some v else None
      end
  end.

(** [v.k] for the property names the server reads ([questions], [question],
    [type], ...), none of which exists on the prototype of a string, number,
    boolean or array. *)
Definition get_prop (v : JsVal) (k : string) : Outcome JsVal :=
  match v with
  | None | Some JNull => Throw TypeError
  | Some (JObj fields) => Return (get_field k fields)
  | Some _ => Return None
  end.

(** [v || []] *)
Definition or_empty (v : JsVal) : Json :=
  match v with
  | Some j => if truthy v then j else JArr []
  | None => JArr []
  end.

(** [String(v)].  An array is joined, [null] elements giving the empty
    string.  An object parsed from JSON inherits [toString] from
    [Object.prototype] unless it has an own property of that name; an own
    property is never a function, [valueOf] then gives back the object, and
    the conversion throws. *)
Fixpoint js_String (v : Json) : Outcome string :=
  match v with
  | JNull => Return "null"
  | JBool b => Return (if b then "true" else "false")
  | JNum n => Return (num_text n)
  | JStr s => Return s
  | JArr l =>
      String.concat ","
        <$> (fix join (l : list Json) : Outcome (list string) :=
               match l with
               | [] => Return []
               | x :: rest =>
                   s ← match x with JNull => Return "" | _ => js_String x end;
                   ss ← join rest;
                   Return (s :: ss)
               end) l
  | JObj fields =>
      match get_field "toString" fields with
      | Some _ => Throw TypeError
      | None => Return "[object Object]"
      end
  end.

(** [`${v}`] in a template literal. *)
Definition js_template (v : JsVal) : Outcome string :=
  match v with
  | None => Return "undefined"
  | Some j => js_String j
  end.

Definition lower_ascii (c : ascii) : ascii :=
  let n := nat_of_ascii c in
  if ((65 <=? n) && (n <=? 90))%nat then ascii_of_nat (n + 32) else c.

(** [s.toLowerCase()] on the ASCII letters, which is all that a comparison
    with ['multiple_choice'] can see. *)
Fixpoint toLowerCase (s : string) : string :=
  match s with
  | EmptyString => EmptyString
  | String c rest => String (lower_ascii c) (toLowerCase rest)
  end.

(** [v.map(f)] and [v.forEach(f)]: only an array has the method. *)
Definition array_map {A : Type} (f : Json → Outcome A) (v : JsVal) : Outcome (list A) :=
  match v with
  | Some (JArr l) => mapM f l
  | _ => Throw TypeError
  end.

(** ** The content generator *)

(** What one call of the generative model leads to: the call rejects, or it
    returns text on which [JSON.parse] throws ([ModelText None]) or which
    parses to a value. *)
Inductive ModelReply : Type :=
| ModelRejects
| ModelText (parsed : option Json).

(** [await model.generateContent(prompt)] followed by [JSON.parse] of the
    cleaned response text. *)
Definition model_reply_json (reply : ModelReply) : Outcome Json :=
  match reply with
  | ModelRejects => Throw UpstreamError
  | ModelText None => Throw SyntaxError
  | ModelText (Some content) => Return content
  end.

Record Content : Type := mkContent {
  c_questions : Json;
  c_flashcards : Json
}.

Definition fallback_question : Json :=
  JObj [("question", JStr "Error occurred. Is this a test?");
        ("type", JStr "true_false");
        ("answer", JStr "True")].

Definition fallback_flashcard : Json :=
  JObj [("term", JStr "Error"); ("definition", JStr "Try again later")].

Definition fallback_content (includeFlashcards : bool) : Content :=
  {| c_questions := JArr [fallback_question];
     c_flashcards := if includeFlashcards then JArr [fallback_flashcard] else JArr [] |}.

(** The arguments [text], [qType], [numOptions] and [numQuestions] only
    shape the prompt; the model's reply is an input. *)
Definition generateContent (reply : ModelReply) (includeFlashcards : bool) : M Content :=
  try_catch
    (content ← lift (model_reply_json reply);
     questions ← lift (get_prop (Some content) "questions");
     flashcards ← (if includeFlashcards
                   then or_empty <$> lift (get_prop (Some content) "flashcards")
                   else mret (JArr []));
     mret {| c_questions := or_empty questions; c_flashcards := flashcards |})
    (λ _, mret (fallback_content includeFlashcards)).

Definition generateMockTest (reply : ModelReply) : M Json :=
  try_catch
    (lift (model_reply_json reply))
    (λ error, throw error).

(** The reads [createMockTestPDF] makes of the mock test before and while it
    writes the file, each put into a template literal: a read throws on a
    value without the property or method, the literal on a value that
    [String] cannot convert. *)
Definition template_read (v : JsVal) (k : string) : Outcome unit :=
  x ← get_prop v k;
  _ ← js_template x;
  Return ().

Definition mock_test_question_reads (q : Json) : Outcome unit :=
  template_read (Some q) "question";;
  options ← get_prop (Some q) "options";
  _ ← array_map (λ _, Return ()) options;
  Return ().

Definition mock_test_answer_reads (q : Json) : Outcome unit :=
  template_read (Some q) "correct_answer";;
  template_read (Some q) "explanation";;
  Return ().

(** [pdf_written] tells whether pdfkit and the file stream finish without an
    error. *)
Definition createMockTestPDF (mockTestData : Json) (pdf_written : bool) : M unit :=
  try_catch
    (mock_test ← lift (get_prop (Some mockTestData) "mock_test");
     lift (template_read mock_test "topic");;
     lift (template_read mock_test "difficulty");;
     lift (template_read mock_test "total_questions");;
     lift (template_read mock_test "time_allowed");;
     lift (template_read mock_test "time_allowed");;
     questions ← lift (get_prop mock_test "questions");
     _ ← lift (array_map mock_test_question_reads questions);
     _ ← lift (array_map mock_test_answer_reads questions);
     if pdf_written then mret () else throw PdfError)
    (λ error, throw error).

(** ** HTTP responses *)

Inductive Body : Type :=
| ErrorBody (error : string)
| ErrorDetails (error : string) (details : Exn)
| LimitReached (subscription_status : string) (remaining_free : Z)
| InvalidPageRange (totalPages range_start range_end : Z)
| SubscriptionInfo (user_id : string) (free_generations_remaining : Z)
    (subscription_status : string) (subscription_expiry : option Z)
| SubscriptionSuccessful (user_id plan : string) (subscription_expiry : Z)
| ContentCreated (quiz_id : string) (subscription_status : string)
    (remaining_free : Z) (questions : list Question) (flashcards : list Flashcard)
| MockTestCreated (test_id : string) (subscription_status : string)
    (remaining_free : Z).

Record Response : Type := mkResponse {
  res_status : Z;
  res_json : Body
}.

(** ** Subscription endpoints *)

(** [userData.subscription_expiry && userData.subscription_expiry.toDate() < new Date()] *)
Definition expiry_before (now : Z) (userData : UserDoc) : bool :=
  match subscription_expiry userData with
  | Some expiry => bool_decide (expiry < now)
  | None => false
  end.

(** [n || 0] on a number and [s || 'free'] on a string. *)
Definition or_zero (n : Z) : Z := if decide (n = 0) then 0 else n.
Definition or_free (s : string) : string := if decide (s = "") then "free" else s.

(** GET /api/user/subscription/:userId *)
Definition get_api_user_subscription (now : Z) (userId : string) : M Response :=
  try_catch
    (userSnap ← getDoc userId;
     match userSnap with
     | None =>
         setDoc userId (new_profile userId now);;
         mret {| res_status := 200;
                 res_json := SubscriptionInfo userId 10 "free" None |}
     | Some userData =>
         userData ←
           (if bool_decide (subscription_status userData ≠ "free")
               && expiry_before now userData then
              updateDoc userId (PatchSubscription "free" None);;
              mret (apply_patch (PatchSubscription "free" None) userData)
            else mret userData);
         mret {| res_status := 200;
                 res_json :=
                   SubscriptionInfo userId
                     (or_zero (free_generations_remaining userData))
                     (or_free (subscription_status userData))
                     (subscription_expiry userData) |}
     end)
    (λ _, mret {| res_status := 500; res_json := ErrorBody "Server error" |}).

Section Subscribe.

Variable LocalTZA : Z → bool → Z.

(** The [switch (plan)] of the subscribe endpoint: the expiry date for a known
    plan, [None] for the [default] case. *)
Definition plan_expiry (expiryDate : Z) (plan : string) : option Z :=
  if decide (plan = "monthly") then
    Some (setMonth LocalTZA expiryDate (getMonth LocalTZA expiryDate + 1))
  else if decide (plan = "quarterly") then
    Some (setMonth LocalTZA expiryDate (getMonth LocalTZA expiryDate + 3))
  else if decide (plan = "yearly") then
    Some (setFullYear LocalTZA expiryDate (getFullYear LocalTZA expiryDate + 1))
  else None.

(** POST /api/user/subscribe; a missing body field is the empty string. *)
Definition post_api_user_subscribe (now : Z) (userId plan : string) : M Response :=
  if decide (userId = "" ∨ plan = "") then
    mret {| res_status := 400; res_json := ErrorBody "User ID and plan are required" |}
  else
    try_catch
      (userSnap ← getDoc userId;
       match plan_expiry now plan with
       | None =>
           mret {| res_status := 400;
                   res_json := ErrorBody "Invalid plan. Choose monthly, quarterly, or yearly." |}
       | Some expiryDate =>
           match userSnap with
           | None =>
               setDoc userId
                 {| user_id := None;
                    free_generations_remaining := 0;
                    subscription_status := plan;
                    subscription_expiry := Some expiryDate;
                    created_at := now |}
           | Some _ =>
               updateDoc userId (PatchSubscription plan (Some expiryDate))
           end;;
           mret {| res_status := 200;
                   res_json := SubscriptionSuccessful userId plan expiryDate |}
       end)
      (λ _, mret {| res_status := 500; res_json := ErrorBody "Server error" |}).

End Subscribe.

(** ** Generation-gated endpoints *)

Definition invalid_question : Exn := Error "Invalid question structure".
Definition invalid_flashcard : Exn := Error "Invalid flashcard structure".

(** The callback of [content.questions.map] in both quiz endpoints. *)
Definition sanitize_question (q : Json) : Outcome Question :=
  question ← get_prop (Some q) "question";
  type_ ← get_prop (Some q) "type";
  answer ← get_prop (Some q) "answer";
  if negb (truthy question) || negb (truthy type_) || negb (truthy answer) then
    Throw invalid_question
  else
    match question, type_, answer with
    | Some question, Some type_, Some answer =>
        question' ← js_String question;
        type' ← js_String type_;
        options ←
          match type_ with
          | JStr s =>
              if decide (toLowerCase s = "multiple_choice") then
                q_options ← get_prop (Some q) "options";
                match q_options with
                | Some (JArr l) => mapM js_String l
                | _ => Return []
                end
              else Return ["True"; "False"]
          | _ => Throw TypeError
          end;
        answer' ← js_String answer;
        Return {| q_question := question';
                  q_type := type';
                  q_options := options;
                  q_answer := answer' |}
    | _, _, _ => Throw invalid_question
    end.

(** The callback of [(content.flashcards || []).map]. *)
Definition sanitize_flashcard (f : Json) : Outcome Flashcard :=
  term ← get_prop (Some f) "term";
  definition ← get_prop (Some f) "definition";
  if negb (truthy term) || negb (truthy definition) then Throw invalid_flashcard
  else
    match term, definition with
    | Some term, Some definition =>
        term' ← js_String term;
        definition' ← js_String definition;
        Return {| f_term := term'; f_definition := definition' |}
    | _, _ => Throw invalid_flashcard
    end.

Definition limit_reached (usageStatus : UsageStatus) : Response :=
  {| res_status := 403;
     res_json := LimitReached (subscriptionStatus usageStatus) (remainingFree usageStatus) |}.

(** "Now decrement the free usage count if user is on free plan" *)
Definition charge (usageStatus : UsageStatus) (user_id : string) : M Z :=
  if decide (subscriptionStatus usageStatus = "free")
  then decrementFreeUsage user_id
  else mret (remainingFree usageStatus).

(** [v === true] *)
Definition is_true (v : JsVal) : bool :=
  match v with
  | Some (JBool true) => true
  | _ => false
  end.

(** Body of POST /api/create_content; a missing string field is the empty
    string.  [num_options] and [num_questions] only reach the prompt. *)
Record CreateContentBody : Type := mkCreateContentBody {
  cc_text : string;
  cc_question_type : string;
  cc_include_flashcards : JsVal;
  cc_content_name : string;
  cc_user_id : string
}.

(** POST /api/create_content.  [quizId] is the value of [generateQuizId()],
    [reply] what the generative model answers. *)
Definition post_api_create_content
    (now : Z) (quizId : string) (reply : ModelReply) (body : CreateContentBody)
    : M Response :=
  if decide (cc_text body = "" ∨ cc_question_type body = ""
             ∨ cc_content_name body = "" ∨ cc_user_id body = "") then
    mret {| res_status := 400;
            res_json := ErrorBody "Text, question_type, content_name, and user_id are required" |}
  else
    try_catch
      (usageStatus ← checkUserUsage now (cc_user_id body);
       if negb (canGenerate usageStatus) then mret (limit_reached usageStatus)
       else
         content ← generateContent reply (is_true (cc_include_flashcards body));
         questions ← lift (array_map sanitize_question (Some (c_questions content)));
         flashcards ← lift (array_map sanitize_flashcard
                              (Some (or_empty (Some (c_flashcards content)))));
         let quizData :=
           {| quiz_id := quizId;
              content_name := cc_content_name body;
              quiz_user_id := cc_user_id body;
              quiz_created_at := now;
              source := None;
              pdf_details := None;
              questions := questions;
              flashcards := flashcards |} in
         addDoc_quizzes quizData;;
         remainingFree ← charge usageStatus (cc_user_id body);
         mret {| res_status := 201;
                 res_json := ContentCreated quizId (subscriptionStatus usageStatus)
                               remainingFree questions flashcards |})
      (λ err, mret {| res_status := 500;
                      res_json := ErrorDetails "Error saving content" err |}).

(** [parseInt(x) || d]: [None] is [NaN]. *)
Definition int_or (x : option Z) (d : Z) : Z :=
  match x with
  | Some n => if decide (n = 0) then d else n
  | None => d
  end.

(** Request of POST /api/upload_pdf.  [up_file] tells whether a file was
    uploaded; the numeric fields hold what [parseInt] makes of them;
    [up_include_flashcards] is [None] when the field is missing. *)
Record UploadPdfRequest : Type := mkUploadPdfRequest {
  up_file : bool;
  up_user_id : string;
  up_content_name : string;
  up_num_questions : option Z;
  up_num_options : option Z;
  up_include_flashcards : JsVal;
  up_startPage : option Z;
  up_endPage : option Z
}.

(** POST /api/upload_pdf.  [numpages] is what [pdfParse] reports, [None]
    when it throws. *)
Definition post_api_upload_pdf
    (now : Z) (quizId : string) (numpages : option Z) (reply : ModelReply)
    (req : UploadPdfRequest) : M Response :=
  if negb (up_file req) then
    mret {| res_status := 400; res_json := ErrorBody "No PDF file uploaded" |}
  else if decide (up_user_id req = "" ∨ up_content_name req = "") then
    mret {| res_status := 400;
            res_json := ErrorBody "user_id and content_name are required" |}
  else
    let include_flashcards := default (JBool true) (up_include_flashcards req) in
    try_catch
      (usageStatus ← checkUserUsage now (up_user_id req);
       if negb (canGenerate usageStatus) then mret (limit_reached usageStatus)
       else
         let numQuestions := Z.min (Z.max (int_or (up_num_questions req) 10) 1) 50 in
         let numOptions := Z.min (Z.max (int_or (up_num_options req) 4) 2) 6 in
         totalPages ← lift (from_option Return (Throw PdfError) numpages);
         let startPage := int_or (up_startPage req) 1 in
         let endPage := int_or (up_endPage req) totalPages in
         let start := Z.max 1 startPage in
         let end_ := Z.min totalPages endPage in
         if decide (end_ < start ∨ start < 1 ∨ totalPages < end_) then
           mret {| res_status := 400;
                   res_json := InvalidPageRange totalPages start end_ |}
         else
           content ← generateContent reply (is_true (Some include_flashcards));
           questions ← lift (array_map sanitize_question (Some (c_questions content)));
           flashcards ← lift (array_map sanitize_flashcard
                                (Some (or_empty (Some (c_flashcards content)))));
           let quizData :=
             {| quiz_id := quizId;
                content_name := up_content_name req;
                quiz_user_id := up_user_id req;
                quiz_created_at := now;
                source := Some "pdf";
                pdf_details :=
                  Some {| total_pages := totalPages;
                          processed_start := start;
                          processed_end := end_;
                          pd_num_questions := numQuestions;
                          pd_num_options := numOptions;
                          pd_include_flashcards := include_flashcards |};
                questions := questions;
                flashcards := flashcards |} in
           addDoc_quizzes quizData;;
           remainingFree ← charge usageStatus (up_user_id req);
           mret {| res_status := 201;
                   res_json := ContentCreated quizId (subscriptionStatus usageStatus)
                                 remainingFree questions flashcards |})
      (λ error, mret {| res_status := 500;
                        res_json := ErrorDetails "Error processing PDF" error |}).

(** Body of POST /api/mock-test/generate; [mg_num_questions] is a JSON
    number, 0 also standing for a missing field. *)
Record MockTestBody : Type := mkMockTestBody {
  mg_topic : string;
  mg_description : string;
  mg_difficulty : string;
  mg_num_questions : Z;
  mg_user_id : string
}.

(** POST /api/mock-test/generate. *)
Definition post_api_mock_test_generate
    (now : Z) (testId : string) (reply : ModelReply) (pdf_written : bool)
    (body : MockTestBody) : M Response :=
  if decide (mg_topic body = "" ∨ mg_description body = "" ∨ mg_difficulty body = ""
             ∨ mg_num_questions body = 0 ∨ mg_user_id body = "") then
    mret {| res_status := 400; res_json := ErrorBody "Missing required fields" |}
  else
    try_catch
      (usageStatus ← checkUserUsage now (mg_user_id body);
       if negb (canGenerate usageStatus) then mret (limit_reached usageStatus)
       else
         mockTestData ← generateMockTest reply;
         let pdfFileName := ("mock_test_" +:+ testId +:+ ".pdf")%string in
         createMockTestPDF mockTestData pdf_written;;
         mock_test ← lift (get_prop (Some mockTestData) "mock_test");
         addDoc_mock_tests
           {| test_id := testId;
              mt_user_id := mg_user_id body;
              mt_topic := mg_topic body;
              mt_difficulty := mg_difficulty body;
              mt_num_questions := mg_num_questions body;
              mt_created_at := now;
              test_data := default JNull mock_test;
              pdf_path := pdfFileName |};;
         remainingFree ← charge usageStatus (mg_user_id body);
         mret {| res_status := 201;
                 res_json := MockTestCreated testId (subscriptionStatus usageStatus)
                               remainingFree |})
      (λ error, mret {| res_status := 500;
                        res_json := ErrorDetails "Error generating mock test" error |}).

(** ** Streams of generation requests *)

(** One generation-gated request with everything that reaches its handler
    from outside: the clock, the random identifier, the replies of the
    external services and the Firestore outages while it is served. *)
Inductive GenerationRequest : Type :=
| CreateContent (now : Z) (quizId : string) (reply : ModelReply)
    (body : CreateContentBody) (down : list bool)
| UploadPdf (now : Z) (quizId : string) (numpages : option Z) (reply : ModelReply)
    (req : UploadPdfRequest) (down : list bool)
| MockTestGenerate (now : Z) (testId : string) (reply : ModelReply)
    (pdf_written : bool) (body : MockTestBody) (down : list bool).

Definition request_time (r : GenerationRequest) : Z :=
  match r with
  | CreateContent now _ _ _ _ => now
  | UploadPdf now _ _ _ _ _ => now
  | MockTestGenerate now _ _ _ _ _ => now
  end.

Definition request_user (r : GenerationRequest) : string :=
  match r with
  | CreateContent _ _ _ body _ => cc_user_id body
  | UploadPdf _ _ _ _ req _ => up_user_id req
  | MockTestGenerate _ _ _ _ body _ => mg_user_id body
  end.

Definition serve (r : GenerationRequest) (w : World) : Outcome Response * World :=
  match r with
  | CreateContent now quizId reply body down =>
      post_api_create_content now quizId reply body (set_outages down w)
  | UploadPdf now quizId numpages reply req down =>
      post_api_upload_pdf now quizId numpages reply req (set_outages down w)
  | MockTestGenerate now testId reply pdf_written body down =>
      post_api_mock_test_generate now testId reply pdf_written body (set_outages down w)
  end.

Fixpoint serve_all (rs : list GenerationRequest) (w : World) : World :=
  match rs with
  | [] => w
  | r :: rs' => serve_all rs' (serve r w).2
  end.

(** ** First contact *)

(** The three operations that create the record of a user the store has not
    seen before. *)
Inductive FirstContact : Type :=
| ByEvaluate
| BySubscriptionInfo
| BySubscribe (plan : string).

Definition first_contact (LocalTZA : Z → bool → Z) (now : Z) (op : FirstContact)
    (userId : string) (w : World) : World :=
  match op with
  | ByEvaluate => (checkUserUsage now userId w).2
  | BySubscriptionInfo => (get_api_user_subscription now userId w).2
  | BySubscribe plan => (post_api_user_subscribe LocalTZA now userId plan w).2
  end.

(** The free quota each of them writes into the new record. *)
Definition initial_free_generations (op : FirstContact) : Z :=
  match op with
  | ByEvaluate | BySubscriptionInfo => 10
  | BySubscribe _ => 0
  end.

(** ** The generator in requests *)

Definition request_reply (r : GenerationRequest) : ModelReply :=
  match r with
  | CreateContent _ _ reply _ _ => reply
  | UploadPdf _ _ _ reply _ _ => reply
  | MockTestGenerate _ _ reply _ _ _ => reply
  end.

(** The generator fails: the model rejects the call, or it returns text that
    is not JSON. *)
Definition generator_failure (reply : ModelReply) : Prop :=
  reply = ModelRejects ∨ reply = ModelText None.

(** The question and the flashcard that the quiz endpoints store when the
    generator has failed. *)
Definition placeholder_question : Question :=
  {| q_question := "Error occurred. Is this a test?";
     q_type := "true_false";
     q_options := ["True"; "False"];
     q_answer := "True" |}.

Definition placeholder_flashcard : Flashcard :=
  {| f_term := "Error"; f_definition := "Try again later" |}.

(** ** Calendar terms, in the words of the specification *)

(** [e] is [t] advanced by [k] calendar months, both read as local time:
    [e] falls in the month that comes [k] months after the month of [t], at
    the time of day of [t], on the day of the month of [t] or, in a month
    that has no such day, on its last day. *)
Definition advanced_by_calendar_months (k t e : Z) : Prop :=
  let y' := YearFromTime t + (MonthFromTime t + k) / 12 in
  let m' := (MonthFromTime t + k) mod 12 in
  YearFromTime e = y' ∧ MonthFromTime e = m'
  ∧ DateFromTime e = Z.min (DateFromTime t) (DaysInMonth y' m')
  ∧ TimeWithinDay e = TimeWithinDay t.

(** Local clocks show the local time value [t]: read as an instant and
    shown again, it comes back.  A time of day that the change to daylight
    saving time skips is never shown. *)
Definition shown_on_local_clocks (LocalTZA : Z → bool → Z) (t : Z) : Prop :=
  LocalTime LocalTZA (UTC LocalTZA t) = t.

(** The term of a plan in calendar months; a year is twelve of them. *)
Definition plan_months (plan : string) : option Z :=
  if decide (plan = "monthly") then Some 1
  else if decide (plan = "quarterly") then Some 3
  else if decide (plan = "yearly") then Some 12
  else None.

(** A day belongs to year [y]. *)
Definition day_in_year (y day : Z) : Prop :=
  DayFromYear y ≤ day < DayFromYear (y + 1).

(** The record subscribe leaves for a user: a fresh one for a new user, the
    old one with plan and expiry replaced otherwise. *)
Definition subscribed_record (now : Z) (plan : string) (expiry : Z)
    (old : option UserDoc) : UserDoc :=
  match old with
  | None =>
      {| user_id := None;
         free_generations_remaining := 0;
         subscription_status := plan;
         subscription_expiry := Some expiry;
         created_at := now |}
  | Some d =>
      {| user_id := user_id d;
         free_generations_remaining := free_generations_remaining d;
         subscription_status := plan;
         subscription_expiry := Some expiry;
         created_at := created_at d |}
  end.

(** ** The effects of the metering engine, outages included

    The relations below describe every run of checkUserUsage and
    decrementFreeUsage, whatever the outages: which writes reach the store
    and what the caller gets back. *)

(** What a Firestore call does when outages are possible: the store is the
    same afterwards, only the list of outages is shorter. *)
Definition same_store (w w' : World) : Prop :=
  users w' = users w ∧ quizzes w' = quizzes w
  ∧ mock_tests w' = mock_tests w ∧ log w' = log w.

(** The store after a write to document [id] of [users]. *)
Definition user_written (id : string) (d : UserDoc) (ev : Write) (w w' : World) : Prop :=
  users w' = <[id := d]> (users w) ∧ quizzes w' = quizzes w
  ∧ mock_tests w' = mock_tests w ∧ log w' = log w ++ [ev].

(** The record of a lapsed subscriber after normalisation. *)
Definition normalized (d : UserDoc) : UserDoc :=
  apply_patch (PatchSubscription "free" None) d.

(** One run of checkUserUsage from store [w] to store [w']. *)
Inductive evaluate_step (now : Z) (userId : string) (w w' : World)
  : Outcome UsageStatus → Prop :=
| evaluate_rejected :
    same_store w w' →
    evaluate_step now userId w w' (Throw FirestoreError)
| evaluate_created :
    users w !! userId = None →
    user_written userId (new_profile userId now)
      (WSetUser userId (new_profile userId now)) w w' →
    evaluate_step now userId w w'
      (Return {| canGenerate := true; remainingFree := 10; subscriptionStatus := "free" |})
| evaluate_subscribed d :
    users w !! userId = Some d →
    subscription_status d ≠ "free" →
    expiry_after now d = true →
    same_store w w' →
    evaluate_step now userId w w'
      (Return {| canGenerate := true; remainingFree := 0;
                 subscriptionStatus := subscription_status d |})
| evaluate_normalized d :
    users w !! userId = Some d →
    subscription_status d ≠ "free" →
    expiry_after now d = false →
    user_written userId (normalized d)
      (WUpdateUser userId (PatchSubscription "free" None)) w w' →
    evaluate_step now userId w w' (Return (free_tier d))
| evaluate_free d :
    users w !! userId = Some d →
    subscription_status d = "free" →
    same_store w w' →
    evaluate_step now userId w w' (Return (free_tier d)).

(** A record is chargeable when consume would take a unit from it. *)
Definition chargeable (d : UserDoc) : Prop :=
  subscription_status d = "free" ∧ 0 < free_generations_remaining d.

(** One run of decrementFreeUsage from store [w] to store [w']. *)
Inductive consume_step (userId : string) (w w' : World) : Outcome Z → Prop :=
| consume_nothing :
    same_store w w' →
    consume_step userId w w' (Return 0)
| consume_one d :
    users w !! userId = Some d →
    chargeable d →
    user_written userId
      (apply_patch (PatchFree (free_generations_remaining d - 1)) d)
      (WUpdateUser userId (PatchFree (free_generations_remaining d - 1))) w w' →
    consume_step userId w w' (Return (free_generations_remaining d - 1)).

(** ** One generation-gated request, step by step *)

(** What a generation-gated request stores on success. *)
Inductive Artifact : Type :=
| QuizArtifact (q : QuizDoc)
| MockTestArtifact (m : MockTestDoc).

Definition artifact_event (a : Artifact) : Write :=
  match a with
  | QuizArtifact q => WAddQuiz q
  | MockTestArtifact m => WAddMockTest m
  end.

Definition artifact_user (a : Artifact) : string :=
  match a with
  | QuizArtifact q => quiz_user_id q
  | MockTestArtifact m => mt_user_id m
  end.

(** The store after [addDoc] of an artifact. *)
Definition artifact_written (a : Artifact) (w w' : World) : Prop :=
  users w' = users w
  ∧ quizzes w' = quizzes w ++ match a with QuizArtifact q => [q] | _ => [] end
  ∧ mock_tests w' = mock_tests w ++ match a with MockTestArtifact m => [m] | _ => [] end
  ∧ log w' = log w ++ [artifact_event a].

(** The questions and flashcards of a quiz are what the sanitising maps made
    of the generated content, neither of them having thrown. *)
Definition quiz_validated (reply : ModelReply) (includeFlashcards : bool) (q : QuizDoc) : Prop :=
  ∃ content,
    (∀ w, generateContent reply includeFlashcards w = (Return content, w))
    ∧ array_map sanitize_question (Some (c_questions content)) = Return (questions q)
    ∧ array_map sanitize_flashcard (Some (or_empty (Some (c_flashcards content))))
      = Return (flashcards q).

(** The mock test was generated and rendered to a PDF file without an
    exception. *)
Definition mock_test_validated (reply : ModelReply) (pdf_written : bool) (m : MockTestDoc) : Prop :=
  ∃ data,
    model_reply_json reply = Return data
    ∧ (∀ w, createMockTestPDF data pdf_written w = (Return (), w))
    ∧ ∃ mock_test, get_prop (Some data) "mock_test" = Return mock_test
                   ∧ test_data m = default JNull mock_test.

Definition validated (r : GenerationRequest) (a : Artifact) : Prop :=
  match r, a with
  | CreateContent _ _ reply body _, QuizArtifact q =>
      quiz_validated reply (is_true (cc_include_flashcards body)) q
  | UploadPdf _ _ _ reply req _, QuizArtifact q =>
      quiz_validated reply
        (is_true (Some (default (JBool true) (up_include_flashcards req)))) q
  | MockTestGenerate _ _ reply pdf_written _ _, MockTestArtifact m =>
      mock_test_validated reply pdf_written m
  | _, _ => False
  end.

Inductive charge_step (u : UsageStatus) (userId : string) (w w' : World) : Z → Prop :=
| charge_free n :
    subscriptionStatus u = "free" →
    consume_step userId w w' (Return n) →
    charge_step u userId w w' n
| charge_skipped :
    subscriptionStatus u ≠ "free" →
    same_store w w' →
    charge_step u userId w w' (remainingFree u).

Inductive request_step (r : GenerationRequest) (w w' : World) : Response → Prop :=
| request_rejected resp :
    res_status resp = 400 →
    same_store w w' →
    request_step r w w' resp
| request_evaluate_failed w1 e resp :
    evaluate_step (request_time r) (request_user r) w w1 (Throw e) →
    same_store w1 w' →
    res_status resp = 500 →
    request_step r w w' resp
| request_denied w1 u :
    evaluate_step (request_time r) (request_user r) w w1 (Return u) →
    canGenerate u = false →
    same_store w1 w' →
    request_step r w w' (limit_reached u)
| request_failed w1 u resp :
    evaluate_step (request_time r) (request_user r) w w1 (Return u) →
    canGenerate u = true →
    same_store w1 w' →
    res_status resp = 400 ∨ res_status resp = 500 →
    request_step r w w' resp
| request_served w1 w2 u a n resp :
    evaluate_step (request_time r) (request_user r) w w1 (Return u) →
    canGenerate u = true →
    validated r a →
    artifact_user a = request_user r →
    artifact_written a w1 w2 →
    charge_step u (request_user r) w2 w' n →
    res_status resp = 201 →
    request_step r w w' resp.

(** An [addDoc] either stores the artifact or rejects and stores nothing. *)
Definition persists (a : Artifact) (persist : M unit) : Prop :=
  ∀ w, ∃ w', (persist w = (Return (), w') ∧ artifact_written a w w')
             ∨ (persist w = (Throw FirestoreError, w') ∧ same_store w w').

(** ** Predicates on runs *)

(** Between [w] and [w'] the record of user [id] was not written and no
    write of a free counter was logged for that user. *)
Definition untouched (id : string) (w w' : World) : Prop :=
  users w' !! id = users w !! id
  ∧ ∃ l, log w' = log w ++ l ∧ ∀ n, WUpdateUser id (PatchFree n) ∉ l.

(** The record is that of a subscriber whose plan runs past [expiry]. *)
Definition subscribed_until (expiry : Z) (d : UserDoc) : Prop :=
  subscription_status d ≠ "free" ∧ subscription_expiry d = Some expiry.

(** The writes checkUserUsage can make for a user: none, the creation of the
    profile, or the normalisation of a lapsed subscription. *)
Definition evaluate_writes (userId : string) (pre : list Write) : Prop :=
  pre = []
  ∨ (∃ d, pre = [WSetUser userId d])
  ∨ pre = [WUpdateUser userId (PatchSubscription "free" None)].

(** No record that exists before and after has a different free counter. *)
Definition not_decremented (w w' : World) : Prop :=
  ∀ id d d', users w !! id = Some d → users w' !! id = Some d' →
             free_generations_remaining d' = free_generations_remaining d.

(** ** Statements of the specification that the code does not meet *)

(** Every operation of first contact starts the free counter at 10. *)
Definition every_new_record_starts_with_10 : Prop :=
  ∀ (LocalTZA : Z → bool → Z) (now : Z) (op : FirstContact) (userId : string)
    (w : World) (d : UserDoc),
    users w !! userId = None →
    users (first_contact LocalTZA now op userId w) !! userId = Some d →
    free_generations_remaining d = 10.

(** Subscribe sets the expiry to the time of the call advanced by the
    calendar months of the plan. *)
Definition subscribe_advances_by_calendar_months : Prop :=
  ∀ (LocalTZA : Z → bool → Z) (now : Z) (userId plan : string) (k : Z) (w : World),
    outages w = [] → userId ≠ "" → plan_months plan = Some k →
    ∃ expiry,
      (post_api_user_subscribe LocalTZA now userId plan w).1 =
        Return {| res_status := 200;
                  res_json := SubscriptionSuccessful userId plan expiry |}
      ∧ advanced_by_calendar_months k (LocalTime LocalTZA now)
          (LocalTime LocalTZA expiry).

(** Both generators turn a failure into a result instead of an exception. *)
Definition every_generator_recovers : Prop :=
  ∀ (reply : ModelReply) (w : World),
    generator_failure reply →
    (∀ includeFlashcards, ∃ content,
        generateContent reply includeFlashcards w = (Return content, w))
    ∧ (∃ mockTestData, generateMockTest reply w = (Return mockTestData, w)).

(** A request whose generation fails leaves the free quota of its user as it
    was. *)
Definition no_charge_when_generation_fails : Prop :=
  ∀ (r : GenerationRequest) (w : World) (d d' : UserDoc),
    generator_failure (request_reply r) →
    users w !! request_user r = Some d →
    users (serve r w).2 !! request_user r = Some d' →
    free_generations_remaining d' = free_generations_remaining d.

(** ** Sample stores and requests *)

Definition empty_store : World :=
  {| users := ∅; quizzes := []; mock_tests := []; log := []; outages := [] |}.

(** A store with one free user, ["ada"], who has all ten generations left. *)
Definition store_ada : World :=
  {| users := {[ "ada" := new_profile "ada" 1000 ]};
     quizzes := []; mock_tests := []; log := []; outages := [] |}.

Definition subscriber (plan : string) (expiry : option Z) (remaining : Z) : UserDoc :=
  {| user_id := None;
     free_generations_remaining := remaining;
     subscription_status := plan;
     subscription_expiry := expiry;
     created_at := 0 |}.

(** A store with one subscriber, ["bob"]. *)
Definition store_bob (plan : string) (expiry : option Z) (remaining : Z) : World :=
  {| users := {[ "bob" := subscriber plan expiry remaining ]};
     quizzes := []; mock_tests := []; log := []; outages := [] |}.

(** A valid body for POST /api/create_content by user ["ada"]. *)
Definition body_ada : CreateContentBody :=
  {| cc_text := "Photosynthesis turns light into sugar.";
     cc_question_type := "mix";
     cc_include_flashcards := Some (JBool true);
     cc_content_name := "Biology";
     cc_user_id := "ada" |}.

(** A valid body for POST /api/create_content by user ["bob"]. *)
Definition body_bob : CreateContentBody :=
  {| cc_text := "Photosynthesis turns light into sugar.";
     cc_question_type := "mix";
     cc_include_flashcards := None;
     cc_content_name := "Biology";
     cc_user_id := "bob" |}.

(** A valid body for POST /api/mock-test/generate by user ["ada"]. *)
Definition mock_body_ada : MockTestBody :=
  {| mg_topic := "Biology";
     mg_description := "Cells";
     mg_difficulty := "easy";
     mg_num_questions := 5;
     mg_user_id := "ada" |}.

(** Ada after her tenth generation. *)
Definition store_ada_exhausted : World :=
  {| users := {[ "ada" := apply_patch (PatchFree 0) (new_profile "ada" 1000) ]};
     quizzes := []; mock_tests := []; log := []; outages := [] |}.

(** The zone of New York in 2024: five hours behind UTC, four while
    daylight saving time is in force, from 2024-03-10T07:00Z to
    2024-11-03T06:00Z.  A local time that a change skips or repeats is read
    by the offset in force before the change. *)
Definition new_york_2024 (t : Z) (isUTC : bool) : Z :=
  if isUTC then
    if decide (1710054000000 ≤ t < 1730613600000) then -14400000 else -18000000
  else
    if decide (1710039600000 ≤ t < 1730599200000) then -14400000 else -18000000.

(** A reply of the model whose only question has no answer. *)
Definition reply_without_answer : ModelReply :=
  ModelText (Some (JObj [("questions",
    JArr [JObj [("question", JStr "Is water wet?"); ("type", JStr "true_false")]])])).

(** A reply of the model whose only question has an object with an own
    [toString] property for an answer. *)
Definition reply_unprintable_answer : ModelReply :=
  ModelText (Some (JObj [("questions",
    JArr [JObj [("question", JStr "Is water wet?");
                ("type", JStr "true_false");
                ("answer", JObj [("toString", JNum (integer 1))])]])])).

(** A reply of the model with one multiple-choice question. *)
Definition reply_one_question : ModelReply :=
  ModelText (Some (JObj [("questions",
    JArr [JObj [("question", JStr "2 + 2?");
                ("type", JStr "Multiple_Choice");
                ("options", JArr [JNum (integer 3); JNum (integer 4)]);
                ("answer", JNum (integer 4))]])])).

(** * The rest of the server

    The operations around the metering engine: every state-changing
    endpoint as one [Operation], the read endpoints over the stored quizzes
    and mock tests, the score endpoints, and the unmetered create_content of
    server.js. *)

From stdpp Require Import sorting.

Local Open Scope Z_scope.

(** ** Operations on the users collection *)

(** One request to an endpoint that can write to [users], with the outages
    of Firestore while it is served. *)
Inductive Operation : Type :=
| OpGenerate (r : GenerationRequest)
| OpSubscriptionInfo (now : Z) (userId : string) (down : list bool)
| OpSubscribe (now : Z) (userId plan : string) (down : list bool).

Definition run_operation (LocalTZA : Z → bool → Z) (op : Operation) (w : World)
    : Outcome Response * World :=
  match op with
  | OpGenerate r => serve r w
  | OpSubscriptionInfo now userId down =>
      get_api_user_subscription now userId (set_outages down w)
  | OpSubscribe now userId plan down =>
      post_api_user_subscribe LocalTZA now userId plan (set_outages down w)
  end.

Fixpoint run_operations (LocalTZA : Z → bool → Z) (ops : list Operation) (w : World) : World :=
  match ops with
  | [] => w
  | op :: ops' => run_operations LocalTZA ops' (run_operation LocalTZA op w).2
  end.

(** The free counter is within the quota. *)
Definition counter_in_range (d : UserDoc) : Prop :=
  0 ≤ free_generations_remaining d ≤ 10.

(** Status and expiry fit together: a free record has no expiry, a paid
    record carries one of the three plans and an expiry. *)
Definition status_consistent (d : UserDoc) : Prop :=
  (subscription_status d = "free" ∧ subscription_expiry d = None)
  ∨ (is_Some (plan_months (subscription_status d))
     ∧ is_Some (subscription_expiry d)).

(** Every record of the store satisfies [P]. *)
Definition all_records (P : UserDoc → Prop) (w : World) : Prop :=
  ∀ id d, users w !! id = Some d → P d.

(** The [remaining_free] and [subscription_status] fields of a 201 body. *)
Definition reported_remaining_free (resp : Response) : option Z :=
  match res_json resp with
  | ContentCreated _ _ remaining_free _ _ => Some remaining_free
  | MockTestCreated _ _ remaining_free => Some remaining_free
  | LimitReached _ remaining_free => Some remaining_free
  | _ => None
  end.

Definition reported_status (resp : Response) : option string :=
  match res_json resp with
  | ContentCreated _ subscription_status _ _ _ => Some subscription_status
  | MockTestCreated _ subscription_status _ => Some subscription_status
  | LimitReached subscription_status _ => Some subscription_status
  | _ => None
  end.

(** [P] holds of every record the endpoints write, provided it held of the
    record they started from: the new profile, the normalised record, the
    record after one charge, and the record after subscribe. *)
Definition kept_by_writes (P : UserDoc → Prop) : Prop :=
  (∀ userId now, P (new_profile userId now))
  ∧ (∀ d, P d → subscription_status d ≠ "free" → P (normalized d))
  ∧ (∀ d, P d → chargeable d →
       P (apply_patch (PatchFree (free_generations_remaining d - 1)) d))
  ∧ (∀ LocalTZA now plan expiry old,
       plan_expiry LocalTZA now plan = Some expiry →
       (∀ d, old = Some d → P d) →
       P (subscribed_record now plan expiry old)).

(** Record [d'] is record [d] after at most one charge: the counter is the
    same or one less, identity and creation time are kept. *)
Definition charged_at_most_once (d d' : UserDoc) : Prop :=
  free_generations_remaining d - 1 ≤ free_generations_remaining d'
    ≤ free_generations_remaining d
  ∧ user_id d' = user_id d
  ∧ created_at d' = created_at d.

(** Whether a quiz request asks for flashcards: [include_flashcards === true],
    the field of an upload defaulting to [true] when it is missing. *)
Definition request_include_flashcards (r : GenerationRequest) : bool :=
  match r with
  | CreateContent _ _ _ body _ => is_true (cc_include_flashcards body)
  | UploadPdf _ _ _ _ req _ =>
      is_true (Some (default (JBool true) (up_include_flashcards req)))
  | MockTestGenerate _ _ _ _ _ _ => false
  end.

(** The 201 response for a stored artifact. *)
Definition created_response (a : Artifact) (u : UsageStatus) (remainingFree : Z) : Response :=
  match a with
  | QuizArtifact q =>
      {| res_status := 201;
         res_json := ContentCreated (quiz_id q) (subscriptionStatus u) remainingFree
                       (questions q) (flashcards q) |}
  | MockTestArtifact m =>
      {| res_status := 201;
         res_json := MockTestCreated (test_id m) (subscriptionStatus u) remainingFree |}
  end.

(** The page range, question count and option count that upload_pdf computes
    from its request for a PDF of [totalPages] pages. *)
Definition upload_details (totalPages : Z) (req : UploadPdfRequest) : PdfDetails :=
  {| total_pages := totalPages;
     processed_start := Z.max 1 (int_or (up_startPage req) 1);
     processed_end := Z.min totalPages (int_or (up_endPage req) totalPages);
     pd_num_questions := Z.min (Z.max (int_or (up_num_questions req) 10) 1) 50;
     pd_num_options := Z.min (Z.max (int_or (up_num_options req) 4) 2) 6;
     pd_include_flashcards := default (JBool true) (up_include_flashcards req) |}.

(** The fields, other than the generated content, of the artifact that a
    request stores. *)
Definition stored_as (r : GenerationRequest) (a : Artifact) : Prop :=
  match r, a with
  | CreateContent now quizId _ body _, QuizArtifact q =>
      quiz_id q = quizId ∧ content_name q = cc_content_name body
      ∧ quiz_user_id q = cc_user_id body ∧ quiz_created_at q = now
      ∧ source q = None ∧ pdf_details q = None
  | UploadPdf now quizId numpages _ req _, QuizArtifact q =>
      quiz_id q = quizId ∧ content_name q = up_content_name req
      ∧ quiz_user_id q = up_user_id req ∧ quiz_created_at q = now
      ∧ source q = Some "pdf"
      ∧ ∃ totalPages, numpages = Some totalPages
                      ∧ pdf_details q = Some (upload_details totalPages req)
                      ∧ processed_start (upload_details totalPages req)
                          ≤ processed_end (upload_details totalPages req)
  | MockTestGenerate now testId _ _ body _, MockTestArtifact m =>
      test_id m = testId ∧ mt_user_id m = mg_user_id body
      ∧ mt_topic m = mg_topic body ∧ mt_difficulty m = mg_difficulty body
      ∧ mt_num_questions m = mg_num_questions body ∧ mt_created_at m = now
      ∧ pdf_path m = ("mock_test_" +:+ testId +:+ ".pdf")%string
  | _, _ => False
  end.

(** The values that [String] converts: no object with an own [toString]
    property is reached through the elements of arrays. *)
Fixpoint stringifiable (v : Json) : bool :=
  match v with
  | JArr l => forallb stringifiable l
  | JObj fields => bool_decide (get_field "toString" fields = None)
  | _ => true
  end.

(** ** Firestore queries

    [orderBy] is modelled by a stable insertion sort: [before x y] tells
    that [x] may precede [y]; documents that tie keep their order. *)

Fixpoint insert_sorted {A : Type} (before : A → A → bool) (x : A) (l : list A) : list A :=
  match l with
  | [] => [x]
  | y :: l' => if before x y then x :: y :: l' else y :: insert_sorted before x l'
  end.

Definition sort_by {A : Type} (before : A → A → bool) (l : list A) : list A :=
  foldr (insert_sorted before) [] l.

(** Responses of the read and score endpoints. *)
Record MockTestItem : Type := mkMockTestItem {
  mi_test_id : string;
  mi_topic : string;
  mi_difficulty : string;
  mi_num_questions : Z;
  mi_created_at : Z;
  mi_download_link : string
}.

Inductive ReadBody : Type :=
| QuizData (quiz_id : string) (questions : list Question) (flashcards : list Flashcard)
| FlashcardData (quiz_id : string) (flashcards : list Flashcard)
| LeaderboardData (quiz_id : string) (leaderboard : list (string * option Z))
| ContentList (items : list (string * string * Z))
| MockTestList (items : list MockTestItem)
| ScoreSaved
| ReadError (error : string) (details : option Exn).

Record ReadResponse : Type := mkReadResponse {
  rr_status : Z;
  rr_json : ReadBody
}.

(** A document of the [scores] collection.  [sc_score] is [Number(score)],
    scores being whole numbers,
    [None] being [NaN]. *)
Record ScoreDoc : Type := mkScoreDoc {
  sc_quiz_id : string;
  sc_player_name : string;
  sc_score : option Z;
  sc_created_at : Z
}.

(** Firestore's order on number values, NaN below every number, read
    downwards: [x] may precede [y] in a descending result. *)
Definition score_before (x y : ScoreDoc) : bool :=
  match sc_score x, sc_score y with
  | Some a, Some b => bool_decide (b ≤ a)
  | Some _, None => true
  | None, Some _ => false
  | None, None => true
  end.

Definition quiz_newer (x y : QuizDoc) : bool :=
  bool_decide (quiz_created_at y ≤ quiz_created_at x).

Definition mock_test_newer (x y : MockTestDoc) : bool :=
  bool_decide (mt_created_at y ≤ mt_created_at x).

Section Queries.

(** Firestore returns the documents of a query without [orderBy] in the
    order of their document ids and breaks the ties of an [orderBy] by
    document id.  The ids that [addDoc] draws are random and not part of the
    model: [by_document_id] arranges the documents of a collection by id. *)
Variable by_document_id : ∀ A : Type, list A → list A.

(** [query(coll, where(field, '==', value))] *)
Definition query_where {A : Type} (P : A → Prop) `{∀ x, Decision (P x)}
    (coll : list A) : list A :=
  filter P (by_document_id A coll).

(** [query(coll, where(...), orderBy(field, 'desc'), limit(n))]: ties come
    in descending order of document id. *)
Definition query_newest {A : Type} (P : A → Prop) `{∀ x, Decision (P x)}
    (before : A → A → bool) (n : nat) (coll : list A) : list A :=
  take n (sort_by before (reverse (query_where P coll))).

(** [getDocs(q)] on a collection of the store. *)
Definition getDocs {A : Type} (q : World → list A) : M (list A) :=
  firestore_call;;
  w ← get_world;
  mret (q w).

(** GET /api/quiz/:quizId *)
Definition get_api_quiz (quizId : string) : M ReadResponse :=
  try_catch
    (docs ← getDocs (λ w, query_where (λ q, quiz_id q = quizId) (quizzes w));
     match docs with
     | quizData :: _ =>
         mret {| rr_status := 200;
                 rr_json := QuizData quizId (questions quizData) (flashcards quizData) |}
     | [] => mret {| rr_status := 404; rr_json := ReadError "Quiz not found" None |}
     end)
    (λ _, mret {| rr_status := 500; rr_json := ReadError "Server error" None |}).

(** GET /api/flashcards/:quizId *)
Definition get_api_flashcards (quizId : string) : M ReadResponse :=
  try_catch
    (docs ← getDocs (λ w, query_where (λ q, quiz_id q = quizId) (quizzes w));
     match docs with
     | quizData :: _ =>
         mret {| rr_status := 200;
                 rr_json := FlashcardData quizId (flashcards quizData) |}
     | [] => mret {| rr_status := 404; rr_json := ReadError "Flashcards not found" None |}
     end)
    (λ _, mret {| rr_status := 500; rr_json := ReadError "Server error" None |}).

Definition content_item (q : QuizDoc) : string * string * Z :=
  (quiz_id q, content_name q, quiz_created_at q).

(** GET /api/recent *)
Definition get_api_recent : M ReadResponse :=
  try_catch
    (docs ← getDocs (λ w, query_newest (λ _, True) quiz_newer 10 (quizzes w));
     mret {| rr_status := 200; rr_json := ContentList (content_item <$> docs) |})
    (λ _, mret {| rr_status := 500;
                  rr_json := ReadError "Error fetching recent content" None |}).

(** GET /api/recent/user/:userId *)
Definition get_api_recent_user (userId : string) : M ReadResponse :=
  try_catch
    (docs ← getDocs (λ w, query_newest (λ q, quiz_user_id q = userId) quiz_newer 10
                         (quizzes w));
     mret {| rr_status := 200; rr_json := ContentList (content_item <$> docs) |})
    (λ _, mret {| rr_status := 500;
                  rr_json := ReadError "Error fetching user recent content" None |}).

Definition mock_test_item (m : MockTestDoc) : MockTestItem :=
  {| mi_test_id := test_id m;
     mi_topic := mt_topic m;
     mi_difficulty := mt_difficulty m;
     mi_num_questions := mt_num_questions m;
     mi_created_at := mt_created_at m;
     mi_download_link := ("/api/mock-test/download/" +:+ test_id m)%string |}.

(** GET /api/mock-test/user/:userId *)
Definition get_api_mock_test_user (userId : string) : M ReadResponse :=
  try_catch
    (docs ← getDocs (λ w, query_newest (λ m, mt_user_id m = userId) mock_test_newer 10
                         (mock_tests w));
     mret {| rr_status := 200; rr_json := MockTestList (mock_test_item <$> docs) |})
    (λ error, mret {| rr_status := 500;
                      rr_json := ReadError "Error fetching mock tests" (Some error) |}).

(** Body of POST /api/submit_score.  A missing string field is the empty
    string; [sb_score] is [None] when the field is undefined and otherwise
    holds [Number(score)]. *)
Record ScoreBody : Type := mkScoreBody {
  sb_quizId : string;
  sb_playerName : string;
  sb_score : option (option Z)
}.

(** POST /api/submit_score on the [scores] collection; [down] tells whether
    Firestore rejects the [addDoc]. *)
Definition post_api_submit_score (now : Z) (down : bool) (body : ScoreBody)
    (scores : list ScoreDoc) : ReadResponse * list ScoreDoc :=
  match sb_score body with
  | Some score =>
      if decide (sb_quizId body = "" ∨ sb_playerName body = "") then
        ({| rr_status := 400;
            rr_json := ReadError "Missing required fields: quizId, playerName, score" None |},
         scores)
      else
        let scoreData :=
          {| sc_quiz_id := sb_quizId body;
             sc_player_name := sb_playerName body;
             sc_score := score;
             sc_created_at := now |} in
        if down then
          ({| rr_status := 500;
              rr_json := ReadError "Error saving score" (Some FirestoreError) |}, scores)
        else
          ({| rr_status := 201; rr_json := ScoreSaved |}, scores ++ [scoreData])
  | None =>
      ({| rr_status := 400;
          rr_json := ReadError "Missing required fields: quizId, playerName, score" None |},
       scores)
  end.

(** GET /api/leaderboard/:quizId on the [scores] collection; [down] tells
    whether Firestore rejects the [getDocs]. *)
Definition get_api_leaderboard (down : bool) (quizId : string)
    (scores : list ScoreDoc) : ReadResponse :=
  if down then {| rr_status := 500; rr_json := ReadError "Server error" None |}
  else
    {| rr_status := 200;
       rr_json :=
         LeaderboardData quizId
           ((λ doc, (sc_player_name doc, sc_score doc))
              <$> query_newest (λ s, sc_quiz_id s = quizId) score_before 10 scores) |}.

End Queries.

(** Document ids that grow with insertion: the order of a collection when
    [addDoc] happens to draw increasing ids. *)
Definition insertion_order (A : Type) (l : list A) : list A := l.

(** A store with two quizzes and one mock test. *)
Definition quiz_sample (id owner : string) (created : Z) : QuizDoc :=
  {| quiz_id := id; content_name := "Biology"; quiz_user_id := owner;
     quiz_created_at := created; source := None; pdf_details := None;
     questions := [placeholder_question]; flashcards := [] |}.

Definition store_quizzes : World :=
  {| users := ∅;
     quizzes := [quiz_sample "q1aaaa" "ada" 100; quiz_sample "q2bbbb" "bob" 200];
     mock_tests := [ {| test_id := "t1cccc"; mt_user_id := "ada"; mt_topic := "Cells";
                        mt_difficulty := "easy"; mt_num_questions := 5;
                        mt_created_at := 150; test_data := JArr [];
                        pdf_path := "mock_test_t1cccc.pdf" |} ];
     log := []; outages := [] |}.

(** Three scores, two of them for quiz ["q1aaaa"]. *)
Definition scores_sample : list ScoreDoc :=
  [ {| sc_quiz_id := "q1aaaa"; sc_player_name := "ada"; sc_score := Some 3;
       sc_created_at := 10 |};
    {| sc_quiz_id := "q2bbbb"; sc_player_name := "bob"; sc_score := Some 9;
       sc_created_at := 20 |};
    {| sc_quiz_id := "q1aaaa"; sc_player_name := "eve"; sc_score := Some 7;
       sc_created_at := 30 |} ].

(** * Properties *)

(** ** The store primitives *)

Ltac munfold :=
  unfold mbind, mret, fmap, M_bind, M_ret, M_fmap, try_catch, throw, lift,
    get_world, put_world in *.

Lemma set_outages_id (w : World) : set_outages (outages w) w = w.
Proof. by destruct w. Qed.

Lemma firestore_call_up (w : World) :
  outages w = [] → firestore_call w = (Return (), w).
Proof. intros H. unfold firestore_call. by rewrite H. Qed.

Lemma getDoc_up (w : World) (id : string) :
  outages w = [] → getDoc id w = (Return (users w !! id), w).
Proof. intros H. unfold getDoc. munfold. by rewrite firestore_call_up. Qed.

Lemma setDoc_up (w : World) (id : string) (d : UserDoc) :
  outages w = [] →
  setDoc id d w = (Return (), write_user id d (WSetUser id d) w).
Proof. intros H. unfold setDoc. munfold. by rewrite firestore_call_up. Qed.

Lemma updateDoc_up (w : World) (id : string) (p : UserPatch) (d : UserDoc) :
  outages w = [] → users w !! id = Some d →
  updateDoc id p w = (Return (), write_user id (apply_patch p d) (WUpdateUser id p) w).
Proof.
  intros H Hd. unfold updateDoc. munfold. rewrite firestore_call_up by done.
  by rewrite Hd.
Qed.

Lemma same_store_refl (w : World) : same_store w w.
Proof. by repeat split. Qed.

Lemma same_store_trans (w1 w2 w3 : World) :
  same_store w1 w2 → same_store w2 w3 → same_store w1 w3.
Proof.
  intros (?&?&?&?) (?&?&?&?). repeat split; congruence.
Qed.

Lemma firestore_call_cases (w : World) :
  ∃ w1, same_store w w1
        ∧ (firestore_call w = (Return (), w1)
           ∨ firestore_call w = (Throw FirestoreError, w1)).
Proof.
  unfold firestore_call. destruct (outages w) as [|[] rest].
  - exists w. split; [apply same_store_refl | by left].
  - exists (set_outages rest w). split; [by repeat split | by right].
  - exists (set_outages rest w). split; [by repeat split | by left].
Qed.

Lemma getDoc_cases (w : World) (id : string) :
  ∃ w1, same_store w w1
        ∧ (getDoc id w = (Return (users w !! id), w1)
           ∨ getDoc id w = (Throw FirestoreError, w1)).
Proof.
  destruct (firestore_call_cases w) as (w1 & Hs & [E|E]); exists w1;
    (split; [done|]); unfold getDoc; munfold; rewrite E.
  - left. by destruct Hs as (-> & _).
  - by right.
Qed.

Lemma setDoc_cases (w : World) (id : string) (d : UserDoc) :
  ∃ w1, same_store w w1
        ∧ (setDoc id d w = (Return (), write_user id d (WSetUser id d) w1)
           ∨ setDoc id d w = (Throw FirestoreError, w1)).
Proof.
  destruct (firestore_call_cases w) as (w1 & Hs & [E|E]); exists w1;
    (split; [done|]); unfold setDoc; munfold; rewrite E; auto.
Qed.

Lemma updateDoc_cases (w : World) (id : string) (p : UserPatch) :
  ∃ w1, same_store w w1
        ∧ ((∃ d, users w !! id = Some d
                 ∧ updateDoc id p w =
                     (Return (), write_user id (apply_patch p d) (WUpdateUser id p) w1))
           ∨ updateDoc id p w = (Throw FirestoreError, w1)).
Proof.
  destruct (firestore_call_cases w) as (w1 & Hs & [E|E]); exists w1;
    (split; [done|]); unfold updateDoc; munfold; rewrite E; [|by right].
  destruct Hs as (Hu & _). rewrite Hu.
  destruct (users w !! id) as [d|]; [left; by exists d | by right].
Qed.

Lemma addDoc_quizzes_cases (w : World) (q : QuizDoc) :
  ∃ w1, same_store w w1
        ∧ (addDoc_quizzes q w = (Return (), write_quiz q w1)
           ∨ addDoc_quizzes q w = (Throw FirestoreError, w1)).
Proof.
  destruct (firestore_call_cases w) as (w1 & Hs & [E|E]); exists w1;
    (split; [done|]); unfold addDoc_quizzes; munfold; rewrite E; auto.
Qed.

Lemma addDoc_mock_tests_cases (w : World) (m : MockTestDoc) :
  ∃ w1, same_store w w1
        ∧ (addDoc_mock_tests m w = (Return (), write_mock_test m w1)
           ∨ addDoc_mock_tests m w = (Throw FirestoreError, w1)).
Proof.
  destruct (firestore_call_cases w) as (w1 & Hs & [E|E]); exists w1;
    (split; [done|]); unfold addDoc_mock_tests; munfold; rewrite E; auto.
Qed.

(** ** The effects of the metering engine, outages included *)

Lemma write_user_written id d ev w w1 :
  same_store w w1 → user_written id d ev w (write_user id d ev w1).
Proof.
  intros (Hu & Hq & Hm & Hl). unfold user_written. cbn.
  by rewrite Hu, Hq, Hm, Hl.
Qed.

Lemma checkUserUsage_step (now : Z) (userId : string) (w : World) :
  evaluate_step now userId w (checkUserUsage now userId w).2
    (checkUserUsage now userId w).1.
Proof.
  unfold checkUserUsage. munfold.
  destruct (getDoc_cases w userId) as (w1 & Hs & [E|E]); rewrite E; cbn;
    [|by constructor].
  destruct (users w !! userId) as [d|] eqn:Hd.
  - case_decide as Hst.
    + destruct (expiry_after now d) eqn:Hexp; cbn.
      * by eapply evaluate_subscribed.
      * destruct (updateDoc_cases w1 userId (PatchSubscription "free" None))
          as (w2 & Hs2 & [(d2 & Hd2 & E2)|E2]); rewrite E2; cbn.
        -- assert (d2 = d) as ->.
           { destruct Hs as (Hu & _). rewrite Hu, Hd in Hd2. congruence. }
           eapply evaluate_normalized; try done.
           apply write_user_written. by eapply same_store_trans.
        -- constructor. by eapply same_store_trans.
    + cbn. apply evaluate_free; [done| |done].
      by destruct (decide (subscription_status d = "free")).
  - destruct (setDoc_cases w1 userId (new_profile userId now))
      as (w2 & Hs2 & [E2|E2]); rewrite E2; cbn.
    + apply evaluate_created; [done|].
      apply write_user_written. by eapply same_store_trans.
    + constructor. by eapply same_store_trans.
Qed.

Lemma decrementFreeUsage_step (userId : string) (w : World) :
  consume_step userId w (decrementFreeUsage userId w).2
    (decrementFreeUsage userId w).1.
Proof.
  unfold decrementFreeUsage. munfold.
  destruct (getDoc_cases w userId) as (w1 & Hs & [E|E]); rewrite E; cbn;
    [|by constructor].
  destruct (users w !! userId) as [d|] eqn:Hd; [|by constructor].
  case_decide as Hc; [|by constructor].
  destruct (updateDoc_cases w1 userId
              (PatchFree (free_generations_remaining d - 1)))
    as (w2 & Hs2 & [(d2 & Hd2 & E2)|E2]); rewrite E2; cbn.
  - assert (d2 = d) as ->.
    { destruct Hs as (Hu & _). rewrite Hu, Hd in Hd2. congruence. }
    eapply consume_one; try done.
    apply write_user_written. by eapply same_store_trans.
  - constructor. by eapply same_store_trans.
Qed.

(** ** consume *)



(** ** evaluate *)

(** C2.  For a user without a record, checkUserUsage creates the record with
    ten free generations, status free, no expiry and the creation time, and
    answers allowed, 10 remaining, status free. *)
Theorem evaluate_creates_new_user (now : Z) (userId : string) (w : World) :
  outages w = [] →
  users w !! userId = None →
  (checkUserUsage now userId w).1 =
    Return {| canGenerate := true; remainingFree := 10; subscriptionStatus := "free" |}
  ∧ users (checkUserUsage now userId w).2 !! userId =
      Some {| user_id := Some userId;
              free_generations_remaining := 10;
              subscription_status := "free";
              subscription_expiry := None;
              created_at := now |}
  ∧ (checkUserUsage now userId w).2 =
      write_user userId (new_profile userId now)
        (WSetUser userId (new_profile userId now)) w.
Proof.
  intros Hup Hnone. unfold checkUserUsage. munfold.
  rewrite getDoc_up, Hnone by done. rewrite setDoc_up by done. cbn.
  split_and!; try done. by rewrite lookup_insert_eq.
Qed.

Lemma evaluate_creates_new_user_witness :
  outages store_ada = []
  ∧ users store_ada !! "eve" = None
  ∧ (checkUserUsage 2000 "eve" store_ada).1 =
      Return {| canGenerate := true; remainingFree := 10; subscriptionStatus := "free" |}.
Proof.
  split; [reflexivity|]. split; [reflexivity|].
  apply (evaluate_creates_new_user 2000 "eve" store_ada); reflexivity.
Defined.

Lemma checkUserUsage_existing (now : Z) (userId : string) (w : World) (d : UserDoc) :
  outages w = [] →
  users w !! userId = Some d →
  checkUserUsage now userId w =
    if decide (subscription_status d ≠ "free") then
      if expiry_after now d then
        (Return {| canGenerate := true; remainingFree := 0;
                   subscriptionStatus := subscription_status d |}, w)
      else
        (Return (free_tier d),
         write_user userId (normalized d)
           (WUpdateUser userId (PatchSubscription "free" None)) w)
    else (Return (free_tier d), w).
Proof.
  intros Hup Hd. unfold checkUserUsage. munfold.
  rewrite getDoc_up, Hd by done.
  case_decide; [|done].
  destruct (expiry_after now d); [done|].
  by rewrite (updateDoc_up _ _ _ d).
Qed.

(** C4.  For a subscriber whose expiry is missing or not in the future,
    checkUserUsage rewrites the record to status free without expiry, keeps
    the stored counter (and every other field and record), and answers with
    the free-tier decision on that counter. *)
Theorem evaluate_normalizes_lapsed (now : Z) (userId : string) (w : World) (d : UserDoc) :
  outages w = [] →
  users w !! userId = Some d →
  subscription_status d ≠ "free" →
  (subscription_expiry d = None
   ∨ ∃ expiry, subscription_expiry d = Some expiry ∧ expiry ≤ now) →
  users (checkUserUsage now userId w).2 !! userId =
    Some {| user_id := user_id d;
            free_generations_remaining := free_generations_remaining d;
            subscription_status := "free";
            subscription_expiry := None;
            created_at := created_at d |}
  ∧ (∀ id, id ≠ userId →
       users (checkUserUsage now userId w).2 !! id = users w !! id)
  ∧ (checkUserUsage now userId w).1 =
      Return {| canGenerate := bool_decide (0 < free_generations_remaining d);
                remainingFree :=
                  if decide (0 < free_generations_remaining d)
                  then free_generations_remaining d else 0;
                subscriptionStatus := "free" |}.
Proof.
  intros Hup Hd Hst Hexp.
  rewrite (checkUserUsage_existing now userId w d) by done.
  rewrite decide_True by done.
  assert (expiry_after now d = false) as ->.
  { unfold expiry_after. destruct Hexp as [-> | (e & -> & He)]; [done|].
    apply bool_decide_eq_false. lia. }
  cbn. split_and!.
  - by rewrite lookup_insert_eq.
  - intros id Hne. by rewrite lookup_insert_ne.
  - unfold free_tier. case_decide.
    + by rewrite bool_decide_eq_true_2.
    + by rewrite bool_decide_eq_false_2.
Qed.

Lemma evaluate_normalizes_lapsed_witness :
  outages (store_bob "yearly" (Some 500) 7) = []
  ∧ users (store_bob "yearly" (Some 500) 7) !! "bob" = Some (subscriber "yearly" (Some 500) 7)
  ∧ subscription_status (subscriber "yearly" (Some 500) 7) ≠ "free"
  ∧ users (checkUserUsage 86400500 "bob" (store_bob "yearly" (Some 500) 7)).2 !! "bob" =
      Some (subscriber "free" None 7).
Proof.
  split; [reflexivity|]. split; [reflexivity|]. split; [discriminate|].
  apply (evaluate_normalizes_lapsed 86400500 "bob"
           (store_bob "yearly" (Some 500) 7) (subscriber "yearly" (Some 500) 7)).
  - reflexivity.
  - reflexivity.
  - discriminate.
  - right. exists 500. split; [reflexivity | lia].
Defined.

(** C9.  On a record that exists and is already normalised (status free, or
    a paid status whose expiry lies after both calls), a second
    checkUserUsage gives the answer of the first, and neither call changes
    the store or writes to it. *)
Theorem evaluate_idempotent (now1 now2 : Z) (userId : string) (w : World) (d : UserDoc) :
  outages w = [] →
  users w !! userId = Some d →
  (subscription_status d = "free"
   ∨ (subscription_status d ≠ "free"
      ∧ ∃ expiry, subscription_expiry d = Some expiry
                  ∧ now1 < expiry ∧ now2 < expiry)) →
  ∃ answer,
    checkUserUsage now1 userId w = (Return answer, w)
    ∧ checkUserUsage now2 userId (checkUserUsage now1 userId w).2 = (Return answer, w).
Proof.
  intros Hup Hd Hnorm.
  assert (∀ now, (subscription_status d ≠ "free" →
                  ∃ expiry, subscription_expiry d = Some expiry ∧ now < expiry) →
            checkUserUsage now userId w =
              (Return (if decide (subscription_status d ≠ "free")
                       then {| canGenerate := true; remainingFree := 0;
                               subscriptionStatus := subscription_status d |}
                       else free_tier d), w)) as Hrun.
  { intros now Hact. rewrite (checkUserUsage_existing now userId w d) by done.
    case_decide as Hst; [|done].
    destruct (Hact Hst) as (e & He & Hlt). unfold expiry_after. rewrite He.
    by rewrite bool_decide_eq_true_2. }
  eexists. rewrite !Hrun; [done| |].
  - intros Hst. destruct Hnorm as [?|(_ & e & ? & ? & ?)]; [done|]. eauto.
  - intros Hst. destruct Hnorm as [?|(_ & e & ? & ? & ?)]; [done|]. eauto.
Qed.

Lemma evaluate_idempotent_witness :
  outages (store_bob "monthly" (Some 3600000) 4) = []
  ∧ users (store_bob "monthly" (Some 3600000) 4) !! "bob" =
      Some (subscriber "monthly" (Some 3600000) 4)
  ∧ ∃ answer,
      checkUserUsage 10 "bob" (store_bob "monthly" (Some 3600000) 4) =
        (Return answer, store_bob "monthly" (Some 3600000) 4)
      ∧ checkUserUsage 20 "bob"
          (checkUserUsage 10 "bob" (store_bob "monthly" (Some 3600000) 4)).2 =
          (Return answer, store_bob "monthly" (Some 3600000) 4).
Proof.
  split; [reflexivity|]. split; [reflexivity|].
  apply (evaluate_idempotent 10 20 "bob" (store_bob "monthly" (Some 3600000) 4)
           (subscriber "monthly" (Some 3600000) 4)).
  - reflexivity.
  - reflexivity.
  - right. split; [discriminate|]. exists 3600000. split; [reflexivity|]. lia.
Defined.

(** ** The subscription-info read *)

Lemma or_zero_id (n : Z) : or_zero n = n.
Proof. unfold or_zero. by case_decide. Qed.

Lemma or_free_nonempty (s : string) : s ≠ "" → or_free s = s.
Proof. intros H. unfold or_free. by rewrite decide_False. Qed.

(** C10.  A record with a paid status and no expiry is reported by the
    subscription-info endpoint with its stored status and left as it is,
    while checkUserUsage on the same store rewrites it to status free and
    answers with status free. *)
Theorem subscription_info_disagrees_with_evaluate
    (now : Z) (userId : string) (w : World) (d : UserDoc) :
  outages w = [] →
  users w !! userId = Some d →
  subscription_status d ≠ "free" →
  subscription_status d ≠ "" →
  subscription_expiry d = None →
  get_api_user_subscription now userId w =
    (Return {| res_status := 200;
               res_json := SubscriptionInfo userId (free_generations_remaining d)
                             (subscription_status d) None |}, w)
  ∧ (checkUserUsage now userId w).1 = Return (free_tier d)
  ∧ subscriptionStatus (free_tier d) = "free"
  ∧ users (checkUserUsage now userId w).2 !! userId =
      Some {| user_id := user_id d;
              free_generations_remaining := free_generations_remaining d;
              subscription_status := "free";
              subscription_expiry := None;
              created_at := created_at d |}.
Proof.
  intros Hup Hd Hst Hne Hexp. split_and!.
  - unfold get_api_user_subscription. munfold.
    rewrite getDoc_up, Hd by done.
    unfold expiry_before. rewrite Hexp, andb_false_r. cbn.
    by rewrite or_zero_id, or_free_nonempty, Hexp.
  - rewrite (checkUserUsage_existing now userId w d) by done.
    rewrite decide_True by done. unfold expiry_after. by rewrite Hexp.
  - unfold free_tier. by case_decide.
  - rewrite (checkUserUsage_existing now userId w d) by done.
    rewrite decide_True by done. unfold expiry_after. rewrite Hexp. cbn.
    by rewrite lookup_insert_eq.
Qed.

Lemma subscription_info_disagrees_with_evaluate_witness :
  outages (store_bob "monthly" None 3) = []
  ∧ users (store_bob "monthly" None 3) !! "bob" = Some (subscriber "monthly" None 3)
  ∧ get_api_user_subscription 50 "bob" (store_bob "monthly" None 3) =
      (Return {| res_status := 200;
                 res_json := SubscriptionInfo "bob" 3 "monthly" None |},
       store_bob "monthly" None 3).
Proof.
  split; [reflexivity|]. split; [reflexivity|].
  apply (subscription_info_disagrees_with_evaluate 50 "bob"
           (store_bob "monthly" None 3) (subscriber "monthly" None 3)).
  - reflexivity.
  - reflexivity.
  - discriminate.
  - discriminate.
  - reflexivity.
Defined.

(** ** First contact *)

Lemma user_written_lookup id d ev w w' :
  user_written id d ev w w' → users w' !! id = Some d.
Proof. intros (-> & _). by rewrite lookup_insert_eq. Qed.

Lemma same_store_lookup w w' id :
  same_store w w' → users w' !! id = users w !! id.
Proof. by intros (-> & _). Qed.

Lemma get_api_user_subscription_new (now : Z) (userId : string) (w : World) :
  users w !! userId = None →
  same_store w (get_api_user_subscription now userId w).2
  ∨ user_written userId (new_profile userId now)
      (WSetUser userId (new_profile userId now)) w
      (get_api_user_subscription now userId w).2.
Proof.
  intros Hnone. unfold get_api_user_subscription. munfold.
  destruct (getDoc_cases w userId) as (w1 & Hs & [E|E]); rewrite E; cbn;
    [|by left].
  rewrite Hnone.
  destruct (setDoc_cases w1 userId (new_profile userId now))
    as (w2 & Hs2 & [E2|E2]); rewrite E2; cbn.
  - right. apply write_user_written. by eapply same_store_trans.
  - left. by eapply same_store_trans.
Qed.

Lemma post_api_user_subscribe_new (tza : Z → bool → Z) (now : Z) (userId plan : string)
    (w : World) :
  users w !! userId = None →
  same_store w (post_api_user_subscribe tza now userId plan w).2
  ∨ ∃ d, free_generations_remaining d = 0
         ∧ user_written userId d (WSetUser userId d) w
             (post_api_user_subscribe tza now userId plan w).2.
Proof.
  intros Hnone. unfold post_api_user_subscribe.
  case_decide; [left; apply same_store_refl|]. munfold.
  destruct (getDoc_cases w userId) as (w1 & Hs & [E|E]); rewrite E; cbn;
    [|by left].
  destruct (plan_expiry tza now plan) as [expiryDate|]; [|by left].
  rewrite Hnone.
  match goal with
  | |- context [setDoc userId ?d w1] =>
      destruct (setDoc_cases w1 userId d) as (w2 & Hs2 & [E2|E2]); rewrite E2; cbn;
      [right; exists d; split; [done|] | left]
  end.
  - apply write_user_written. by eapply same_store_trans.
  - by eapply same_store_trans.
Qed.

(** C6, as the code has it.  A record created by checkUserUsage or by the
    subscription-info endpoint starts with ten free generations; a record
    created by the subscribe endpoint starts with none. *)
Theorem new_record_initial_free_generations
    (LocalTZA : Z → bool → Z) (now : Z) (op : FirstContact) (userId : string)
    (w : World) (d : UserDoc) :
  users w !! userId = None →
  users (first_contact LocalTZA now op userId w) !! userId = Some d →
  free_generations_remaining d = initial_free_generations op.
Proof.
  intros Hnone Hd. destruct op as [| |plan]; cbn in *.
  - pose proof (checkUserUsage_step now userId w) as Hstep.
    inversion Hstep as [Hs|_ Hw|d0 Hd0|d0 Hd0|d0 Hd0]; try congruence.
    + rewrite (same_store_lookup _ _ _ Hs) in Hd. congruence.
    + rewrite (user_written_lookup _ _ _ _ _ Hw) in Hd. by injection Hd as <-.
  - destruct (get_api_user_subscription_new now userId w Hnone) as [Hs|Hw].
    + rewrite (same_store_lookup _ _ _ Hs) in Hd. congruence.
    + rewrite (user_written_lookup _ _ _ _ _ Hw) in Hd. by injection Hd as <-.
  - destruct (post_api_user_subscribe_new LocalTZA now userId plan w Hnone)
      as [Hs|(d0 & H0 & Hw)].
    + rewrite (same_store_lookup _ _ _ Hs) in Hd. congruence.
    + rewrite (user_written_lookup _ _ _ _ _ Hw) in Hd. congruence.
Qed.

Lemma new_record_initial_free_generations_witness :
  users empty_store !! "eve" = None
  ∧ users (first_contact (fixed_offset 0) 1706702400000 (BySubscribe "monthly") "eve"
             empty_store) !! "eve"
      = Some {| user_id := None; free_generations_remaining := 0;
                subscription_status := "monthly";
                subscription_expiry := Some 1709380800000;
                created_at := 1706702400000 |}
  ∧ free_generations_remaining
      {| user_id := None; free_generations_remaining := 0;
         subscription_status := "monthly";
         subscription_expiry := Some 1709380800000;
         created_at := 1706702400000 |} = initial_free_generations (BySubscribe "monthly").
Proof.
  split; [reflexivity|]. split; [vm_compute; reflexivity|].
  apply (new_record_initial_free_generations (fixed_offset 0) 1706702400000 (BySubscribe "monthly")
           "eve" empty_store).
  - reflexivity.
  - vm_compute. reflexivity.
Defined.

(** C6, as stated, fails: the subscribe endpoint creates the record of a new
    user with no free generations. *)
Lemma subscribe_creates_record_without_free_generations :
  ¬ every_new_record_starts_with_10.
Proof.
  intros Hclaim.
  specialize (Hclaim (fixed_offset 0) 1706702400000 (BySubscribe "monthly") "eve" empty_store
                {| user_id := None; free_generations_remaining := 0;
                   subscription_status := "monthly";
                   subscription_expiry := Some 1709380800000;
                   created_at := 1706702400000 |}).
  cbn in Hclaim. discriminate Hclaim; [reflexivity | vm_compute; reflexivity].
Qed.
(** ** Calendar arithmetic *)

Lemma DayFromYear_succ (y : Z) : DayFromYear (y + 1) = DayFromYear y + DaysInYear y.
Proof.
  unfold DayFromYear, DaysInYear.
  repeat case_decide; Z.div_mod_to_equations; lia.
Qed.

Lemma DaysInYear_bounds (y : Z) : 365 ≤ DaysInYear y ≤ 366.
Proof. unfold DaysInYear. repeat case_decide; lia. Qed.

Lemma DayFromYear_mono (y1 y2 : Z) : y1 ≤ y2 → DayFromYear y1 ≤ DayFromYear y2.
Proof. unfold DayFromYear. intros H. Z.div_mod_to_equations. lia. Qed.

Lemma DayFromYear_lt (y1 y2 : Z) : y1 < y2 → DayFromYear y1 < DayFromYear y2.
Proof.
  intros H. pose proof (DayFromYear_mono (y1 + 1) y2 ltac:(lia)).
  rewrite DayFromYear_succ in H0. pose proof (DaysInYear_bounds y1). lia.
Qed.

Lemma day_in_year_unique (y1 y2 day : Z) :
  day_in_year y1 day → day_in_year y2 day → y1 = y2.
Proof.
  unfold day_in_year. intros H1 H2.
  destruct (Z.lt_trichotomy y1 y2) as [Hlt|[->|Hlt]]; [|done|].
  - pose proof (DayFromYear_mono (y1 + 1) y2 ltac:(lia)). lia.
  - pose proof (DayFromYear_mono (y2 + 1) y1 ltac:(lia)). lia.
Qed.

Lemma year_search_spec (fuel : nat) (y lo day : Z) :
  DayFromYear lo ≤ day → day < DayFromYear (y + 1) →
  y - lo = Z.of_nat fuel →
  day_in_year (year_search fuel y day) day.
Proof.
  revert y. induction fuel as [|fuel IH]; intros y Hlo Hhi Hfuel; cbn [year_search].
  - assert (y = lo) as -> by lia. by split.
  - case_decide as Hy; [by split|].
    apply IH; [done| |lia].
    replace (y - 1 + 1) with y by lia. lia.
Qed.

Lemma YearFromTime_spec (t : Z) : day_in_year (YearFromTime t) (Day t).
Proof.
  unfold YearFromTime. set (day := Day t).
  apply year_search_spec with
    (lo := 1970 + (if decide (0 ≤ day) then day / 366 else day / 365)).
  - unfold DayFromYear. case_decide; Z.div_mod_to_equations; lia.
  - unfold DayFromYear. case_decide; Z.div_mod_to_equations; lia.
  - rewrite Z2Nat.id; [lia|]. case_decide; Z.div_mod_to_equations; lia.
Qed.

Lemma YearFromTime_unique (t y : Z) : day_in_year y (Day t) → YearFromTime t = y.
Proof. intros H. eapply day_in_year_unique; [apply YearFromTime_spec | done]. Qed.

Lemma InLeapYear_of_cases (y : Z) : InLeapYear_of y = 0 ∨ InLeapYear_of y = 1.
Proof. unfold InLeapYear_of. case_decide; auto. Qed.

Lemma DaysInYear_leap (y : Z) : DaysInYear y = 365 + InLeapYear_of y.
Proof. unfold InLeapYear_of, DaysInYear. repeat case_decide; lia. Qed.

Lemma month_cases (m : Z) :
  0 ≤ m < 12 →
  m = 0 ∨ m = 1 ∨ m = 2 ∨ m = 3 ∨ m = 4 ∨ m = 5 ∨ m = 6 ∨ m = 7 ∨ m = 8
  ∨ m = 9 ∨ m = 10 ∨ m = 11.
Proof. lia. Qed.

Ltac month_split m H :=
  destruct (month_cases m H) as [->|[->|[->|[->|[->|[->|[->|[->|[->|[->|[->| ->]]]]]]]]]]].

Lemma month_of_day_range (leap d : Z) : 0 ≤ month_of_day leap d < 12.
Proof. unfold month_of_day. repeat case_decide; lia. Qed.

(** Replaces [month_offset] at a known leap flag and month by its value. *)
Ltac eval_offsets :=
  repeat match goal with
         | |- context [month_offset ?l ?m] =>
             let v := eval vm_compute in (month_offset l m) in
             change (month_offset l m) with v
         | H : context [month_offset ?l ?m] |- _ =>
             let v := eval vm_compute in (month_offset l m) in
             change (month_offset l m) with v in H
         end.

Lemma month_offset_step (leap m : Z) :
  (leap = 0 ∨ leap = 1) → 0 ≤ m < 12 →
  28 ≤ month_offset leap (m + 1) - month_offset leap m ≤ 31.
Proof.
  intros Hl Hm. destruct Hl as [-> | ->]; month_split m Hm; eval_offsets; lia.
Qed.

Lemma month_offset_bounds (leap m : Z) :
  (leap = 0 ∨ leap = 1) → 0 ≤ m < 12 →
  0 ≤ month_offset leap m ∧ month_offset leap (m + 1) ≤ 365 + leap.
Proof.
  intros Hl Hm. destruct Hl as [-> | ->]; month_split m Hm; eval_offsets; lia.
Qed.

Lemma month_of_day_offset (leap m k : Z) :
  (leap = 0 ∨ leap = 1) → 0 ≤ m < 12 →
  0 ≤ k < month_offset leap (m + 1) - month_offset leap m →
  month_of_day leap (month_offset leap m + k) = m.
Proof.
  intros Hl Hm. unfold month_of_day.
  destruct Hl as [-> | ->]; month_split m Hm; eval_offsets; intros Hk;
    repeat case_decide; lia.
Qed.

(** A day of the year lies in the month that [month_of_day] names. *)
Lemma month_of_day_inv (leap d : Z) :
  (leap = 0 ∨ leap = 1) → 0 ≤ d < 365 + leap →
  month_offset leap (month_of_day leap d) ≤ d
    < month_offset leap (month_of_day leap d + 1).
Proof.
  intros Hl Hd. unfold month_of_day.
  destruct Hl as [-> | ->]; repeat case_decide; eval_offsets; lia.
Qed.

Lemma Day_MakeDate (day tod : Z) :
  0 ≤ tod < msPerDay →
  Day (MakeDate day tod) = day ∧ TimeWithinDay (MakeDate day tod) = tod.
Proof.
  unfold Day, TimeWithinDay, MakeDate, msPerDay. intros H.
  Z.div_mod_to_equations. lia.
Qed.

Lemma MakeDate_Day (t : Z) : MakeDate (Day t) (TimeWithinDay t) = t.
Proof.
  unfold Day, TimeWithinDay, MakeDate, msPerDay. Z.div_mod_to_equations. lia.
Qed.

Lemma TimeWithinDay_range (t : Z) : 0 ≤ TimeWithinDay t < msPerDay.
Proof. unfold TimeWithinDay, msPerDay. Z.div_mod_to_equations. lia. Qed.

Lemma MakeDay_carry (year month date : Z) :
  MakeDay year month date = MakeDay (year + month / 12) (month mod 12) date.
Proof.
  unfold MakeDay.
  replace (month mod 12 / 12) with 0 by (Z.div_mod_to_equations; lia).
  replace (month mod 12 mod 12) with (month mod 12) by (Z.div_mod_to_equations; lia).
  by rewrite Z.add_0_r.
Qed.

Lemma MakeDay_in_range (y m d : Z) :
  0 ≤ m < 12 →
  MakeDay y m d = DayFromYear y + month_offset (InLeapYear_of y) m + d - 1.
Proof.
  intros Hm. unfold MakeDay.
  replace (m / 12) with 0 by (Z.div_mod_to_equations; lia).
  replace (m mod 12) with m by (Z.div_mod_to_equations; lia).
  by rewrite Z.add_0_r.
Qed.

(** The calendar fields of the time value that [MakeDay] and [MakeDate] build
    from a date that exists. *)
Lemma civil_of_MakeDate (y m d tod : Z) :
  0 ≤ m < 12 → 1 ≤ d ≤ DaysInMonth y m → 0 ≤ tod < msPerDay →
  let t := MakeDate (MakeDay y m d) tod in
  YearFromTime t = y ∧ MonthFromTime t = m ∧ DateFromTime t = d
  ∧ TimeWithinDay t = tod.
Proof.
  intros Hm Hd Htod t.
  destruct (Day_MakeDate (MakeDay y m d) tod Htod) as [Hday Htw].
  fold t in Hday, Htw. unfold DaysInMonth in Hd.
  pose proof (InLeapYear_of_cases y) as Hl.
  pose proof (month_offset_bounds _ m Hl Hm) as [Hlo Hhi].
  assert (YearFromTime t = y) as Hy.
  { apply YearFromTime_unique. unfold day_in_year.
    rewrite Hday, DayFromYear_succ, DaysInYear_leap, MakeDay_in_range by done.
    lia. }
  assert (DayWithinYear t = month_offset (InLeapYear_of y) m + (d - 1)) as Hdw.
  { unfold DayWithinYear. rewrite Hy, Hday, MakeDay_in_range by done. lia. }
  assert (MonthFromTime t = m) as Hmt.
  { unfold MonthFromTime, InLeapYear. rewrite Hy, Hdw.
    apply month_of_day_offset; [done|done|lia]. }
  split_and!; [done|done| |done].
  unfold DateFromTime, InLeapYear. rewrite Hmt, Hy, Hdw. lia.
Qed.

Lemma MonthFromTime_range (t : Z) : 0 ≤ MonthFromTime t < 12.
Proof. apply month_of_day_range. Qed.

Lemma DayWithinYear_range (t : Z) :
  0 ≤ DayWithinYear t < 365 + InLeapYear t.
Proof.
  unfold DayWithinYear, InLeapYear.
  pose proof (YearFromTime_spec t) as [H1 H2].
  rewrite DayFromYear_succ, DaysInYear_leap in H2. lia.
Qed.

Lemma DateFromTime_range (t : Z) :
  1 ≤ DateFromTime t ≤ DaysInMonth (YearFromTime t) (MonthFromTime t).
Proof.
  unfold DateFromTime, DaysInMonth, MonthFromTime.
  pose proof (month_of_day_inv (InLeapYear t) (DayWithinYear t)
                (InLeapYear_of_cases _) (DayWithinYear_range t)) as H.
  unfold InLeapYear in *. lia.
Qed.

(** A time value is rebuilt from its own calendar fields. *)
Lemma MakeDate_civil (t : Z) :
  MakeDate (MakeDay (YearFromTime t) (MonthFromTime t) (DateFromTime t))
    (TimeWithinDay t) = t.
Proof.
  rewrite MakeDay_in_range by apply MonthFromTime_range.
  transitivity (MakeDate (Day t) (TimeWithinDay t)); [|apply MakeDate_Day].
  f_equal. unfold DateFromTime, DayWithinYear, InLeapYear. lia.
Qed.

(** ** subscribe *)

(** What the [switch] computes for a plan of [k] months: the instant at
    which the zone reads the local time value built from the local fields
    of the call, the month moved on by [k]. *)
Lemma plan_expiry_local (LocalTZA : Z → bool → Z) (now : Z) (plan : string) (k : Z) :
  plan_months plan = Some k →
  let t := LocalTime LocalTZA now in
  plan_expiry LocalTZA now plan =
    Some (UTC LocalTZA
            (MakeDate (MakeDay (YearFromTime t) (MonthFromTime t + k) (DateFromTime t))
               (TimeWithinDay t))).
Proof.
  intros Hk. cbv zeta. set (t := LocalTime LocalTZA now).
  unfold plan_months in Hk. unfold plan_expiry.
  repeat case_decide; try done; injection Hk as <-; try done.
  unfold setFullYear, getFullYear. fold t. do 3 f_equal.
  pose proof (MonthFromTime_range t) as Hm.
  rewrite (MakeDay_carry _ (MonthFromTime t + 12)).
  rewrite (MakeDay_carry _ (MonthFromTime t)).
  replace ((MonthFromTime t + 12) / 12) with 1 by (Z.div_mod_to_equations; lia).
  replace ((MonthFromTime t + 12) mod 12) with (MonthFromTime t)
    by (Z.div_mod_to_equations; lia).
  replace (MonthFromTime t / 12) with 0 by (Z.div_mod_to_equations; lia).
  replace (MonthFromTime t mod 12) with (MonthFromTime t)
    by (Z.div_mod_to_equations; lia).
  by rewrite Z.add_0_r.
Qed.

(** The local time value built from the fields of [t] with the month moved
    on by [k] is [t] advanced by [k] calendar months when the target month
    has the day of the month of [t]. *)
Lemma MakeDate_advanced (k t : Z) :
  let y' := YearFromTime t + (MonthFromTime t + k) / 12 in
  let m' := (MonthFromTime t + k) mod 12 in
  DateFromTime t ≤ DaysInMonth y' m' →
  MakeDate (MakeDay (YearFromTime t) (MonthFromTime t + k) (DateFromTime t))
    (TimeWithinDay t)
  = MakeDate (MakeDay y' m' (DateFromTime t)) (TimeWithinDay t)
  ∧ advanced_by_calendar_months k t
      (MakeDate (MakeDay y' m' (DateFromTime t)) (TimeWithinDay t)).
Proof.
  intros y' m' Hd. split.
  { by rewrite (MakeDay_carry _ (MonthFromTime t + k)). }
  unfold advanced_by_calendar_months. fold y' m'.
  rewrite Z.min_l by done.
  apply civil_of_MakeDate.
  - unfold m'. Z.div_mod_to_equations. lia.
  - pose proof (DateFromTime_range t). lia.
  - apply TimeWithinDay_range.
Qed.

Lemma fixed_offset_shown (tza t : Z) : shown_on_local_clocks (fixed_offset tza) t.
Proof. unfold shown_on_local_clocks, LocalTime, UTC, fixed_offset. lia. Qed.

(** C5.  For each of the plans monthly, quarterly and yearly the subscribe
    endpoint answers 200 with an expiry and leaves the record of the user
    with the plan and that expiry: the record is created when absent, and an
    existing record keeps its free_generations_remaining and its other
    fields; records of other users are not touched.  The expiry is the time
    of the call advanced by one, three or twelve calendar months of the
    local calendar, to the same day of the month at the same time of day,
    provided that the target month has that day of the month and that local
    clocks show that time on that day.  (In a zone with a fixed offset they
    always do; nothing is said here about a call on a day of the month that
    the target month lacks.) *)
Theorem subscribe_sets_calendar_expiry
    (LocalTZA : Z → bool → Z) (now : Z) (userId plan : string) (k : Z) (w : World) :
  outages w = [] →
  userId ≠ "" →
  plan_months plan = Some k →
  ∃ expiry,
    (post_api_user_subscribe LocalTZA now userId plan w).1 =
      Return {| res_status := 200;
                res_json := SubscriptionSuccessful userId plan expiry |}
    ∧ (let t := LocalTime LocalTZA now in
       let y' := YearFromTime t + (MonthFromTime t + k) / 12 in
       let m' := (MonthFromTime t + k) mod 12 in
       DateFromTime t ≤ DaysInMonth y' m' →
       shown_on_local_clocks LocalTZA
         (MakeDate (MakeDay y' m' (DateFromTime t)) (TimeWithinDay t)) →
       advanced_by_calendar_months k t (LocalTime LocalTZA expiry)
       ∧ DateFromTime (LocalTime LocalTZA expiry) = DateFromTime t)
    ∧ users (post_api_user_subscribe LocalTZA now userId plan w).2 !! userId =
        Some (subscribed_record now plan expiry (users w !! userId))
    ∧ (∀ d d', users w !! userId = Some d →
         users (post_api_user_subscribe LocalTZA now userId plan w).2 !! userId = Some d' →
         free_generations_remaining d' = free_generations_remaining d)
    ∧ (∀ id, id ≠ userId →
         users (post_api_user_subscribe LocalTZA now userId plan w).2 !! id = users w !! id).
Proof.
  intros Hup Hid Hk.
  pose proof (plan_expiry_local LocalTZA now plan k Hk) as Hexp. cbv zeta in Hexp.
  set (t := LocalTime LocalTZA now) in *.
  set (expiry := UTC LocalTZA
                   (MakeDate (MakeDay (YearFromTime t) (MonthFromTime t + k)
                                (DateFromTime t)) (TimeWithinDay t))) in *.
  assert (plan ≠ "") as Hplan.
  { intros ->. unfold plan_months in Hk. by repeat case_decide. }
  exists expiry.
  assert (post_api_user_subscribe LocalTZA now userId plan w =
            (Return {| res_status := 200;
                       res_json := SubscriptionSuccessful userId plan expiry |},
             write_user userId (subscribed_record now plan expiry (users w !! userId))
               (match users w !! userId with
                | None => WSetUser userId (subscribed_record now plan expiry None)
                | Some _ => WUpdateUser userId (PatchSubscription plan (Some expiry))
                end) w)) as ->.
  { unfold post_api_user_subscribe. rewrite decide_False by tauto. munfold.
    rewrite getDoc_up, Hexp by done.
    destruct (users w !! userId) as [d|] eqn:Hd.
    - by rewrite (updateDoc_up _ _ _ d).
    - by rewrite setDoc_up. }
  cbn [fst snd users write_user]. split_and!.
  - done.
  - intros Hday Hshown.
    destruct (MakeDate_advanced k t Hday) as [Heq Hadv]. cbv zeta in Heq, Hadv.
    unfold expiry. rewrite Heq. unfold shown_on_local_clocks in Hshown.
    rewrite Hshown. split; [done|].
    destruct Hadv as (_ & _ & Hdate & _). rewrite Hdate. by apply Z.min_l.
  - by rewrite lookup_insert_eq.
  - intros d d' Hd. rewrite lookup_insert_eq, Hd. by intros [= <-].
  - intros id Hne. by rewrite lookup_insert_ne.
Qed.

Lemma subscribe_sets_calendar_expiry_witness :
  outages store_ada = []
  ∧ "ada" ≠ ""
  ∧ plan_months "monthly" = Some 1
  ∧ ∃ expiry,
      (post_api_user_subscribe (fixed_offset 0) 1705320000000 "ada" "monthly" store_ada).1 =
        Return {| res_status := 200;
                  res_json := SubscriptionSuccessful "ada" "monthly" expiry |}
      ∧ advanced_by_calendar_months 1 (LocalTime (fixed_offset 0) 1705320000000)
          (LocalTime (fixed_offset 0) expiry).
Proof.
  split; [reflexivity|]. split; [discriminate|]. split; [reflexivity|].
  destruct (subscribe_sets_calendar_expiry (fixed_offset 0) 1705320000000 "ada" "monthly" 1
              store_ada)
    as (expiry & Hres & Hlater & _).
  - reflexivity.
  - discriminate.
  - reflexivity.
  - exists expiry. split; [exact Hres|].
    apply Hlater; [vm_compute; discriminate | apply fixed_offset_shown].
Defined.

(** A call on 2024-01-31T12:00Z for the monthly plan gets the expiry
    2024-03-02T12:00Z, which is not in February. *)
Lemma subscribe_on_january_31_expires_in_march :
  ¬ subscribe_advances_by_calendar_months.
Proof.
  intros Hclaim.
  destruct (Hclaim (fixed_offset 0) 1706702400000 "eve" "monthly" 1 empty_store)
    as (expiry & Hres & _ & Hmonth & _); [reflexivity|discriminate|reflexivity|].
  assert (expiry = 1709380800000) as ->.
  { vm_compute in Hres. by injection Hres as <-. }
  assert (MonthFromTime (LocalTime (fixed_offset 0) 1709380800000)
          ≠ (MonthFromTime (LocalTime (fixed_offset 0) 1706702400000) + 1) mod 12)
    as Hmarch by (vm_compute; discriminate).
  exact (Hmarch Hmonth).
Qed.

(** The term of a monthly plan is not a fixed number of days: from
    2024-01-15T12:00Z it is 31 days, from 2023-02-15T12:00Z it is 28. *)
Lemma monthly_term_is_not_a_fixed_day_count :
  plan_expiry (fixed_offset 0) 1705320000000 "monthly" = Some (1705320000000 + 31 * msPerDay)
  ∧ plan_expiry (fixed_offset 0) 1676462400000 "monthly" = Some (1676462400000 + 28 * msPerDay).
Proof. split; vm_compute; reflexivity. Qed.

(** ** The content generator *)

Lemma generateContent_returns (reply : ModelReply) (includeFlashcards : bool) :
  ∃ content, ∀ w, generateContent reply includeFlashcards w = (Return content, w).
Proof.
  unfold generateContent. munfold.
  destruct (model_reply_json reply) as [content|e]; [|by eexists].
  destruct (get_prop (Some content) "questions") as [questions|e]; [|by eexists].
  destruct includeFlashcards; [|by eexists].
  destruct (get_prop (Some content) "flashcards") as [flashcards|e]; by eexists.
Qed.

Lemma generateContent_fallback (reply : ModelReply) (includeFlashcards : bool) (w : World) :
  generator_failure reply →
  generateContent reply includeFlashcards w =
    (Return (fallback_content includeFlashcards), w).
Proof. by intros [-> | ->]. Qed.

Lemma generateMockTest_run (reply : ModelReply) (w : World) :
  generateMockTest reply w = (model_reply_json reply, w).
Proof.
  unfold generateMockTest. munfold. by destruct (model_reply_json reply).
Qed.

Lemma createMockTestPDF_pure (data : Json) (pdf_written : bool) :
  ∃ o, ∀ w, createMockTestPDF data pdf_written w = (o, w).
Proof.
  unfold createMockTestPDF. munfold.
  destruct (get_prop (Some data) "mock_test") as [mock_test|e]; [|by eexists].
  destruct (template_read mock_test "topic") as [?|e]; [|by eexists].
  destruct (template_read mock_test "difficulty") as [?|e]; [|by eexists].
  destruct (template_read mock_test "total_questions") as [?|e]; [|by eexists].
  destruct (template_read mock_test "time_allowed") as [?|e]; [|by eexists].
  destruct (get_prop mock_test "questions") as [questions|e]; [|by eexists].
  destruct (array_map mock_test_question_reads questions) as [?|e]; [|by eexists].
  destruct (array_map mock_test_answer_reads questions) as [?|e]; [|by eexists].
  destruct pdf_written; by eexists.
Qed.

(** ** One generation-gated request, step by step *)

Lemma evaluate_step_from (now : Z) (userId : string) (w0 w w' : World) o :
  same_store w0 w → evaluate_step now userId w w' o → evaluate_step now userId w0 w' o.
Proof.
  intros Hs Hev. pose proof Hs as (Hu & Hq & Hm & Hl).
  assert (∀ d ev, user_written userId d ev w w' → user_written userId d ev w0 w') as Hw.
  { intros d ev (?&?&?&?). unfold user_written. rewrite <- Hu, <- Hq, <- Hm, <- Hl. done. }
  inversion Hev; subst.
  - constructor. by eapply same_store_trans.
  - apply evaluate_created; [by rewrite <- Hu | by apply Hw].
  - eapply evaluate_subscribed; [by rewrite <- Hu|done|done|by eapply same_store_trans].
  - eapply evaluate_normalized; [by rewrite <- Hu|done|done|by apply Hw].
  - eapply evaluate_free; [by rewrite <- Hu|done|by eapply same_store_trans].
Qed.

Lemma charge_run (u : UsageStatus) (userId : string) (w : World) :
  ∃ n, (charge u userId w).1 = Return n
       ∧ charge_step u userId w (charge u userId w).2 n.
Proof.
  unfold charge. case_decide as Hst.
  - pose proof (decrementFreeUsage_step userId w) as Hstep.
    destruct (decrementFreeUsage userId w) as [[n|e] w']; cbn in *.
    + exists n. split; [done|]. by apply charge_free.
    + inversion Hstep.
  - exists (remainingFree u). split; [done|].
    apply charge_skipped; [done | apply same_store_refl].
Qed.

Lemma write_quiz_written (q : QuizDoc) (w w1 : World) :
  same_store w w1 → artifact_written (QuizArtifact q) w (write_quiz q w1).
Proof.
  intros (Hu & Hq & Hm & Hl). unfold artifact_written. cbn.
  by rewrite Hu, Hq, Hm, Hl, app_nil_r.
Qed.

Lemma write_mock_test_written (m : MockTestDoc) (w w1 : World) :
  same_store w w1 → artifact_written (MockTestArtifact m) w (write_mock_test m w1).
Proof.
  intros (Hu & Hq & Hm & Hl). unfold artifact_written. cbn.
  by rewrite Hu, Hq, Hm, Hl, app_nil_r.
Qed.

Lemma addDoc_quizzes_persists (q : QuizDoc) :
  persists (QuizArtifact q) (addDoc_quizzes q).
Proof.
  intros w. destruct (addDoc_quizzes_cases w q) as (w1 & Hs & [E|E]).
  - exists (write_quiz q w1). left. split; [done|]. by apply write_quiz_written.
  - exists w1. by right.
Qed.

Lemma addDoc_mock_tests_persists (m : MockTestDoc) :
  persists (MockTestArtifact m) (addDoc_mock_tests m).
Proof.
  intros w. destruct (addDoc_mock_tests_cases w m) as (w1 & Hs & [E|E]).
  - exists (write_mock_test m w1). left. split; [done|].
    by apply write_mock_test_written.
  - exists w1. by right.
Qed.

(** The part the three endpoints share once the artifact is ready: persist
    it, charge, respond 201; an exception on the way becomes a 500. *)
Lemma persist_and_charge (r : GenerationRequest) (w0 w1 : World) (u : UsageStatus)
    (a : Artifact) (persist : M unit)
    (respond : Z → Response) (on_error : Exn → Response) :
  evaluate_step (request_time r) (request_user r) w0 w1 (Return u) →
  canGenerate u = true →
  validated r a →
  artifact_user a = request_user r →
  persists a persist →
  (∀ n, res_status (respond n) = 201) →
  (∀ e, res_status (on_error e) = 500) →
  ∃ resp,
    (match (persist ≫= λ _,
              charge u (request_user r) ≫= λ remainingFree,
                mret (respond remainingFree)) w1
     with
     | (Return a, w') => (Return a, w')
     | (Throw e, w') => (Return (on_error e), w')
     end).1 = Return resp
    ∧ request_step r w0
        (match (persist ≫= λ _,
                  charge u (request_user r) ≫= λ remainingFree,
                    mret (respond remainingFree)) w1
         with
         | (Return a, w') => (Return a, w')
         | (Throw e, w') => (Return (on_error e), w')
         end).2 resp.
Proof.
  intros Hev Hcan Hval Huser Hpersist Hok Herr. munfold.
  destruct (Hpersist w1) as (w2 & [[E Hw]|[E Hs2]]); rewrite E.
  - destruct (charge_run u (request_user r) w2) as (n & Hn & Hch).
    destruct (charge u (request_user r) w2) as [[n'|e] w3];
      cbn in Hn, Hch; [|done].
    injection Hn as ->. exists (respond n). split; [done|]. cbn.
    by eapply request_served.
  - exists (on_error FirestoreError). split; [done|]. cbn.
    eapply request_failed; eauto.
Qed.

Lemma same_store_set_outages (down : list bool) (w : World) :
  same_store w (set_outages down w).
Proof. by repeat split. Qed.

Lemma post_api_create_content_step now quizId reply body down w :
  ∃ resp,
    (serve (CreateContent now quizId reply body down) w).1 = Return resp
    ∧ request_step (CreateContent now quizId reply body down) w
        (serve (CreateContent now quizId reply body down) w).2 resp.
Proof.
  set (r := CreateContent now quizId reply body down).
  cbn [serve r]. unfold post_api_create_content.
  pose proof (same_store_set_outages down w) as Hs0.
  set (w0 := set_outages down w) in *.
  case_decide.
  { eexists. split; [done|]. by apply request_rejected. }
  munfold.
  pose proof (checkUserUsage_step now (cc_user_id body) w0) as Hev.
  apply (evaluate_step_from _ _ w) in Hev; [|done].
  destruct (checkUserUsage now (cc_user_id body) w0) as [[u|e] w1]; cbn in Hev.
  2:{ eexists. split; [done|]. eapply request_evaluate_failed; eauto using same_store_refl. }
  destruct (canGenerate u) eqn:Hcan; cbn [negb].
  2:{ eexists. split; [done|]. eapply request_denied; eauto using same_store_refl. }
  destruct (generateContent_returns reply (is_true (cc_include_flashcards body)))
    as (content & Hc). rewrite Hc.
  destruct (array_map sanitize_question (Some (c_questions content)))
    as [qs|e] eqn:Eqs.
  2:{ eexists. split; [done|]. eapply request_failed; eauto using same_store_refl. }
  destruct (array_map sanitize_flashcard (Some (or_empty (Some (c_flashcards content)))))
    as [fs|e] eqn:Efs.
  2:{ eexists. split; [done|]. eapply request_failed; eauto using same_store_refl. }
  apply (persist_and_charge r w w1 u
           (QuizArtifact
              {| quiz_id := quizId; content_name := cc_content_name body;
                 quiz_user_id := cc_user_id body; quiz_created_at := now;
                 source := None; pdf_details := None;
                 questions := qs; flashcards := fs |})
           (addDoc_quizzes _)
           (λ n, {| res_status := 201;
                    res_json := ContentCreated quizId (subscriptionStatus u) n qs fs |})
           (λ e, {| res_status := 500;
                    res_json := ErrorDetails "Error saving content" e |}));
    try done.
  - by exists content.
  - apply addDoc_quizzes_persists.
Qed.

Lemma post_api_upload_pdf_step now quizId numpages reply req down w :
  ∃ resp,
    (serve (UploadPdf now quizId numpages reply req down) w).1 = Return resp
    ∧ request_step (UploadPdf now quizId numpages reply req down) w
        (serve (UploadPdf now quizId numpages reply req down) w).2 resp.
Proof.
  set (r := UploadPdf now quizId numpages reply req down).
  cbn [serve r]. unfold post_api_upload_pdf.
  pose proof (same_store_set_outages down w) as Hs0.
  set (w0 := set_outages down w) in *.
  destruct (up_file req); cbn [negb].
  2:{ eexists. split; [done|]. by apply request_rejected. }
  case_decide.
  { eexists. split; [done|]. by apply request_rejected. }
  munfold.
  pose proof (checkUserUsage_step now (up_user_id req) w0) as Hev.
  apply (evaluate_step_from _ _ w) in Hev; [|done].
  destruct (checkUserUsage now (up_user_id req) w0) as [[u|e] w1]; cbn in Hev.
  2:{ eexists. split; [done|]. eapply request_evaluate_failed; eauto using same_store_refl. }
  destruct (canGenerate u) eqn:Hcan; cbn [negb].
  2:{ eexists. split; [done|]. eapply request_denied; eauto using same_store_refl. }
  destruct numpages as [totalPages|]; cbn [from_option].
  2:{ eexists. split; [done|]. eapply request_failed; eauto using same_store_refl. }
  case_decide.
  { eexists. split; [done|]. eapply request_failed; eauto using same_store_refl. }
  destruct (generateContent_returns reply
              (is_true (Some (default (JBool true) (up_include_flashcards req)))))
    as (content & Hc). rewrite Hc.
  destruct (array_map sanitize_question (Some (c_questions content)))
    as [qs|e] eqn:Eqs.
  2:{ eexists. split; [done|]. eapply request_failed; eauto using same_store_refl. }
  destruct (array_map sanitize_flashcard (Some (or_empty (Some (c_flashcards content)))))
    as [fs|e] eqn:Efs.
  2:{ eexists. split; [done|]. eapply request_failed; eauto using same_store_refl. }
  match goal with
  | |- context [addDoc_quizzes ?q w1] =>
      apply (persist_and_charge r w w1 u (QuizArtifact q) (addDoc_quizzes q)
               (λ n, {| res_status := 201;
                        res_json := ContentCreated quizId (subscriptionStatus u) n qs fs |})
               (λ e, {| res_status := 500;
                        res_json := ErrorDetails "Error processing PDF" e |}));
        try done
  end.
  - by exists content.
  - apply addDoc_quizzes_persists.
Qed.

Lemma post_api_mock_test_generate_step now testId reply pdf_written body down w :
  ∃ resp,
    (serve (MockTestGenerate now testId reply pdf_written body down) w).1 = Return resp
    ∧ request_step (MockTestGenerate now testId reply pdf_written body down) w
        (serve (MockTestGenerate now testId reply pdf_written body down) w).2 resp.
Proof.
  set (r := MockTestGenerate now testId reply pdf_written body down).
  cbn [serve r]. unfold post_api_mock_test_generate.
  pose proof (same_store_set_outages down w) as Hs0.
  set (w0 := set_outages down w) in *.
  case_decide.
  { eexists. split; [done|]. by apply request_rejected. }
  munfold.
  pose proof (checkUserUsage_step now (mg_user_id body) w0) as Hev.
  apply (evaluate_step_from _ _ w) in Hev; [|done].
  destruct (checkUserUsage now (mg_user_id body) w0) as [[u|e] w1]; cbn in Hev.
  2:{ eexists. split; [done|]. eapply request_evaluate_failed; eauto using same_store_refl. }
  destruct (canGenerate u) eqn:Hcan; cbn [negb].
  2:{ eexists. split; [done|]. eapply request_denied; eauto using same_store_refl. }
  rewrite generateMockTest_run.
  destruct (model_reply_json reply) as [data|e] eqn:Edata.
  2:{ eexists. split; [done|]. eapply request_failed; eauto using same_store_refl. }
  destruct (createMockTestPDF_pure data pdf_written) as (o & Ho). rewrite Ho.
  destruct o as [[]|e].
  2:{ eexists. split; [done|]. eapply request_failed; eauto using same_store_refl. }
  destruct (get_prop (Some data) "mock_test") as [mock_test|e] eqn:Emt.
  2:{ eexists. split; [done|]. eapply request_failed; eauto using same_store_refl. }
  match goal with
  | |- context [addDoc_mock_tests ?m w1] =>
      apply (persist_and_charge r w w1 u (MockTestArtifact m) (addDoc_mock_tests m)
               (λ n, {| res_status := 201;
                        res_json := MockTestCreated testId (subscriptionStatus u) n |})
               (λ e, {| res_status := 500;
                        res_json := ErrorDetails "Error generating mock test" e |}));
        try done
  end.
  - exists data. split_and!; [done|done|]. by exists mock_test.
  - apply addDoc_mock_tests_persists.
Qed.

(** Every generation-gated request answers, and does so along one of the
    paths of [request_step]. *)
Lemma serve_step (r : GenerationRequest) (w : World) :
  ∃ resp, (serve r w).1 = Return resp ∧ request_step r w (serve r w).2 resp.
Proof.
  destruct r.
  - apply post_api_create_content_step.
  - apply post_api_upload_pdf_step.
  - apply post_api_mock_test_generate_step.
Qed.

(** ** Generator failures *)

(** C7, as the code has it.  When the generator fails, generateContent
    (quizzes and flashcards, for the text and the PDF endpoint) returns the
    placeholder: one fallback question and, when flashcards were requested,
    one fallback flashcard; the placeholder passes the sanitising maps of
    the handlers.  generateMockTest rethrows the error, and the mock-test
    endpoint then answers without creating a mock test. *)
Theorem generator_failure_handling (reply : ModelReply) (w : World) :
  generator_failure reply →
  (∀ includeFlashcards,
     generateContent reply includeFlashcards w =
       (Return {| c_questions := JArr [fallback_question];
                  c_flashcards :=
                    if includeFlashcards then JArr [fallback_flashcard] else JArr [] |},
        w)
     ∧ array_map sanitize_question
         (Some (c_questions (fallback_content includeFlashcards)))
       = Return [placeholder_question]
     ∧ array_map sanitize_flashcard
         (Some (or_empty (Some (c_flashcards (fallback_content includeFlashcards)))))
       = Return (if includeFlashcards then [placeholder_flashcard] else []))
  ∧ (∃ e, generateMockTest reply w = (Throw e, w))
  ∧ (∀ now testId pdf_written body down,
       ∃ resp,
         (serve (MockTestGenerate now testId reply pdf_written body down) w).1
           = Return resp
         ∧ res_status resp ≠ 201
         ∧ mock_tests (serve (MockTestGenerate now testId reply pdf_written body down) w).2
           = mock_tests w).
Proof.
  intros Hfail. split_and!.
  - intros inc. split_and!.
    + by rewrite generateContent_fallback.
    + reflexivity.
    + by destruct inc.
  - rewrite generateMockTest_run. destruct Hfail as [-> | ->]; by eexists.
  - intros now testId pdf_written body down.
    destruct (post_api_mock_test_generate_step now testId reply pdf_written body down w)
      as (resp & Hresp & Hstep).
    exists resp. split; [done|].
    assert (∀ w1 w2 o, evaluate_step now (mg_user_id body) w1 w2 o →
              mock_tests w2 = mock_tests w1) as Hev.
    { intros w1 w2 o Hs. inversion Hs as [Hs'|_ Hw|? _ _ _ Hs'|? _ _ _ Hw|? _ _ Hs'];
        first [by destruct Hs' as (_&_&?&_) | by destruct Hw as (_&_&?&_)]. }
    inversion Hstep as [? Hst Hs|? ? ? Hev1 Hs Hst|? ? Hev1 _ Hs|? ? ? Hev1 _ Hs Hst
                        |? ? ? a ? ? _ _ Hval]; subst.
    + split; [lia|]. by destruct Hs as (_&_&?&_).
    + split; [lia|]. destruct Hs as (_&_&->&_). by eapply Hev.
    + split; [done|]. destruct Hs as (_&_&->&_). by eapply Hev.
    + split; [lia|]. destruct Hs as (_&_&->&_). by eapply Hev.
    + destruct a as [q|m]; [done|]. destruct Hval as (data & Hdata & _).
      destruct Hfail as [-> | ->]; discriminate.
Qed.

Lemma generator_failure_handling_witness :
  generator_failure ModelRejects
  ∧ generateContent ModelRejects true store_ada =
      (Return {| c_questions := JArr [fallback_question];
                 c_flashcards := JArr [fallback_flashcard] |}, store_ada)
  ∧ ∃ e, generateMockTest ModelRejects store_ada = (Throw e, store_ada).
Proof.
  destruct (generator_failure_handling ModelRejects store_ada) as (Hquiz & Hmock & _).
  - by left.
  - split; [by left|]. split; [apply (Hquiz true) | exact Hmock].
Defined.

(** C7, as stated, fails: on a generator failure generateMockTest throws, and
    the mock-test endpoint passes the error on in a 500 response. *)
Lemma mock_test_generator_does_not_recover :
  ¬ every_generator_recovers
  ∧ (post_api_mock_test_generate 2000 "k3x9qz" ModelRejects true mock_body_ada store_ada).1
    = Return {| res_status := 500;
                res_json := ErrorDetails "Error generating mock test" UpstreamError |}.
Proof.
  split; [|reflexivity].
  intros Hclaim.
  destruct (Hclaim ModelRejects empty_store) as (_ & data & Hdata); [by left|].
  discriminate Hdata.
Qed.

(** ** Subscribers and the free counter *)

Lemma untouched_refl id w : untouched id w w.
Proof.
  split; [done|]. exists []. split; [by rewrite app_nil_r|]. intros n. apply not_elem_of_nil.
Qed.

Lemma untouched_trans id w1 w2 w3 :
  untouched id w1 w2 → untouched id w2 w3 → untouched id w1 w3.
Proof.
  intros (Hu1 & l1 & Hl1 & Hn1) (Hu2 & l2 & Hl2 & Hn2). split; [congruence|].
  exists (l1 ++ l2). split; [by rewrite Hl2, Hl1, app_assoc|].
  intros n [?|?]%elem_of_app; [by eapply Hn1 | by eapply Hn2].
Qed.

Lemma same_store_untouched id w w' : same_store w w' → untouched id w w'.
Proof.
  intros (Hu & _ & _ & Hl). split; [by rewrite Hu|].
  exists []. split; [by rewrite app_nil_r|]. intros n. apply not_elem_of_nil.
Qed.

Lemma user_written_untouched id id' d ev w w' :
  user_written id' d ev w w' →
  users w !! id = users (write_user id' d ev w) !! id →
  (∀ n, ev ≠ WUpdateUser id (PatchFree n)) →
  untouched id w w'.
Proof.
  intros (Hu & _ & _ & Hl) Hsame Hev. split; [by rewrite Hu, Hsame|].
  exists [ev]. split; [done|].
  intros n Hin%list_elem_of_singleton. exact (Hev n (eq_sym Hin)).
Qed.

Lemma artifact_written_untouched id a w w' :
  artifact_written a w w' → untouched id w w'.
Proof.
  intros (Hu & _ & _ & Hl). split; [by rewrite Hu|].
  exists [artifact_event a]. split; [done|].
  intros n Hin%list_elem_of_singleton. by destruct a.
Qed.

Lemma expiry_after_subscribed now expiry d :
  subscribed_until expiry d → now < expiry → expiry_after now d = true.
Proof.
  intros (_ & He) Hlt. unfold expiry_after. rewrite He.
  by apply bool_decide_eq_true_2.
Qed.

(** evaluate leaves an active subscriber alone, whoever asks; asked about the
    subscriber, it answers with the stored plan. *)
Lemma evaluate_step_subscriber now user id expiry d w w' o :
  evaluate_step now user w w' o →
  users w !! id = Some d → subscribed_until expiry d → now < expiry →
  untouched id w w'
  ∧ (user = id → ∀ u, o = Return u → subscriptionStatus u = subscription_status d).
Proof.
  intros Hstep Hd Hsub Hlt.
  pose proof (expiry_after_subscribed now expiry d Hsub Hlt) as Hact.
  destruct Hsub as (Hst & He).
  inversion Hstep as [Hs|Hnone Hw|d0 Hd0 Hst0 Hexp0 Hs|d0 Hd0 Hst0 Hexp0 Hw|d0 Hd0 Hst0 Hs];
    subst.
  - split; [by apply same_store_untouched | done].
  - split; [|intros ->; congruence].
    eapply user_written_untouched; [done| |done]. cbn.
    rewrite lookup_insert_ne; [done|]. intros ->. congruence.
  - split; [by apply same_store_untouched|].
    intros -> u [= <-]. cbn. congruence.
  - split; [|intros ->; congruence].
    eapply user_written_untouched; [done| |done]. cbn.
    rewrite lookup_insert_ne; [done|]. intros ->. congruence.
  - split; [by apply same_store_untouched|]. intros ->. congruence.
Qed.

Lemma request_step_subscriber r id expiry d w w' resp :
  request_step r w w' resp →
  users w !! id = Some d → subscribed_until expiry d → request_time r < expiry →
  untouched id w w'.
Proof.
  intros Hstep Hd Hsub Hlt.
  inversion Hstep as [? Hst Hs|w1 ? ? Hev Hs Hst|w1 u Hev _ Hs|w1 u ? Hev _ Hs Hst
                      |w1 w2 u a n ? Hev _ _ _ Hart Hch]; subst.
  - by apply same_store_untouched.
  - destruct (evaluate_step_subscriber _ _ id expiry d _ _ _ Hev) as [Hun _]; try done.
    eapply untouched_trans; [done | by apply same_store_untouched].
  - destruct (evaluate_step_subscriber _ _ id expiry d _ _ _ Hev) as [Hun _]; try done.
    eapply untouched_trans; [done | by apply same_store_untouched].
  - destruct (evaluate_step_subscriber _ _ id expiry d _ _ _ Hev) as [Hun _]; try done.
    eapply untouched_trans; [done | by apply same_store_untouched].
  - destruct (evaluate_step_subscriber _ _ id expiry d _ _ _ Hev) as [Hun Hplan];
      try done.
    eapply untouched_trans; [done|].
    eapply untouched_trans; [by eapply artifact_written_untouched|].
    inversion Hch as [? Hfree Hcons|Hpaid Hs]; subst; [|by apply same_store_untouched].
    inversion Hcons as [Hs|d1 Hd1 Hc Hw]; subst; [by apply same_store_untouched|].
    assert (request_user r ≠ id) as Hne.
    { intros Heq. specialize (Hplan Heq u eq_refl). destruct Hsub. congruence. }
    eapply user_written_untouched; [done| |].
    + cbn. by rewrite lookup_insert_ne.
    + intros n' [= ? ?]. done.
Qed.

(** C3.  For a subscriber whose plan runs until [expiry]: checkUserUsage
    before the expiry answers allowed, 0 remaining and the stored plan; and
    whatever generation-gated requests are served before the expiry, by
    whichever users and with whatever outcome, the subscriber's record
    (counter included) stays as it was and no write of the subscriber's free
    counter reaches the store. *)
Theorem subscriber_is_never_charged
    (rs : list GenerationRequest) (w : World) (userId : string) (d : UserDoc) (expiry : Z) :
  users w !! userId = Some d →
  subscription_status d ≠ "free" →
  subscription_expiry d = Some expiry →
  (∀ r, r ∈ rs → request_time r < expiry) →
  (∀ now, now < expiry → outages w = [] →
     checkUserUsage now userId w =
       (Return {| canGenerate := true; remainingFree := 0;
                  subscriptionStatus := subscription_status d |}, w))
  ∧ users (serve_all rs w) !! userId = Some d
  ∧ ∃ l, log (serve_all rs w) = log w ++ l
         ∧ ∀ n, WUpdateUser userId (PatchFree n) ∉ l.
Proof.
  intros Hd Hst He Hlt. split.
  { intros now Hnow Hup. rewrite (checkUserUsage_existing now userId w d) by done.
    rewrite decide_True by done.
    by rewrite (expiry_after_subscribed now expiry d). }
  assert (untouched userId w (serve_all rs w)) as (Hu & Hl).
  { clear -Hd Hst He Hlt. revert w Hd Hlt.
    induction rs as [|r rs IH]; intros w Hd Hlt; cbn [serve_all].
    - apply untouched_refl.
    - destruct (serve_step r w) as (resp & _ & Hstep).
      assert (untouched userId w (serve r w).2) as Hun.
      { eapply request_step_subscriber; [done|done|done|].
        apply Hlt. by left. }
      eapply untouched_trans; [done|].
      apply IH.
      + destruct Hun as (-> & _). done.
      + intros r' Hin. apply Hlt. by right. }
  split; [by rewrite Hu | done].
Qed.

Lemma subscriber_is_never_charged_witness :
  users (store_bob "monthly" (Some 3600000) 4) !! "bob"
    = Some (subscriber "monthly" (Some 3600000) 4)
  ∧ (∀ r, r ∈ [CreateContent 1000 "abc123" ModelRejects
                 body_bob []] →
          request_time r < 3600000)
  ∧ users (serve_all [CreateContent 1000 "abc123" ModelRejects
                        body_bob []]
             (store_bob "monthly" (Some 3600000) 4)) !! "bob"
    = Some (subscriber "monthly" (Some 3600000) 4).
Proof.
  assert (∀ r, r ∈ [CreateContent 1000 "abc123" ModelRejects
                      body_bob []] →
               request_time r < 3600000) as Hlt.
  { intros r ->%list_elem_of_singleton. reflexivity. }
  split; [reflexivity|]. split; [exact Hlt|].
  apply (subscriber_is_never_charged _ (store_bob "monthly" (Some 3600000) 4) "bob"
           (subscriber "monthly" (Some 3600000) 4) 3600000).
  - reflexivity.
  - discriminate.
  - reflexivity.
  - exact Hlt.
Defined.

(** ** Persist, then charge *)

Lemma same_store_not_decremented w w' : same_store w w' → not_decremented w w'.
Proof. intros (Hu & _) id d d'. rewrite Hu. congruence. Qed.

Lemma not_decremented_same_store w w1 w' :
  not_decremented w w1 → same_store w1 w' → not_decremented w w'.
Proof. intros Hn (Hu & _) id d d'. rewrite Hu. apply Hn. Qed.

Lemma evaluate_step_writes now userId w w' o :
  evaluate_step now userId w w' o →
  ∃ pre, log w' = log w ++ pre ∧ evaluate_writes userId pre
         ∧ quizzes w' = quizzes w ∧ mock_tests w' = mock_tests w
         ∧ not_decremented w w'.
Proof.
  intros Hstep.
  inversion Hstep as [Hs|Hnone Hw|d0 Hd0 Hst0 Hexp0 Hs|d0 Hd0 Hst0 Hexp0 Hw|d0 Hd0 Hst0 Hs];
    subst.
  - exists []. pose proof Hs as (_ & ? & ? & ?).
    split_and!; [by rewrite app_nil_r|by left|done|done|by apply same_store_not_decremented].
  - destruct Hw as (Hu & ? & ? & ?). eexists. split_and!; [done| |done|done|].
    + right. left. by eexists.
    + intros id d d'. rewrite Hu. destruct (decide (id = userId)) as [->|Hne].
      * congruence.
      * rewrite lookup_insert_ne by done. congruence.
  - exists []. pose proof Hs as (_ & ? & ? & ?).
    split_and!; [by rewrite app_nil_r|by left|done|done|by apply same_store_not_decremented].
  - destruct Hw as (Hu & ? & ? & ?). eexists. split_and!; [done| |done|done|].
    + by right; right.
    + intros id d d'. rewrite Hu. destruct (decide (id = userId)) as [->|Hne].
      * rewrite lookup_insert_eq, Hd0. by intros [= <-] [= <-].
      * rewrite lookup_insert_ne by done. congruence.
  - exists []. pose proof Hs as (_ & ? & ? & ?).
    split_and!; [by rewrite app_nil_r|by left|done|done|by apply same_store_not_decremented].
Qed.

(** C8, as the code has it.  A generation-gated request always answers.
    Its writes are those of checkUserUsage followed by nothing, by the
    artifact, or by the artifact and then the write of the free counter: the
    counter is written only after the validated artifact has been stored.
    When the answer is not 201 (a denied request, a failed validation, a
    rejected addDoc, a mock test whose generation or PDF failed) no artifact
    is stored and no free counter changes.  A mock-test request whose
    generator fails is never answered with 201. *)
Theorem charge_follows_persistence (r : GenerationRequest) (w : World) :
  ∃ resp pre post,
    (serve r w).1 = Return resp
    ∧ log (serve r w).2 = log w ++ pre ++ post
    ∧ evaluate_writes (request_user r) pre
    ∧ ((res_status resp ≠ 201
        ∧ post = []
        ∧ quizzes (serve r w).2 = quizzes w
        ∧ mock_tests (serve r w).2 = mock_tests w
        ∧ not_decremented w (serve r w).2)
       ∨ (res_status resp = 201
          ∧ ∃ a, validated r a
                 ∧ artifact_user a = request_user r
                 ∧ (post = [artifact_event a]
                    ∨ ∃ n, post = [artifact_event a;
                                   WUpdateUser (request_user r) (PatchFree n)])))
    ∧ (∀ now testId reply pdf_written body down,
         r = MockTestGenerate now testId reply pdf_written body down →
         generator_failure reply → res_status resp ≠ 201).
Proof.
  destruct (serve_step r w) as (resp & Hresp & Hstep).
  exists resp.
  assert (∀ w1 o,
            evaluate_step (request_time r) (request_user r) w w1 o →
            same_store w1 (serve r w).2 → res_status resp ≠ 201 →
            ∃ pre post,
              log (serve r w).2 = log w ++ pre ++ post
              ∧ evaluate_writes (request_user r) pre
              ∧ ((res_status resp ≠ 201 ∧ post = []
                  ∧ quizzes (serve r w).2 = quizzes w
                  ∧ mock_tests (serve r w).2 = mock_tests w
                  ∧ not_decremented w (serve r w).2)
                 ∨ (res_status resp = 201
                    ∧ ∃ a, validated r a
                           ∧ artifact_user a = request_user r
                           ∧ (post = [artifact_event a]
                              ∨ ∃ n, post = [artifact_event a;
                                             WUpdateUser (request_user r) (PatchFree n)]))))
    as Hfail.
  { intros w1 o Hev Hs Hst.
    destruct (evaluate_step_writes _ _ _ _ _ Hev) as (pre & Hl & Hpre & Hq & Hm & Hn).
    pose proof Hs as (_ & Hq' & Hm' & Hl').
    exists pre, []. split_and!; [by rewrite app_nil_r, Hl', Hl|done|].
    left. split_and!; [done|done|congruence|congruence|].
    by eapply not_decremented_same_store. }
  assert (res_status resp = 201 → ∃ a, validated r a) as Hval.
  { inversion Hstep; subst; try lia; [|by eauto].
    intros. unfold limit_reached in *. cbn in *. lia. }
  assert (∃ pre post,
            log (serve r w).2 = log w ++ pre ++ post
            ∧ evaluate_writes (request_user r) pre
            ∧ ((res_status resp ≠ 201 ∧ post = []
                ∧ quizzes (serve r w).2 = quizzes w
                ∧ mock_tests (serve r w).2 = mock_tests w
                ∧ not_decremented w (serve r w).2)
               ∨ (res_status resp = 201
                  ∧ ∃ a, validated r a
                         ∧ artifact_user a = request_user r
                         ∧ (post = [artifact_event a]
                            ∨ ∃ n, post = [artifact_event a;
                                           WUpdateUser (request_user r) (PatchFree n)]))))
    as (pre & post & Hlog & Hpre & Hcases).
  { inversion Hstep as [? Hst Hs|w1 ? ? Hev Hs Hst|w1 u Hev _ Hs|w1 u ? Hev _ Hs Hst
                        |w1 w2 u a n ? Hev _ Hva Hau Hart Hch Hst]; subst.
    - exists [], []. pose proof Hs as (_ & ? & ? & Hl).
      split_and!; [by rewrite !app_nil_r|by left|].
      left. split_and!; [lia|done|done|done|by apply same_store_not_decremented].
    - eapply Hfail; [done|done|lia].
    - eapply Hfail; [done|done|done].
    - eapply Hfail; [done|done|lia].
    - destruct (evaluate_step_writes _ _ _ _ _ Hev) as (pre & Hl & Hpre & _).
      destruct Hart as (_ & _ & _ & Hl2).
      exists pre.
      inversion Hch as [? Hfree Hcons|Hpaid Hs]; subst.
      + inversion Hcons as [Hs|d1 Hd1 Hc Hw]; subst.
        * destruct Hs as (_ & _ & _ & Hl3). exists [artifact_event a].
          split_and!; [by rewrite Hl3, Hl2, Hl, app_assoc|done|].
          right. split; [done|]. exists a. by split_and!; [..|left].
        * destruct Hw as (_ & _ & _ & Hl3). eexists.
          split_and!; [by rewrite Hl3, Hl2, Hl, <- !app_assoc|done|].
          right. split; [done|]. exists a. split_and!; [done|done|].
          right. by eexists.
      + destruct Hs as (_ & _ & _ & Hl3). exists [artifact_event a].
        split_and!; [by rewrite Hl3, Hl2, Hl, app_assoc|done|].
        right. split; [done|]. exists a. by split_and!; [..|left]. }
  exists pre, post. split_and!; try done.
  intros now testId reply pdf_written body down -> Hgen Hst.
  destruct (Hval Hst) as (a & Ha). destruct a as [q|m]; [done|].
  destruct Ha as (data & Hdata & _). destruct Hgen as [-> | ->]; discriminate.
Qed.

(** C8, as stated, fails for the quiz endpoints: with a generator that
    rejects the call, create_content stores the placeholder quiz and takes
    one of ada's ten free generations. *)
Lemma placeholder_quiz_is_charged :
  ¬ no_charge_when_generation_fails
  ∧ free_generations_remaining
      <$> users (serve (CreateContent 2000 "abc123" ModelRejects body_ada []) store_ada).2
            !! "ada" = Some 9.
Proof.
  split; [|vm_compute; reflexivity].
  intros Hclaim.
  specialize (Hclaim (CreateContent 2000 "abc123" ModelRejects body_ada []) store_ada
                (new_profile "ada" 1000)
                {| user_id := Some "ada"; free_generations_remaining := 9;
                   subscription_status := "free"; subscription_expiry := None;
                   created_at := 1000 |}).
  cbn in Hclaim. discriminate Hclaim; [by left | reflexivity | vm_compute; reflexivity].
Qed.


(** ** Worked examples *)

(** decrementFreeUsage keeps a non-negative counter non-negative, outages or
    not. *)
Lemma consume_never_negative (w : World) (userId : string) (d d' : UserDoc) :
  users w !! userId = Some d →
  0 ≤ free_generations_remaining d →
  users (decrementFreeUsage userId w).2 !! userId = Some d' →
  0 ≤ free_generations_remaining d'.
Proof.
  intros Hd Hn Hd'. pose proof (decrementFreeUsage_step userId w) as Hstep.
  inversion Hstep as [Hs|d1 Hd1 (_ & Hpos) Hw].
  - rewrite (same_store_lookup _ _ _ Hs), Hd in Hd'. by injection Hd' as <-.
  - rewrite (user_written_lookup _ _ _ _ _ Hw) in Hd'. injection Hd' as <-. cbn. lia.
Qed.

(** Ten generations use up the free quota; the eleventh consume is a no-op. *)
Example eleven_consumes :
  free_generations_remaining
    <$> users (Nat.iter 11 (λ w, (decrementFreeUsage "ada" w).2) store_ada) !! "ada"
  = Some 0.
Proof. vm_compute. reflexivity. Qed.

(** A free user without generations left is denied with a 403, and nothing is
    written. *)
Example exhausted_user_is_denied :
  serve (CreateContent 2000 "abc123" reply_one_question body_ada []) store_ada_exhausted
  = (Return {| res_status := 403; res_json := LimitReached "free" 0 |},
     store_ada_exhausted).
Proof. vm_compute. reflexivity. Qed.

(** A valid reply: the quiz is stored, then the counter is written. *)
Example served_request_log :
  log (serve (CreateContent 2000 "abc123" reply_one_question body_ada []) store_ada).2
  = [WAddQuiz {| quiz_id := "abc123"; content_name := "Biology";
                 quiz_user_id := "ada"; quiz_created_at := 2000;
                 source := None; pdf_details := None;
                 questions := [{| q_question := "2 + 2?";
                                  q_type := "Multiple_Choice";
                                  q_options := ["3"; "4"];
                                  q_answer := "4" |}];
                 flashcards := [] |};
     WUpdateUser "ada" (PatchFree 9)].
Proof. vm_compute. reflexivity. Qed.

(** A question without an answer fails validation: 500, nothing stored,
    nothing charged. *)
Example invalid_question_is_not_charged :
  serve (CreateContent 2000 "abc123" reply_without_answer body_ada []) store_ada
  = (Return {| res_status := 500;
               res_json := ErrorDetails "Error saving content" invalid_question |},
     store_ada).
Proof. vm_compute. reflexivity. Qed.

(** The store rejects the addDoc (second Firestore call of the request):
    500, nothing stored, nothing charged. *)
Example rejected_save_is_not_charged :
  (serve (CreateContent 2000 "abc123" reply_one_question body_ada [false; true]) store_ada).1
  = Return {| res_status := 500;
              res_json := ErrorDetails "Error saving content" FirestoreError |}
  ∧ users (serve (CreateContent 2000 "abc123" reply_one_question body_ada [false; true])
             store_ada).2 = users store_ada
  ∧ log (serve (CreateContent 2000 "abc123" reply_one_question body_ada [false; true])
           store_ada).2 = [].
Proof. vm_compute. split_and!; reflexivity. Qed.

(** 2024-01-31T12:00Z plus one month is 2024-03-02T12:00Z: February 2024 has
    no 31st, and the two surplus days carry into March. *)
Example monthly_from_january_31 :
  plan_expiry (fixed_offset 0) 1706702400000 "monthly" = Some 1709380800000
  ∧ YearFromTime 1709380800000 = 2024 ∧ MonthFromTime 1709380800000 = 2
  ∧ DateFromTime 1709380800000 = 2.
Proof. vm_compute. split_and!; reflexivity. Qed.

(** In New York a monthly plan bought on 2024-02-15 at noon expires on
    2024-03-15 at noon, which is 16:00Z: daylight saving time has begun in
    between, and the term is an hour short of 29 days. *)
Example monthly_across_daylight_saving :
  plan_expiry new_york_2024 1708016400000 "monthly" = Some 1710518400000
  ∧ 1710518400000 - 1708016400000 = 29 * msPerDay - 3600000.
Proof. vm_compute. split; reflexivity. Qed.

(** Bought there on 2024-02-10 at 02:30, it expires on 2024-03-10 at 03:30:
    local clocks skip 02:30 on that day. *)
Example monthly_into_skipped_hour :
  plan_expiry new_york_2024 1707550200000 "monthly" = Some 1710055800000
  ∧ TimeWithinDay (LocalTime new_york_2024 1707550200000) = 9000000
  ∧ TimeWithinDay (LocalTime new_york_2024 1710055800000) = 12600000
  ∧ ¬ shown_on_local_clocks new_york_2024 1710037800000.
Proof. vm_compute. split_and!; (reflexivity || discriminate). Qed.

(** A question whose answer [String] cannot convert is not stored: the
    request is answered 500 and nothing is written. *)
Example unprintable_answer_is_not_charged :
  (serve (CreateContent 2000 "abc123" reply_unprintable_answer body_ada []) store_ada).1
    = Return {| res_status := 500;
                res_json := ErrorDetails "Error saving content" TypeError |}
  ∧ users (serve (CreateContent 2000 "abc123" reply_unprintable_answer body_ada [])
             store_ada).2 = users store_ada
  ∧ quizzes (serve (CreateContent 2000 "abc123" reply_unprintable_answer body_ada [])
               store_ada).2 = [].
Proof. vm_compute. split_and!; reflexivity. Qed.

(** * Further properties of the code *)

(** ** Runs of the subscription endpoints, outages included *)

(** What the subscription-info endpoint does to the store. *)
Lemma get_api_user_subscription_step (now : Z) (userId : string) (w : World) :
  same_store w (get_api_user_subscription now userId w).2
  ∨ (users w !! userId = None
     ∧ user_written userId (new_profile userId now)
         (WSetUser userId (new_profile userId now)) w
         (get_api_user_subscription now userId w).2)
  ∨ (∃ d, users w !! userId = Some d
          ∧ subscription_status d ≠ "free"
          ∧ expiry_before now d = true
          ∧ user_written userId (normalized d)
              (WUpdateUser userId (PatchSubscription "free" None)) w
              (get_api_user_subscription now userId w).2).
Proof.
  unfold get_api_user_subscription. munfold.
  destruct (getDoc_cases w userId) as (w1 & Hs & [E|E]); rewrite E; cbn;
    [|by left].
  destruct (users w !! userId) as [d|] eqn:Hd.
  - destruct (bool_decide (subscription_status d ≠ "free")) eqn:Hst; cbn [andb];
      [|by left].
    apply bool_decide_eq_true in Hst.
    destruct (expiry_before now d) eqn:Hexp; [|by left].
    destruct (updateDoc_cases w1 userId (PatchSubscription "free" None))
      as (w2 & Hs2 & [(d2 & Hd2 & E2)|E2]); rewrite E2; cbn.
    + assert (d2 = d) as ->.
      { destruct Hs as (Hu & _). rewrite Hu, Hd in Hd2. congruence. }
      right. right. exists d. split_and!; try done.
      apply write_user_written. by eapply same_store_trans.
    + left. by eapply same_store_trans.
  - destruct (setDoc_cases w1 userId (new_profile userId now))
      as (w2 & Hs2 & [E2|E2]); rewrite E2; cbn.
    + right. left. split; [done|].
      apply write_user_written. by eapply same_store_trans.
    + left. by eapply same_store_trans.
Qed.

(** What the subscribe endpoint does to the store. *)
Lemma post_api_user_subscribe_step (tza : Z → bool → Z) (now : Z) (userId plan : string)
    (w : World) :
  same_store w (post_api_user_subscribe tza now userId plan w).2
  ∨ (∃ expiry ev,
       plan_expiry tza now plan = Some expiry
       ∧ user_written userId
           (subscribed_record now plan expiry (users w !! userId)) ev w
           (post_api_user_subscribe tza now userId plan w).2
       ∧ ∀ id n, ev ≠ WUpdateUser id (PatchFree n)).
Proof.
  unfold post_api_user_subscribe.
  case_decide; [left; apply same_store_refl|]. munfold.
  destruct (getDoc_cases w userId) as (w1 & Hs & [E|E]); rewrite E; cbn;
    [|by left].
  destruct (plan_expiry tza now plan) as [expiry|]; [|by left].
  destruct (users w !! userId) as [d|] eqn:Hd.
  - destruct (updateDoc_cases w1 userId (PatchSubscription plan (Some expiry)))
      as (w2 & Hs2 & [(d2 & Hd2 & E2)|E2]); rewrite E2; cbn.
    + assert (d2 = d) as ->.
      { destruct Hs as (Hu & _). rewrite Hu, Hd in Hd2. congruence. }
      right. exists expiry, (WUpdateUser userId (PatchSubscription plan (Some expiry))).
      split_and!; [done| |done].
      apply write_user_written. by eapply same_store_trans.
    + left. by eapply same_store_trans.
  - match goal with
    | |- context [setDoc userId ?d w1] =>
        destruct (setDoc_cases w1 userId d) as (w2 & Hs2 & [E2|E2]); rewrite E2; cbn
    end.
    + right. exists expiry, (WSetUser userId (subscribed_record now plan expiry None)).
      split_and!; [done| |done].
      apply write_user_written. by eapply same_store_trans.
    + left. by eapply same_store_trans.
Qed.

(** ** subscribe: unknown plans and the length of a term *)

Lemma plan_expiry_unknown (tza : Z → bool → Z) (now : Z) (plan : string) :
  plan_months plan = None → plan_expiry tza now plan = None.
Proof. unfold plan_months, plan_expiry. by repeat case_decide. Qed.

(** X1.  A plan other than monthly, quarterly and yearly is refused: the
    endpoint writes nothing (whatever the outages), it answers 400 or, when
    the read of the user's record was rejected, 500; with Firestore
    reachable and both fields present the answer is the 400 "Invalid
    plan". *)
Theorem subscribe_refuses_unknown_plan
    (LocalTZA : Z → bool → Z) (now : Z) (userId plan : string) (w : World) :
  plan_months plan = None →
  same_store w (post_api_user_subscribe LocalTZA now userId plan w).2
  ∧ (∃ resp, (post_api_user_subscribe LocalTZA now userId plan w).1 = Return resp
             ∧ (res_status resp = 400 ∨ res_status resp = 500))
  ∧ (outages w = [] → userId ≠ "" → plan ≠ "" →
     post_api_user_subscribe LocalTZA now userId plan w =
       (Return {| res_status := 400;
                  res_json := ErrorBody "Invalid plan. Choose monthly, quarterly, or yearly." |},
        w)).
Proof.
  intros Hplan. pose proof (plan_expiry_unknown LocalTZA now plan Hplan) as Hexp.
  split_and!.
  - destruct (post_api_user_subscribe_step LocalTZA now userId plan w)
      as [Hs|(e & ev & He & _)]; [done | congruence].
  - unfold post_api_user_subscribe. case_decide; [eexists; split; [done|by left]|].
    munfold. destruct (getDoc_cases w userId) as (w1 & Hs & [E|E]); rewrite E; cbn.
    + rewrite Hexp. eexists. split; [done|by left].
    + eexists. split; [done|by right].
  - intros Hup Hid Hp. unfold post_api_user_subscribe.
    rewrite decide_False by tauto. munfold.
    by rewrite getDoc_up, Hexp.
Qed.

Lemma subscribe_refuses_unknown_plan_witness :
  plan_months "weekly" = None
  ∧ post_api_user_subscribe (fixed_offset 0) 2000 "ada" "weekly" store_ada =
      (Return {| res_status := 400;
                 res_json := ErrorBody "Invalid plan. Choose monthly, quarterly, or yearly." |},
       store_ada).
Proof.
  split; [reflexivity|].
  apply (subscribe_refuses_unknown_plan (fixed_offset 0) 2000 "ada" "weekly" store_ada
           eq_refl);
    [reflexivity | discriminate | discriminate].
Defined.

(** The number of days between a date and the date [k] months later, same
    day of the month. *)
Lemma MakeDay_month_later (y m d : Z) :
  0 ≤ m < 12 →
  28 ≤ MakeDay y (m + 1) d - MakeDay y m d ≤ 31.
Proof.
  intros Hm. unfold MakeDay.
  pose proof (InLeapYear_of_cases y) as Hl.
  pose proof (InLeapYear_of_cases (y + 1)) as Hl1.
  pose proof (DayFromYear_succ y) as Hs. rewrite DaysInYear_leap in Hs.
  month_split m Hm;
    repeat match goal with
           | |- context [?a / 12] =>
               let v := eval vm_compute in (a / 12) in change (a / 12) with v
           | |- context [?a mod 12] =>
               let v := eval vm_compute in (a mod 12) in change (a mod 12) with v
           end;
    rewrite ?Z.add_0_r;
    destruct Hl as [Hl | Hl]; destruct Hl1 as [Hl1 | Hl1];
    rewrite ?Hl, ?Hl1 in *; eval_offsets; lia.
Qed.

Lemma MakeDay_quarter_later (y m d : Z) :
  0 ≤ m < 12 →
  89 ≤ MakeDay y (m + 3) d - MakeDay y m d ≤ 92.
Proof.
  intros Hm. unfold MakeDay.
  pose proof (InLeapYear_of_cases y) as Hl.
  pose proof (InLeapYear_of_cases (y + 1)) as Hl1.
  pose proof (DayFromYear_succ y) as Hs. rewrite DaysInYear_leap in Hs.
  month_split m Hm;
    repeat match goal with
           | |- context [?a / 12] =>
               let v := eval vm_compute in (a / 12) in change (a / 12) with v
           | |- context [?a mod 12] =>
               let v := eval vm_compute in (a mod 12) in change (a mod 12) with v
           end;
    rewrite ?Z.add_0_r;
    destruct Hl as [Hl | Hl]; destruct Hl1 as [Hl1 | Hl1];
    rewrite ?Hl, ?Hl1 in *; eval_offsets; lia.
Qed.

Lemma MakeDay_year_later (y m d : Z) :
  0 ≤ m < 12 →
  365 ≤ MakeDay (y + 1) m d - MakeDay y m d ≤ 366.
Proof.
  intros Hm. rewrite !MakeDay_in_range by done.
  pose proof (InLeapYear_of_cases y) as Hl.
  pose proof (InLeapYear_of_cases (y + 1)) as Hl1.
  pose proof (DayFromYear_succ y) as Hs. rewrite DaysInYear_leap in Hs.
  month_split m Hm;
    destruct Hl as [Hl | Hl]; destruct Hl1 as [Hl1 | Hl1];
    rewrite ?Hl, ?Hl1 in *; eval_offsets; lia.
Qed.

Lemma setMonth_days (LocalTZA : Z → bool → Z) (date k : Z) :
  let t := LocalTime LocalTZA date in
  ∃ local,
    setMonth LocalTZA date (getMonth LocalTZA date + k) - date =
      (MakeDay (YearFromTime t) (MonthFromTime t + k) (DateFromTime t)
       - MakeDay (YearFromTime t) (MonthFromTime t) (DateFromTime t)) * msPerDay
      + LocalTZA date true - LocalTZA local false.
Proof.
  intros t. unfold setMonth, getMonth, UTC. fold t.
  exists (MakeDate (MakeDay (YearFromTime t) (MonthFromTime t + k) (DateFromTime t))
            (TimeWithinDay t)).
  assert (t - date = LocalTZA date true) as Hoff by (unfold t, LocalTime; lia).
  pose proof (MakeDate_civil t) as Ht. revert Ht Hoff.
  generalize (YearFromTime t) (MonthFromTime t) (DateFromTime t) (TimeWithinDay t)
    (LocalTZA date true).
  intros Y M D tod off Ht Hoff.
  generalize (LocalTZA (MakeDate (MakeDay Y (M + k) D) tod) false). intros off'.
  unfold MakeDate in *. lia.
Qed.

Lemma setFullYear_days (LocalTZA : Z → bool → Z) (date : Z) :
  let t := LocalTime LocalTZA date in
  ∃ local,
    setFullYear LocalTZA date (getFullYear LocalTZA date + 1) - date =
      (MakeDay (YearFromTime t + 1) (MonthFromTime t) (DateFromTime t)
       - MakeDay (YearFromTime t) (MonthFromTime t) (DateFromTime t)) * msPerDay
      + LocalTZA date true - LocalTZA local false.
Proof.
  intros t. unfold setFullYear, getFullYear, UTC. fold t.
  exists (MakeDate (MakeDay (YearFromTime t + 1) (MonthFromTime t) (DateFromTime t))
            (TimeWithinDay t)).
  assert (t - date = LocalTZA date true) as Hoff by (unfold t, LocalTime; lia).
  pose proof (MakeDate_civil t) as Ht. revert Ht Hoff.
  generalize (YearFromTime t) (MonthFromTime t) (DateFromTime t) (TimeWithinDay t)
    (LocalTZA date true).
  intros Y M D tod off Ht Hoff.
  generalize (LocalTZA (MakeDate (MakeDay (Y + 1) M D) tod) false). intros off'.
  unfold MakeDate in *. lia.
Qed.

(** The term of a plan in any zone: a whole number of days, corrected by
    the difference between the offset in force at the call and the offset
    by which the local time of the expiry is read. *)
Lemma plan_expiry_term (LocalTZA : Z → bool → Z) (now : Z) (plan : string) (expiry : Z) :
  plan_expiry LocalTZA now plan = Some expiry →
  ∃ days local,
    expiry - now = days * msPerDay + LocalTZA now true - LocalTZA local false
    ∧ (plan = "monthly" → 28 ≤ days ≤ 31)
    ∧ (plan = "quarterly" → 89 ≤ days ≤ 92)
    ∧ (plan = "yearly" → 365 ≤ days ≤ 366).
Proof.
  unfold plan_expiry. intros Hexp.
  pose proof (MonthFromTime_range (LocalTime LocalTZA now)) as Hm.
  repeat case_decide; try done; injection Hexp as <-; subst plan.
  - destruct (setMonth_days LocalTZA now 1) as (local & Hd).
    pose proof (MakeDay_month_later (YearFromTime (LocalTime LocalTZA now))
                  (MonthFromTime (LocalTime LocalTZA now))
                  (DateFromTime (LocalTime LocalTZA now)) Hm).
    eexists _, local. split_and!; [done|done|done|done].
  - destruct (setMonth_days LocalTZA now 3) as (local & Hd).
    pose proof (MakeDay_quarter_later (YearFromTime (LocalTime LocalTZA now))
                  (MonthFromTime (LocalTime LocalTZA now))
                  (DateFromTime (LocalTime LocalTZA now)) Hm).
    eexists _, local. split_and!; [done|done|done|done].
  - destruct (setFullYear_days LocalTZA now) as (local & Hd).
    pose proof (MakeDay_year_later (YearFromTime (LocalTime LocalTZA now))
                  (MonthFromTime (LocalTime LocalTZA now))
                  (DateFromTime (LocalTime LocalTZA now)) Hm).
    eexists _, local. split_and!; [done|done|done|done].
Qed.

Lemma plan_expiry_months (LocalTZA : Z → bool → Z) (now : Z) (plan : string) (expiry : Z) :
  plan_expiry LocalTZA now plan = Some expiry →
  plan = "monthly" ∨ plan = "quarterly" ∨ plan = "yearly".
Proof. unfold plan_expiry. intros Hexp. repeat case_decide; try done; tauto. Qed.

(** The call lies before the expiry unless the offsets of the zone differ by
    four weeks. *)
Lemma plan_expiry_future (LocalTZA : Z → bool → Z) (now : Z) (plan : string) (expiry : Z) :
  plan_expiry LocalTZA now plan = Some expiry →
  (∀ t, LocalTZA t false - LocalTZA now true < 28 * msPerDay) →
  now < expiry.
Proof.
  intros Hexp Hoff.
  destruct (plan_expiry_term _ _ _ _ Hexp) as (days & local & Hterm & H1 & H3 & H12).
  specialize (Hoff local).
  assert (28 ≤ days) as Hdays.
  { destruct (plan_expiry_months _ _ _ _ Hexp) as [Hp|[Hp|Hp]];
      [specialize (H1 Hp)|specialize (H3 Hp)|specialize (H12 Hp)]; lia. }
  unfold msPerDay in *. lia.
Qed.

Lemma plan_expiry_days (LocalTZA now : Z) (plan : string) (expiry : Z) :
  plan_expiry (fixed_offset LocalTZA) now plan = Some expiry →
  now < expiry
  ∧ ∃ days, expiry - now = days * msPerDay
            ∧ (plan = "monthly" → 28 ≤ days ≤ 31)
            ∧ (plan = "quarterly" → 89 ≤ days ≤ 92)
            ∧ (plan = "yearly" → 365 ≤ days ≤ 366).
Proof.
  intros Hexp. split.
  { apply (plan_expiry_future _ _ _ _ Hexp). intros t.
    unfold fixed_offset, msPerDay. lia. }
  destruct (plan_expiry_term _ _ _ _ Hexp) as (days & local & Hterm & Hplan).
  exists days. split; [|done]. unfold fixed_offset in Hterm. lia.
Qed.

(** X2.  In a zone with a fixed offset, the expiry that subscribe computes
    lies a whole number of days after the call: 28 to 31 days for the
    monthly plan, 89 to 92 for the quarterly plan, 365 or 366 for the yearly
    plan.  In particular it lies in the future. *)
Theorem subscription_term_in_days (LocalTZA now : Z) (plan : string) (expiry : Z) :
  plan_expiry (fixed_offset LocalTZA) now plan = Some expiry →
  now < expiry
  ∧ ∃ days, expiry - now = days * msPerDay
            ∧ (plan = "monthly" → 28 ≤ days ≤ 31)
            ∧ (plan = "quarterly" → 89 ≤ days ≤ 92)
            ∧ (plan = "yearly" → 365 ≤ days ≤ 366).
Proof. apply plan_expiry_days. Qed.

Lemma subscription_term_in_days_witness :
  plan_expiry (fixed_offset 0) 1706702400000 "monthly" = Some 1709380800000
  ∧ 1706702400000 < 1709380800000.
Proof.
  split; [vm_compute; reflexivity|].
  apply (subscription_term_in_days 0 1706702400000 "monthly" 1709380800000).
  vm_compute. reflexivity.
Defined.

(** ** subscribe, then evaluate *)

Lemma post_api_user_subscribe_up
    (tza : Z → bool → Z) (now : Z) (userId plan : string) (expiry : Z) (w : World) :
  outages w = [] → userId ≠ "" → plan_expiry tza now plan = Some expiry →
  post_api_user_subscribe tza now userId plan w =
    (Return {| res_status := 200;
               res_json := SubscriptionSuccessful userId plan expiry |},
     write_user userId (subscribed_record now plan expiry (users w !! userId))
       (match users w !! userId with
        | None => WSetUser userId (subscribed_record now plan expiry None)
        | Some _ => WUpdateUser userId (PatchSubscription plan (Some expiry))
        end) w).
Proof.
  intros Hup Hid Hexp.
  assert (plan ≠ "") as Hplan.
  { intros ->. unfold plan_expiry in Hexp. by repeat case_decide. }
  unfold post_api_user_subscribe. rewrite decide_False by tauto. munfold.
  rewrite getDoc_up, Hexp by done.
  destruct (users w !! userId) as [d|] eqn:Hd.
  - by rewrite (updateDoc_up _ _ _ d).
  - by rewrite setDoc_up.
Qed.

Lemma plan_expiry_paid (tza : Z → bool → Z) (now : Z) (plan : string) (expiry : Z) :
  plan_expiry tza now plan = Some expiry → plan ≠ "free".
Proof. intros Hexp ->. unfold plan_expiry in Hexp. by repeat case_decide. Qed.

(** X3.  After a successful subscribe, in any time zone, checkUserUsage at
    any time before the new expiry allows generation, reports 0 free
    generations and the plan, and writes nothing.  The time of the subscribe
    call is such a time in a zone with a fixed offset, and in every zone
    whose offsets differ by less than four weeks. *)
Theorem subscribe_then_evaluate
    (LocalTZA : Z → bool → Z) (now : Z) (userId plan : string) (expiry : Z) (w : World) :
  outages w = [] → userId ≠ "" →
  plan_expiry LocalTZA now plan = Some expiry →
  ((∀ t, LocalTZA t false - LocalTZA now true < 28 * msPerDay) → now < expiry)
  ∧ ∀ now', now' < expiry →
      checkUserUsage now' userId (post_api_user_subscribe LocalTZA now userId plan w).2 =
        (Return {| canGenerate := true; remainingFree := 0; subscriptionStatus := plan |},
         (post_api_user_subscribe LocalTZA now userId plan w).2).
Proof.
  intros Hup Hid Hexp.
  split; [by apply (plan_expiry_future LocalTZA now plan expiry)|].
  intros now' Hlt.
  rewrite (post_api_user_subscribe_up _ _ _ _ expiry) by done. cbn [snd].
  rewrite (checkUserUsage_existing now' userId _
             (subscribed_record now plan expiry (users w !! userId))).
  - assert (subscription_status
              (subscribed_record now plan expiry (users w !! userId)) = plan) as Hst
      by by destruct (users w !! userId).
    assert (expiry_after now'
              (subscribed_record now plan expiry (users w !! userId)) = true) as Hact.
    { unfold expiry_after.
      replace (subscription_expiry
                 (subscribed_record now plan expiry (users w !! userId)))
        with (Some expiry) by by destruct (users w !! userId).
      by apply bool_decide_eq_true_2. }
    rewrite Hst, Hact, decide_True; [done|]. by eapply plan_expiry_paid.
  - done.
  - cbn. by rewrite lookup_insert_eq.
Qed.

Lemma subscribe_then_evaluate_witness :
  outages store_ada = [] ∧ "ada" ≠ ""
  ∧ plan_expiry (fixed_offset 0) 1706702400000 "monthly" = Some 1709380800000
  ∧ 1706702400000 < 1709380800000.
Proof.
  split; [reflexivity|]. split; [discriminate|].
  split; [vm_compute; reflexivity|].
  apply (subscribe_then_evaluate (fixed_offset 0) 1706702400000 "ada" "monthly"
           1709380800000 store_ada).
  - reflexivity.
  - discriminate.
  - vm_compute. reflexivity.
  - intros t. vm_compute. reflexivity.
Defined.

(** X4.  A user whose first contact is the subscribe endpoint has no free
    quota to fall back on: once the expiry has passed, checkUserUsage
    rewrites the record to free and denies generation. *)
Theorem direct_subscriber_is_denied_after_expiry
    (LocalTZA : Z → bool → Z) (now now' : Z) (userId plan : string) (expiry : Z)
    (w : World) :
  outages w = [] → userId ≠ "" →
  users w !! userId = None →
  plan_expiry LocalTZA now plan = Some expiry →
  expiry ≤ now' →
  (checkUserUsage now' userId (post_api_user_subscribe LocalTZA now userId plan w).2).1 =
    Return {| canGenerate := false; remainingFree := 0; subscriptionStatus := "free" |}
  ∧ users (checkUserUsage now' userId
             (post_api_user_subscribe LocalTZA now userId plan w).2).2 !! userId =
      Some {| user_id := None;
              free_generations_remaining := 0;
              subscription_status := "free";
              subscription_expiry := None;
              created_at := now |}.
Proof.
  intros Hup Hid Hnone Hexp Hlate.
  rewrite (post_api_user_subscribe_up _ _ _ _ expiry) by done. cbn [snd].
  rewrite Hnone.
  rewrite (checkUserUsage_existing now' userId _ (subscribed_record now plan expiry None)).
  - cbn [subscribed_record subscription_status].
    rewrite decide_True by by eapply plan_expiry_paid.
    unfold expiry_after. cbn [subscribed_record subscription_expiry].
    rewrite bool_decide_eq_false_2 by lia.
    cbn. split; [done|]. by rewrite lookup_insert_eq.
  - done.
  - cbn. by rewrite lookup_insert_eq.
Qed.

Lemma direct_subscriber_is_denied_after_expiry_witness :
  outages empty_store = [] ∧ "eve" ≠ ""
  ∧ users empty_store !! "eve" = None
  ∧ plan_expiry (fixed_offset 0) 1706702400000 "monthly" = Some 1709380800000
  ∧ (checkUserUsage 1709380800000 "eve"
       (post_api_user_subscribe (fixed_offset 0) 1706702400000 "eve" "monthly"
          empty_store).2).1 =
      Return {| canGenerate := false; remainingFree := 0; subscriptionStatus := "free" |}.
Proof.
  split; [reflexivity|]. split; [discriminate|]. split; [reflexivity|].
  split; [vm_compute; reflexivity|].
  apply (direct_subscriber_is_denied_after_expiry (fixed_offset 0) 1706702400000
           1709380800000
           "eve" "monthly" 1709380800000 empty_store).
  - reflexivity.
  - discriminate.
  - reflexivity.
  - vm_compute. reflexivity.
  - lia.
Defined.

(** ** The subscription-info endpoint on existing records *)

Lemma get_api_user_subscription_existing
    (now : Z) (userId : string) (w : World) (d : UserDoc) :
  outages w = [] → users w !! userId = Some d →
  get_api_user_subscription now userId w =
    if bool_decide (subscription_status d ≠ "free") && expiry_before now d then
      (Return {| res_status := 200;
                 res_json := SubscriptionInfo userId (free_generations_remaining d)
                               "free" None |},
       write_user userId (normalized d)
         (WUpdateUser userId (PatchSubscription "free" None)) w)
    else
      (Return {| res_status := 200;
                 res_json := SubscriptionInfo userId (free_generations_remaining d)
                               (or_free (subscription_status d))
                               (subscription_expiry d) |}, w).
Proof.
  intros Hup Hd. unfold get_api_user_subscription. munfold.
  rewrite getDoc_up, Hd by done.
  destruct (bool_decide (subscription_status d ≠ "free") && expiry_before now d).
  - rewrite (updateDoc_up _ _ _ d) by done. cbn. by rewrite or_zero_id.
  - cbn. by rewrite or_zero_id.
Qed.

(** X5.  On the record of a subscriber the subscription-info endpoint
    normalises exactly when the expiry lies strictly before the call: then
    it rewrites the record to free without expiry, keeps the counter and
    reports free; when the expiry is the time of the call or later it
    reports the record as stored and writes nothing. *)
Theorem subscription_info_normalizes_after_expiry
    (now : Z) (userId : string) (w : World) (d : UserDoc) (expiry : Z) :
  outages w = [] →
  users w !! userId = Some d →
  subscription_status d ≠ "free" →
  subscription_status d ≠ "" →
  subscription_expiry d = Some expiry →
  (expiry < now →
     (get_api_user_subscription now userId w).1 =
       Return {| res_status := 200;
                 res_json := SubscriptionInfo userId (free_generations_remaining d)
                               "free" None |}
     ∧ users (get_api_user_subscription now userId w).2 !! userId =
         Some {| user_id := user_id d;
                 free_generations_remaining := free_generations_remaining d;
                 subscription_status := "free";
                 subscription_expiry := None;
                 created_at := created_at d |})
  ∧ (now ≤ expiry →
     get_api_user_subscription now userId w =
       (Return {| res_status := 200;
                  res_json := SubscriptionInfo userId (free_generations_remaining d)
                                (subscription_status d) (Some expiry) |}, w)).
Proof.
  intros Hup Hd Hst Hne Hexp.
  rewrite (get_api_user_subscription_existing now userId w d) by done.
  rewrite bool_decide_eq_true_2 by done. unfold expiry_before. rewrite Hexp.
  cbn [andb]. split.
  - intros Hlt. rewrite bool_decide_eq_true_2 by done. cbn.
    split; [done|]. by rewrite lookup_insert_eq.
  - intros Hle. rewrite bool_decide_eq_false_2 by lia.
    by rewrite or_free_nonempty.
Qed.

Lemma subscription_info_normalizes_after_expiry_witness :
  outages (store_bob "yearly" (Some 500) 7) = []
  ∧ users (store_bob "yearly" (Some 500) 7) !! "bob" = Some (subscriber "yearly" (Some 500) 7)
  ∧ get_api_user_subscription 500 "bob" (store_bob "yearly" (Some 500) 7) =
      (Return {| res_status := 200;
                 res_json := SubscriptionInfo "bob" 7 "yearly" (Some 500) |},
       store_bob "yearly" (Some 500) 7).
Proof.
  split; [reflexivity|]. split; [reflexivity|].
  apply (subscription_info_normalizes_after_expiry 500 "bob"
           (store_bob "yearly" (Some 500) 7) (subscriber "yearly" (Some 500) 7) 500).
  - reflexivity.
  - reflexivity.
  - discriminate.
  - discriminate.
  - reflexivity.
  - lia.
Defined.





(** ** Invariants of the users collection *)

Lemma all_records_same_store P w w' :
  same_store w w' → all_records P w → all_records P w'.
Proof. intros (Hu & _) Hall id d. rewrite Hu. apply Hall. Qed.

Lemma all_records_user_written P userId d ev w w' :
  user_written userId d ev w w' → P d → all_records P w → all_records P w'.
Proof.
  intros (Hu & _) Hd Hall id d'. rewrite Hu.
  destruct (decide (id = userId)) as [->|Hne].
  - rewrite lookup_insert_eq. by intros [= <-].
  - rewrite lookup_insert_ne by done. apply Hall.
Qed.

Lemma all_records_evaluate_step P now userId w w' o :
  kept_by_writes P → evaluate_step now userId w w' o →
  all_records P w → all_records P w'.
Proof.
  intros (Hnew & Hnorm & _ & _) Hstep Hall.
  inversion Hstep as [Hs|Hnone Hw|d0 Hd0 Hst0 Hexp0 Hs|d0 Hd0 Hst0 Hexp0 Hw|d0 Hd0 Hst0 Hs];
    subst.
  - by eapply all_records_same_store.
  - eapply all_records_user_written; [done|apply Hnew|done].
  - by eapply all_records_same_store.
  - eapply all_records_user_written; [done| |done]. apply Hnorm; [by eapply Hall|done].
  - by eapply all_records_same_store.
Qed.

Lemma all_records_request_step P r w w' resp :
  kept_by_writes P → request_step r w w' resp →
  all_records P w → all_records P w'.
Proof.
  intros HP Hstep Hall.
  inversion Hstep as [? Hst Hs|w1 ? ? Hev Hs Hst|w1 u Hev _ Hs|w1 u ? Hev _ Hs Hst
                      |w1 w2 u a n ? Hev _ _ _ Hart Hch]; subst.
  - by eapply all_records_same_store.
  - eapply all_records_same_store; [done|]. by eapply all_records_evaluate_step.
  - eapply all_records_same_store; [done|]. by eapply all_records_evaluate_step.
  - eapply all_records_same_store; [done|]. by eapply all_records_evaluate_step.
  - assert (all_records P w2) as Hall2.
    { intros id d. destruct Hart as (-> & _).
      by eapply (all_records_evaluate_step P _ _ w w1). }
    inversion Hch as [? Hfree Hcons|Hpaid Hs]; subst;
      [|by eapply all_records_same_store].
    inversion Hcons as [Hs|d1 Hd1 Hc Hw]; subst;
      [by eapply all_records_same_store|].
    eapply all_records_user_written; [done| |done].
    destruct HP as (_ & _ & Hcharge & _). apply Hcharge; [by eapply Hall2|done].
Qed.

Lemma all_records_run_operation P tza op w :
  kept_by_writes P → all_records P w →
  all_records P (run_operation tza op w).2.
Proof.
  intros HP Hall. destruct op as [r|now userId down|now userId plan down];
    cbn [run_operation].
  - destruct (serve_step r w) as (resp & _ & Hstep).
    by eapply all_records_request_step.
  - assert (all_records P (set_outages down w)) as Hall0
      by (eapply all_records_same_store; [apply same_store_set_outages|done]).
    destruct (get_api_user_subscription_step now userId (set_outages down w))
      as [Hs|[(Hnone & Hw)|(d & Hd & Hst & Hexp & Hw)]].
    + by eapply all_records_same_store.
    + eapply all_records_user_written; [done| |done]. by destruct HP as (Hnew & _).
    + eapply all_records_user_written; [done| |done].
      destruct HP as (_ & Hnorm & _). apply Hnorm; [by eapply Hall0|done].
  - assert (all_records P (set_outages down w)) as Hall0
      by (eapply all_records_same_store; [apply same_store_set_outages|done]).
    destruct (post_api_user_subscribe_step tza now userId plan (set_outages down w))
      as [Hs|(expiry & ev & Hexp & Hw & _)].
    + by eapply all_records_same_store.
    + eapply all_records_user_written; [done| |done].
      destruct HP as (_ & _ & _ & Hsub). eapply Hsub; [done|].
      intros d Hd. by eapply Hall0.
Qed.

Lemma all_records_run_operations P tza ops w :
  kept_by_writes P → all_records P w →
  all_records P (run_operations tza ops w).
Proof.
  intros HP. revert w. induction ops as [|op ops IH]; intros w Hall; cbn; [done|].
  apply IH. by apply all_records_run_operation.
Qed.

Lemma all_records_empty P : all_records P empty_store.
Proof. intros id d. cbn. by rewrite lookup_empty. Qed.

Lemma plan_expiry_plan_months tza now plan expiry :
  plan_expiry tza now plan = Some expiry → is_Some (plan_months plan).
Proof.
  unfold plan_expiry, plan_months. intros H. repeat case_decide; try done; by eexists.
Qed.

(** X8.  The free counter of every record stays between 0 and 10 under any
    sequence of generation, subscription-info and subscribe requests, with
    any replies of the external services and any outages of Firestore. *)
Theorem counters_stay_in_range
    (LocalTZA : Z → bool → Z) (ops : list Operation) (w : World) :
  all_records counter_in_range w →
  all_records counter_in_range (run_operations LocalTZA ops w).
Proof.
  apply all_records_run_operations. unfold counter_in_range. split_and!.
  - intros. cbn. lia.
  - intros d Hd _. by cbn.
  - intros d Hd (_ & Hpos). cbn. lia.
  - intros tza now plan expiry [d|] _ Hold; cbn; [by apply Hold|lia].
Qed.

Lemma counters_stay_in_range_witness :
  all_records counter_in_range empty_store
  ∧ all_records counter_in_range
      (run_operations (fixed_offset 0)
         [OpSubscribe 1706702400000 "eve" "monthly" [];
          OpGenerate (CreateContent 2000 "abc123" ModelRejects body_ada [])]
         empty_store).
Proof.
  split; [apply all_records_empty|].
  apply (counters_stay_in_range (fixed_offset 0) _ empty_store). apply all_records_empty.
Defined.

(** X9.  Status and expiry stay consistent under any sequence of requests:
    a record is either free without expiry, or it carries one of the plans
    monthly, quarterly, yearly together with an expiry.  In particular the
    code never produces a paid record without expiry. *)
Theorem status_stays_consistent
    (LocalTZA : Z → bool → Z) (ops : list Operation) (w : World) :
  all_records status_consistent w →
  all_records status_consistent (run_operations LocalTZA ops w).
Proof.
  apply all_records_run_operations. unfold status_consistent. split_and!.
  - intros. by left.
  - intros. by left.
  - intros d Hd _. by cbn.
  - intros tza now plan expiry old Hexp _. right.
    split; [|by destruct old; eexists].
    replace (subscription_status (subscribed_record now plan expiry old)) with plan
      by by destruct old.
    by eapply plan_expiry_plan_months.
Qed.

Lemma status_stays_consistent_witness :
  all_records status_consistent empty_store
  ∧ all_records status_consistent
      (run_operations (fixed_offset 0)
         [OpSubscribe 1706702400000 "eve" "monthly" [];
          OpSubscriptionInfo 1709380800001 "eve" []]
         empty_store).
Proof.
  split; [apply all_records_empty|].
  apply (status_stays_consistent (fixed_offset 0) _ empty_store). apply all_records_empty.
Defined.

(** ** What one generation request can do to the users collection *)

Lemma evaluate_step_frame now userId w w' o :
  evaluate_step now userId w w' o →
  (∀ id, id ≠ userId → users w' !! id = users w !! id)
  ∧ (∀ d, users w !! userId = Some d →
       ∃ d', users w' !! userId = Some d'
             ∧ free_generations_remaining d' = free_generations_remaining d
             ∧ user_id d' = user_id d ∧ created_at d' = created_at d).
Proof.
  intros Hstep.
  inversion Hstep as [Hs|Hnone Hw|d0 Hd0 Hst0 Hexp0 Hs|d0 Hd0 Hst0 Hexp0 Hw|d0 Hd0 Hst0 Hs];
    subst.
  - destruct Hs as (Hu & _). rewrite Hu. split; [done|]. intros d Hd. by exists d.
  - destruct Hw as (Hu & _). rewrite Hu. split.
    + intros id Hne. by rewrite lookup_insert_ne.
    + intros d Hd. congruence.
  - destruct Hs as (Hu & _). rewrite Hu. split; [done|]. intros d Hd. by exists d.
  - destruct Hw as (Hu & _). rewrite Hu. split.
    + intros id Hne. by rewrite lookup_insert_ne.
    + intros d Hd. rewrite lookup_insert_eq. eexists. split; [done|].
      assert (d0 = d) as -> by congruence. done.
  - destruct Hs as (Hu & _). rewrite Hu. split; [done|]. intros d Hd. by exists d.
Qed.

Lemma charge_step_frame u userId w w' n :
  charge_step u userId w w' n →
  (∀ id, id ≠ userId → users w' !! id = users w !! id)
  ∧ (∀ d, users w !! userId = Some d →
       ∃ d', users w' !! userId = Some d' ∧ charged_at_most_once d d').
Proof.
  intros Hch.
  assert (∀ d, charged_at_most_once d d) as Hrefl.
  { intros d. unfold charged_at_most_once. split_and!; [lia|lia|done|done]. }
  inversion Hch as [? Hfree Hcons|Hpaid Hs]; subst.
  - inversion Hcons as [Hs|d1 Hd1 Hc Hw]; subst.
    + destruct Hs as (Hu & _). rewrite Hu. split; [done|]. intros d Hd. by exists d.
    + destruct Hw as (Hu & _). rewrite Hu. split.
      * intros id Hne. by rewrite lookup_insert_ne.
      * intros d Hd. rewrite lookup_insert_eq. eexists. split; [done|].
        assert (d1 = d) as -> by congruence.
        unfold charged_at_most_once. cbn. split_and!; [lia|lia|done|done].
  - destruct Hs as (Hu & _). rewrite Hu. split; [done|]. intros d Hd. by exists d.
Qed.

Lemma request_step_frame r w w' resp :
  request_step r w w' resp →
  (∀ id, id ≠ request_user r → users w' !! id = users w !! id)
  ∧ (∀ d, users w !! request_user r = Some d →
       ∃ d', users w' !! request_user r = Some d' ∧ charged_at_most_once d d').
Proof.
  intros Hstep.
  assert (∀ w1 o, evaluate_step (request_time r) (request_user r) w w1 o →
                  same_store w1 w' →
                  (∀ id, id ≠ request_user r → users w' !! id = users w !! id)
                  ∧ (∀ d, users w !! request_user r = Some d →
                       ∃ d', users w' !! request_user r = Some d'
                             ∧ charged_at_most_once d d')) as Hev.
  { intros w1 o Hev (Hu & _). rewrite Hu.
    destruct (evaluate_step_frame _ _ _ _ _ Hev) as (Hframe & Hown).
    split; [done|]. intros d Hd. destruct (Hown d Hd) as (d' & Hd' & Hc & Hi & Ht).
    exists d'. split; [done|]. unfold charged_at_most_once. split_and!; [lia|lia|done|done]. }
  inversion Hstep as [? Hst Hs|w1 ? ? Hev1 Hs Hst|w1 u Hev1 _ Hs|w1 u ? Hev1 _ Hs Hst
                      |w1 w2 u a n ? Hev1 _ _ _ Hart Hch]; subst.
  - destruct Hs as (Hu & _). rewrite Hu. split; [done|]. intros d Hd. exists d.
    split; [done|]. unfold charged_at_most_once. split_and!; [lia|lia|done|done].
  - by eapply Hev.
  - by eapply Hev.
  - by eapply Hev.
  - destruct (evaluate_step_frame _ _ _ _ _ Hev1) as (Hframe1 & Hown1).
    destruct (charge_step_frame _ _ _ _ _ Hch) as (Hframe2 & Hown2).
    destruct Hart as (Hu2 & _). rewrite Hu2 in *. split.
    + intros id Hne. rewrite Hframe2 by done. by apply Hframe1.
    + intros d Hd. destruct (Hown1 d Hd) as (d1 & Hd1 & Hc1 & Hi1 & Ht1).
      destruct (Hown2 d1 Hd1) as (d2 & Hd2 & Hc2 & Hi2 & Ht2).
      exists d2. split; [done|]. unfold charged_at_most_once in *.
      split_and!; [lia|lia|congruence|congruence].
Qed.

(** X10.  A generation-gated request, whatever its outcome, leaves the
    records of all other users as they are; the record of its own user, if
    there was one, is still there with the same identity and creation time
    and a counter that is the same or one less. *)
Theorem request_charges_only_its_user_once (r : GenerationRequest) (w : World) :
  (∀ id, id ≠ request_user r → users (serve r w).2 !! id = users w !! id)
  ∧ (∀ d, users w !! request_user r = Some d →
       ∃ d', users (serve r w).2 !! request_user r = Some d'
             ∧ charged_at_most_once d d').
Proof.
  destruct (serve_step r w) as (resp & _ & Hstep). by eapply request_step_frame.
Qed.

(** X11.  A free user without generations left is never served: whatever
    the request, the replies and the outages, nothing is written to the
    store, the answer is 400, 403 or 500, and a 403 reports status free with
    0 remaining. *)
Theorem exhausted_user_is_never_served
    (r : GenerationRequest) (w : World) (d : UserDoc) :
  users w !! request_user r = Some d →
  subscription_status d = "free" →
  free_generations_remaining d ≤ 0 →
  same_store w (serve r w).2
  ∧ ∃ resp, (serve r w).1 = Return resp
            ∧ (res_status resp = 400
               ∨ res_status resp = 500
               ∨ resp = {| res_status := 403; res_json := LimitReached "free" 0 |}).
Proof.
  intros Hd Hfree Hzero.
  destruct (serve_step r w) as (resp & Hresp & Hstep).
  assert (∀ w1 u, evaluate_step (request_time r) (request_user r) w w1 (Return u) →
                  same_store w w1
                  ∧ u = {| canGenerate := false; remainingFree := 0;
                           subscriptionStatus := "free" |}) as Hev.
  { intros w1 u Hev.
    inversion Hev as [|Hnone Hw|d0 Hd0 Hst0 Hexp0 Hs|d0 Hd0 Hst0 Hexp0 Hw|d0 Hd0 Hst0 Hs];
      subst; try congruence.
    assert (d0 = d) as -> by congruence. split; [done|].
    unfold free_tier. by rewrite decide_False by lia. }
  assert (∀ w1 e, evaluate_step (request_time r) (request_user r) w w1 (Throw e) →
                  same_store w w1) as Hthrow.
  { intros w1 e Hev1. by inversion Hev1. }
  inversion Hstep as [? Hst Hs|w1 ? ? Hev1 Hs Hst|w1 u Hev1 Hcan Hs|w1 u ? Hev1 Hcan Hs Hst
                      |w1 w2 u a n ? Hev1 Hcan _ _ Hart Hch]; subst.
  - split; [done|]. exists resp. split; [done|by left].
  - split; [eapply same_store_trans; [by eapply Hthrow|done]|].
    exists resp. split; [done|]. right. by left.
  - destruct (Hev _ _ Hev1) as (Hs1 & ->).
    split; [by eapply same_store_trans|]. eexists. split; [done|]. right. by right.
  - destruct (Hev _ _ Hev1) as (_ & ->). done.
  - destruct (Hev _ _ Hev1) as (_ & ->). done.
Qed.

Lemma exhausted_user_is_never_served_witness :
  users store_ada_exhausted
    !! request_user (CreateContent 2000 "abc123" reply_one_question body_ada [])
    = Some (apply_patch (PatchFree 0) (new_profile "ada" 1000))
  ∧ same_store store_ada_exhausted
      (serve (CreateContent 2000 "abc123" reply_one_question body_ada [])
         store_ada_exhausted).2.
Proof.
  split; [reflexivity|].
  apply (exhausted_user_is_never_served
           (CreateContent 2000 "abc123" reply_one_question body_ada [])
           store_ada_exhausted (apply_patch (PatchFree 0) (new_profile "ada" 1000))).
  - reflexivity.
  - reflexivity.
  - cbn. lia.
Defined.

(** ** Stored artifacts *)

Lemma evaluate_step_artifacts now userId w w' o :
  evaluate_step now userId w w' o →
  quizzes w' = quizzes w ∧ mock_tests w' = mock_tests w.
Proof.
  intros Hstep.
  inversion Hstep as [Hs|_ Hw|? _ _ _ Hs|? _ _ _ Hw|? _ _ Hs];
    first [by destruct Hs as (_&?&?&_) | by destruct Hw as (_&?&?&_)].
Qed.

Lemma charge_step_artifacts u userId w w' n :
  charge_step u userId w w' n →
  quizzes w' = quizzes w ∧ mock_tests w' = mock_tests w.
Proof.
  intros Hch. inversion Hch as [? _ Hcons|_ Hs]; subst.
  - inversion Hcons as [Hs|? _ _ Hw]; subst;
      first [by destruct Hs as (_&?&?&_) | by destruct Hw as (_&?&?&_)].
  - by destruct Hs as (_&?&?&_).
Qed.

(** What a request adds to the artifact collections: nothing, or the one
    validated artifact of a 201. *)
Lemma request_step_artifacts r w w' resp :
  request_step r w w' resp →
  (res_status resp ≠ 201
   ∧ quizzes w' = quizzes w ∧ mock_tests w' = mock_tests w)
  ∨ (res_status resp = 201
     ∧ ∃ a, validated r a ∧ artifact_user a = request_user r
            ∧ quizzes w' = quizzes w ++ match a with QuizArtifact q => [q] | _ => [] end
            ∧ mock_tests w' =
                mock_tests w ++ match a with MockTestArtifact m => [m] | _ => [] end).
Proof.
  intros Hstep.
  inversion Hstep as [? Hst Hs|w1 ? ? Hev Hs Hst|w1 u Hev _ Hs|w1 u ? Hev _ Hs Hst
                      |w1 w2 u a n ? Hev _ Hval Huser Hart Hch Hst]; subst.
  - left. destruct Hs as (_&?&?&_). split_and!; [lia|done|done].
  - left. destruct Hs as (_&->&->&_).
    destruct (evaluate_step_artifacts _ _ _ _ _ Hev). split_and!; [lia|done|done].
  - left. destruct Hs as (_&->&->&_).
    destruct (evaluate_step_artifacts _ _ _ _ _ Hev). split_and!; [done|done|done].
  - left. destruct Hs as (_&->&->&_).
    destruct (evaluate_step_artifacts _ _ _ _ _ Hev). split_and!; [lia|done|done].
  - right. split; [done|]. exists a.
    destruct (evaluate_step_artifacts _ _ _ _ _ Hev) as (Hq1 & Hm1).
    destruct (charge_step_artifacts _ _ _ _ _ Hch) as (Hq2 & Hm2).
    destruct Hart as (_ & Hq & Hm & _).
    split_and!; [done|done|congruence|congruence].
Qed.

(** X13.  Stored artifacts are append-only: after any sequence of
    generation requests the quizzes and mock tests that were stored before
    are still there, unchanged and in place; what was added is at most one
    artifact per request, each owned by the user of one of the requests. *)
Theorem artifacts_are_append_only (rs : list GenerationRequest) (w : World) :
  ∃ new_quizzes new_mock_tests,
    quizzes (serve_all rs w) = quizzes w ++ new_quizzes
    ∧ mock_tests (serve_all rs w) = mock_tests w ++ new_mock_tests
    ∧ (length new_quizzes + length new_mock_tests ≤ length rs)%nat
    ∧ Forall (λ q, ∃ r, r ∈ rs ∧ quiz_user_id q = request_user r) new_quizzes
    ∧ Forall (λ m, ∃ r, r ∈ rs ∧ mt_user_id m = request_user r) new_mock_tests.
Proof.
  revert w. induction rs as [|r rs IH]; intros w; cbn [serve_all].
  - exists [], []. rewrite !app_nil_r. split_and!; try done; cbn; lia.
  - destruct (IH (serve r w).2) as (nq & nm & Hq & Hm & Hlen & Hfq & Hfm).
    assert (Forall (λ q, ∃ r0, r0 ∈ r :: rs ∧ quiz_user_id q = request_user r0) nq) as Hfq'.
    { eapply Forall_impl; [done|]. intros q (r0 & ? & ?). exists r0. split; [by right|done]. }
    assert (Forall (λ m, ∃ r0, r0 ∈ r :: rs ∧ mt_user_id m = request_user r0) nm) as Hfm'.
    { eapply Forall_impl; [done|]. intros m (r0 & ? & ?). exists r0. split; [by right|done]. }
    destruct (serve_step r w) as (resp & _ & Hstep).
    destruct (request_step_artifacts _ _ _ _ Hstep)
      as [(_ & Hq1 & Hm1)|(_ & a & _ & Huser & Hq1 & Hm1)].
    + exists nq, nm. rewrite Hq, Hm, Hq1, Hm1. split_and!; try done. cbn. lia.
    + destruct a as [q|m]; cbn in Huser.
      * exists (q :: nq), nm. rewrite Hq, Hm, Hq1, Hm1, app_nil_r, <- app_assoc.
        split_and!; try done; [cbn in *; lia|].
        constructor; [|done]. exists r. split; [by left|done].
      * exists nq, (m :: nm). rewrite Hq, Hm, Hq1, Hm1, app_nil_r, <- app_assoc.
        split_and!; try done; [rewrite length_cons; cbn in *; lia|].
        constructor; [|done]. exists r. split; [by left|done].
Qed.

Lemma generateContent_without_flashcards reply content :
  (∀ w, generateContent reply false w = (Return content, w)) →
  c_flashcards content = JArr [].
Proof.
  intros Hc. specialize (Hc empty_store). revert Hc.
  unfold generateContent. munfold.
  destruct (model_reply_json reply) as [c|e]; [|by intros [= <-]].
  destruct (get_prop (Some c) "questions") as [qs|e]; by intros [= <-].
Qed.

(** X17.  Unless the request carries [include_flashcards] as the boolean
    [true] (a missing field counting as [true] for an upload), the quiz it
    stores has no flashcards, whatever the model returned. *)
Theorem no_flashcards_unless_requested (r : GenerationRequest) (w : World) :
  request_include_flashcards r = false →
  quizzes (serve r w).2 = quizzes w
  ∨ ∃ q, quizzes (serve r w).2 = quizzes w ++ [q] ∧ flashcards q = [].
Proof.
  intros Hinc. destruct (serve_step r w) as (resp & _ & Hstep).
  destruct (request_step_artifacts _ _ _ _ Hstep)
    as [(_ & Hq1 & _)|(_ & a & Hval & _ & Hq1 & _)]; [by left|].
  destruct a as [q|m]; [|left; by rewrite Hq1, app_nil_r].
  right. exists q. split; [done|].
  assert (quiz_validated (request_reply r) false q) as (content & Hc & _ & Hfs).
  { destruct r; cbn in Hval, Hinc; [by rewrite Hinc in Hval|by rewrite Hinc in Hval|done]. }
  rewrite (generateContent_without_flashcards _ _ Hc) in Hfs.
  change (Return [] = Return (flashcards q)) in Hfs. congruence.
Qed.

Lemma no_flashcards_unless_requested_witness :
  request_include_flashcards
    (CreateContent 2000 "abc123" reply_one_question
       {| cc_text := "Cells divide."; cc_question_type := "mix";
          cc_include_flashcards := Some (JStr "true");
          cc_content_name := "Biology"; cc_user_id := "ada" |} []) = false
  ∧ (quizzes (serve (CreateContent 2000 "abc123" reply_one_question
                       {| cc_text := "Cells divide."; cc_question_type := "mix";
                          cc_include_flashcards := Some (JStr "true");
                          cc_content_name := "Biology"; cc_user_id := "ada" |} [])
                store_ada).2 = quizzes store_ada
     ∨ ∃ q, quizzes (serve (CreateContent 2000 "abc123" reply_one_question
                              {| cc_text := "Cells divide."; cc_question_type := "mix";
                                 cc_include_flashcards := Some (JStr "true");
                                 cc_content_name := "Biology"; cc_user_id := "ada" |} [])
                       store_ada).2 = quizzes store_ada ++ [q]
            ∧ flashcards q = []).
Proof.
  split; [reflexivity|].
  apply (no_flashcards_unless_requested _ store_ada). reflexivity.
Defined.

(** ** The 201 answer in detail *)

Lemma persist_and_charge_created (u : UsageStatus) (userId : string) (a : Artifact)
    (persist : M unit) (respond : Z → Response) (on_error : Exn → Response)
    (w1 : World) (resp : Response) :
  persists a persist →
  (∀ e, res_status (on_error e) ≠ 201) →
  (match (persist ≫= λ _,
            charge u userId ≫= λ remainingFree, mret (respond remainingFree)) w1
   with
   | (Return x, w') => (Return x, w')
   | (Throw e, w') => (Return (on_error e), w')
   end).1 = Return resp →
  res_status resp = 201 →
  ∃ w2 n,
    artifact_written a w1 w2
    ∧ charge_step u userId w2
        (match (persist ≫= λ _,
                  charge u userId ≫= λ remainingFree, mret (respond remainingFree)) w1
         with
         | (Return x, w') => (Return x, w')
         | (Throw e, w') => (Return (on_error e), w')
         end).2 n
    ∧ resp = respond n.
Proof.
  intros Hpersist Herr. munfold.
  destruct (Hpersist w1) as (w2 & [[E Hw]|[E Hs2]]); rewrite E.
  - destruct (charge_run u userId w2) as (n & Hn & Hch).
    destruct (charge u userId w2) as [[n'|e] w3]; cbn in Hn, Hch; [|done].
    injection Hn as ->. cbn. intros [= <-] _. by exists w2, n.
  - cbn. intros [= <-] Hst. by destruct (Herr FirestoreError).
Qed.

Lemma post_api_create_content_created now quizId reply body down w resp :
  (serve (CreateContent now quizId reply body down) w).1 = Return resp →
  res_status resp = 201 →
  ∃ u n w1 w2 a,
    evaluate_step now (cc_user_id body) w w1 (Return u)
    ∧ canGenerate u = true
    ∧ artifact_written a w1 w2
    ∧ charge_step u (cc_user_id body) w2
        (serve (CreateContent now quizId reply body down) w).2 n
    ∧ stored_as (CreateContent now quizId reply body down) a
    ∧ resp = created_response a u n.
Proof.
  cbn [serve]. unfold post_api_create_content.
  pose proof (same_store_set_outages down w) as Hs0.
  set (w0 := set_outages down w) in *.
  case_decide; [by intros [= <-]|].
  munfold.
  pose proof (checkUserUsage_step now (cc_user_id body) w0) as Hev.
  apply (evaluate_step_from _ _ w) in Hev; [|done].
  destruct (checkUserUsage now (cc_user_id body) w0) as [[u|e] w1]; cbn in Hev;
    [|by intros [= <-]].
  destruct (canGenerate u) eqn:Hcan; cbn [negb]; [|by intros [= <-]].
  destruct (generateContent_returns reply (is_true (cc_include_flashcards body)))
    as (content & Hc). rewrite Hc.
  destruct (array_map sanitize_question (Some (c_questions content)))
    as [qs|e] eqn:Eqs; [|by intros [= <-]].
  destruct (array_map sanitize_flashcard (Some (or_empty (Some (c_flashcards content)))))
    as [fs|e] eqn:Efs; [|by intros [= <-]].
  intros Hresp Hst.
  match goal with
  | _ : context [addDoc_quizzes ?q w1] |- _ =>
      destruct (persist_and_charge_created u (cc_user_id body) (QuizArtifact q)
                  (addDoc_quizzes q)
                  (λ n, {| res_status := 201;
                           res_json := ContentCreated quizId (subscriptionStatus u) n qs fs |})
                  (λ e, {| res_status := 500;
                           res_json := ErrorDetails "Error saving content" e |})
                  w1 resp (addDoc_quizzes_persists q) ltac:(done) Hresp Hst)
        as (w2 & n & Hart & Hch & ->);
      exists u, n, w1, w2, (QuizArtifact q)
  end.
  split_and!; try done.
Qed.

Lemma post_api_upload_pdf_created now quizId numpages reply req down w resp :
  (serve (UploadPdf now quizId numpages reply req down) w).1 = Return resp →
  res_status resp = 201 →
  ∃ u n w1 w2 a,
    evaluate_step now (up_user_id req) w w1 (Return u)
    ∧ canGenerate u = true
    ∧ artifact_written a w1 w2
    ∧ charge_step u (up_user_id req) w2
        (serve (UploadPdf now quizId numpages reply req down) w).2 n
    ∧ stored_as (UploadPdf now quizId numpages reply req down) a
    ∧ resp = created_response a u n.
Proof.
  cbn [serve]. unfold post_api_upload_pdf.
  pose proof (same_store_set_outages down w) as Hs0.
  set (w0 := set_outages down w) in *.
  destruct (up_file req); cbn [negb]; [|by intros [= <-]].
  case_decide; [by intros [= <-]|].
  munfold.
  pose proof (checkUserUsage_step now (up_user_id req) w0) as Hev.
  apply (evaluate_step_from _ _ w) in Hev; [|done].
  destruct (checkUserUsage now (up_user_id req) w0) as [[u|e] w1]; cbn in Hev;
    [|by intros [= <-]].
  destruct (canGenerate u) eqn:Hcan; cbn [negb]; [|by intros [= <-]].
  destruct numpages as [totalPages|]; cbn [from_option]; [|by intros [= <-]].
  case_decide as Hrange; [by intros [= <-]|].
  destruct (generateContent_returns reply
              (is_true (Some (default (JBool true) (up_include_flashcards req)))))
    as (content & Hc). rewrite Hc.
  destruct (array_map sanitize_question (Some (c_questions content)))
    as [qs|e] eqn:Eqs; [|by intros [= <-]].
  destruct (array_map sanitize_flashcard (Some (or_empty (Some (c_flashcards content)))))
    as [fs|e] eqn:Efs; [|by intros [= <-]].
  intros Hresp Hst.
  match goal with
  | _ : context [addDoc_quizzes ?q w1] |- _ =>
      destruct (persist_and_charge_created u (up_user_id req) (QuizArtifact q)
                  (addDoc_quizzes q)
                  (λ n, {| res_status := 201;
                           res_json := ContentCreated quizId (subscriptionStatus u) n qs fs |})
                  (λ e, {| res_status := 500;
                           res_json := ErrorDetails "Error processing PDF" e |})
                  w1 resp (addDoc_quizzes_persists q) ltac:(done) Hresp Hst)
        as (w2 & n & Hart & Hch & ->);
      exists u, n, w1, w2, (QuizArtifact q)
  end.
  split_and!; try done.
  cbn. split_and!; try done. exists totalPages. split_and!; [done|done|].
  cbn. lia.
Qed.

Lemma post_api_mock_test_generate_created now testId reply pdf_written body down w resp :
  (serve (MockTestGenerate now testId reply pdf_written body down) w).1 = Return resp →
  res_status resp = 201 →
  ∃ u n w1 w2 a,
    evaluate_step now (mg_user_id body) w w1 (Return u)
    ∧ canGenerate u = true
    ∧ artifact_written a w1 w2
    ∧ charge_step u (mg_user_id body) w2
        (serve (MockTestGenerate now testId reply pdf_written body down) w).2 n
    ∧ stored_as (MockTestGenerate now testId reply pdf_written body down) a
    ∧ resp = created_response a u n.
Proof.
  cbn [serve]. unfold post_api_mock_test_generate.
  pose proof (same_store_set_outages down w) as Hs0.
  set (w0 := set_outages down w) in *.
  case_decide; [by intros [= <-]|].
  munfold.
  pose proof (checkUserUsage_step now (mg_user_id body) w0) as Hev.
  apply (evaluate_step_from _ _ w) in Hev; [|done].
  destruct (checkUserUsage now (mg_user_id body) w0) as [[u|e] w1]; cbn in Hev;
    [|by intros [= <-]].
  destruct (canGenerate u) eqn:Hcan; cbn [negb]; [|by intros [= <-]].
  rewrite generateMockTest_run.
  destruct (model_reply_json reply) as [data|e] eqn:Edata; [|by intros [= <-]].
  destruct (createMockTestPDF_pure data pdf_written) as (o & Ho). rewrite Ho.
  destruct o as [[]|e]; [|by intros [= <-]].
  destruct (get_prop (Some data) "mock_test") as [mock_test|e] eqn:Emt;
    [|by intros [= <-]].
  intros Hresp Hst.
  match goal with
  | _ : context [addDoc_mock_tests ?m w1] |- _ =>
      destruct (persist_and_charge_created u (mg_user_id body) (MockTestArtifact m)
                  (addDoc_mock_tests m)
                  (λ n, {| res_status := 201;
                           res_json := MockTestCreated testId (subscriptionStatus u) n |})
                  (λ e, {| res_status := 500;
                           res_json := ErrorDetails "Error generating mock test" e |})
                  w1 resp (addDoc_mock_tests_persists m) ltac:(done) Hresp Hst)
        as (w2 & n & Hart & Hch & ->);
      exists u, n, w1, w2, (MockTestArtifact m)
  end.
  split_and!; done.
Qed.

(** A 201 comes from exactly one path: evaluate allowed, the artifact was
    stored with the fields of the request, the charge ran, and the body
    reports the status evaluate found and the number the charge returned. *)
Lemma serve_created (r : GenerationRequest) (w : World) (resp : Response) :
  (serve r w).1 = Return resp →
  res_status resp = 201 →
  ∃ u n w1 w2 a,
    evaluate_step (request_time r) (request_user r) w w1 (Return u)
    ∧ canGenerate u = true
    ∧ artifact_written a w1 w2
    ∧ charge_step u (request_user r) w2 (serve r w).2 n
    ∧ stored_as r a
    ∧ resp = created_response a u n.
Proof.
  destruct r.
  - apply post_api_create_content_created.
  - apply post_api_upload_pdf_created.
  - apply post_api_mock_test_generate_created.
Qed.

(** X12.  What a 201 tells the client about the quota is what evaluate
    found and what the charge did.  For an active subscriber it reports the
    plan and 0, and the record is untouched.  For a free user it reports
    status free; the counter was positive, and either one unit was taken and
    the new value is reported, or the store could not be reached during the
    charge, the counter is unchanged and 0 is reported. *)
Theorem created_response_reports_quota
    (r : GenerationRequest) (w : World) (d : UserDoc) (resp : Response) :
  users w !! request_user r = Some d →
  (serve r w).1 = Return resp →
  res_status resp = 201 →
  ∃ d', users (serve r w).2 !! request_user r = Some d'
    ∧ ((subscription_status d ≠ "free"
        ∧ expiry_after (request_time r) d = true
        ∧ d' = d
        ∧ reported_status resp = Some (subscription_status d)
        ∧ reported_remaining_free resp = Some 0)
       ∨ (reported_status resp = Some "free"
          ∧ 0 < free_generations_remaining d
          ∧ subscription_status d' = "free"
          ∧ ((free_generations_remaining d' = free_generations_remaining d - 1
              ∧ reported_remaining_free resp = Some (free_generations_remaining d - 1))
             ∨ (free_generations_remaining d' = free_generations_remaining d
                ∧ reported_remaining_free resp = Some 0)))).
Proof.
  intros Hd Hresp Hst.
  destruct (serve_created r w resp Hresp Hst)
    as (u & n & w1 & w2 & a & Hev & Hcan & Hart & Hch & _ & ->).
  assert (reported_status (created_response a u n) = Some (subscriptionStatus u)
          ∧ reported_remaining_free (created_response a u n) = Some n) as (-> & ->)
    by by destruct a.
  destruct Hart as (Hu2 & _).
  (* the record after evaluate: free with the stored counter, or untouched *)
  assert (∃ d1, users w2 !! request_user r = Some d1
                ∧ ((subscription_status d ≠ "free"
                    ∧ expiry_after (request_time r) d = true ∧ d1 = d
                    ∧ u = {| canGenerate := true; remainingFree := 0;
                             subscriptionStatus := subscription_status d |})
                   ∨ (subscription_status d1 = "free"
                      ∧ free_generations_remaining d1 = free_generations_remaining d
                      ∧ 0 < free_generations_remaining d
                      ∧ subscriptionStatus u = "free")))
    as (d1 & Hd1 & Hcase).
  { rewrite Hu2.
    assert (canGenerate (free_tier d) = true →
            0 < free_generations_remaining d
            ∧ subscriptionStatus (free_tier d) = "free") as Hfree.
    { unfold free_tier. by case_decide. }
    inversion Hev as [|Hnone Hw|d0 Hd0 Hst0 Hexp0 Hs|d0 Hd0 Hst0 Hexp0 Hw|d0 Hd0 Hst0 Hs];
      subst; try congruence; assert (d0 = d) as -> by congruence.
    - exists d. rewrite (same_store_lookup _ _ _ Hs). split; [done|]. by left.
    - exists (normalized d). rewrite (user_written_lookup _ _ _ _ _ Hw).
      split; [done|]. right. destruct (Hfree Hcan). by split_and!.
    - exists d. rewrite (same_store_lookup _ _ _ Hs). split; [done|].
      right. destruct (Hfree Hcan). by split_and!. }
  inversion Hch as [? Hfree Hcons|Hpaid Hs]; subst.
  - destruct Hcase as [(Hns & _ & _ & ->)|(Hs1 & Hc1 & Hpos & Hsu)]; [done|].
    inversion Hcons as [Hs|d2 Hd2 Hc2 Hw]; subst.
    + exists d1. rewrite (same_store_lookup _ _ _ Hs). split; [done|].
      right. rewrite Hfree. split_and!; try done. right. done.
    + assert (d2 = d1) as -> by congruence.
      eexists. rewrite (user_written_lookup _ _ _ _ _ Hw). split; [done|].
      right. rewrite Hfree, Hc1. split_and!; try done. left. done.
  - destruct Hcase as [(Hns & Hact & -> & ->)|(_ & _ & _ & Hsu)]; [|done].
    exists d. rewrite (same_store_lookup _ _ _ Hs). split; [done|]. by left.
Qed.

Lemma created_response_reports_quota_witness :
  users store_ada
    !! request_user (CreateContent 2000 "abc123" reply_one_question body_ada [])
    = Some (new_profile "ada" 1000)
  ∧ res_status
      {| res_status := 201;
         res_json := ContentCreated "abc123" "free" 9
                       [{| q_question := "2 + 2?"; q_type := "Multiple_Choice";
                           q_options := ["3"; "4"]; q_answer := "4" |}] [] |} = 201
  ∧ ∃ d', users (serve (CreateContent 2000 "abc123" reply_one_question body_ada [])
                   store_ada).2 !! "ada" = Some d'.
Proof.
  split; [reflexivity|]. split; [reflexivity|].
  destruct (created_response_reports_quota
              (CreateContent 2000 "abc123" reply_one_question body_ada []) store_ada
              (new_profile "ada" 1000)
              {| res_status := 201;
                 res_json := ContentCreated "abc123" "free" 9
                               [{| q_question := "2 + 2?"; q_type := "Multiple_Choice";
                                   q_options := ["3"; "4"]; q_answer := "4" |}] [] |})
    as (d' & Hd' & _).
  - reflexivity.
  - vm_compute. reflexivity.
  - reflexivity.
  - by exists d'.
Defined.

(** X14.  Every quiz that upload_pdf stores records a page range inside the
    document and clamped counts: 1 ≤ start ≤ end ≤ total pages, between 1
    and 50 questions and between 2 and 6 options. *)
Theorem uploaded_quiz_details_in_bounds
    (now : Z) (quizId : string) (numpages : option Z) (reply : ModelReply)
    (req : UploadPdfRequest) (down : list bool) (w : World) (q : QuizDoc) :
  quizzes (serve (UploadPdf now quizId numpages reply req down) w).2 = quizzes w ++ [q] →
  ∃ details, pdf_details q = Some details
    ∧ numpages = Some (total_pages details)
    ∧ 1 ≤ processed_start details ≤ processed_end details
    ∧ processed_end details ≤ total_pages details
    ∧ 1 ≤ pd_num_questions details ≤ 50
    ∧ 2 ≤ pd_num_options details ≤ 6.
Proof.
  intros Hq.
  destruct (serve_step (UploadPdf now quizId numpages reply req down) w)
    as (resp & Hresp & Hstep).
  destruct (request_step_artifacts _ _ _ _ Hstep) as [(_ & Hq1 & _)|(Hst & _)].
  { rewrite Hq1 in Hq. apply (f_equal length) in Hq.
    rewrite length_app in Hq. cbn in Hq. lia. }
  destruct (serve_created _ w resp Hresp Hst)
    as (u & n & w1 & w2 & a & Hev & _ & Hart & Hch & Hstored & _).
  destruct a as [q'|m]; [|done].
  assert (q' = q) as ->.
  { destruct (evaluate_step_artifacts _ _ _ _ _ Hev) as (Hq1 & _).
    destruct (charge_step_artifacts _ _ _ _ _ Hch) as (Hq2 & _).
    destruct Hart as (_ & Hqa & _). rewrite Hq2, Hqa, Hq1 in Hq.
    by apply app_inv_head in Hq as [= ->]. }
  destruct Hstored as (_ & _ & _ & _ & _ & totalPages & -> & Hpd & Hle).
  exists (upload_details totalPages req). split; [done|]. split; [done|].
  cbn in *. lia.
Qed.

Lemma uploaded_quiz_details_in_bounds_witness :
  quizzes (serve (UploadPdf 2000 "abc123" (Some 12) reply_one_question
                    {| up_file := true; up_user_id := "ada"; up_content_name := "Notes";
                       up_num_questions := Some 500; up_num_options := None;
                       up_include_flashcards := None;
                       up_startPage := Some 3; up_endPage := Some 40 |} [])
             store_ada).2
    = quizzes store_ada
      ++ [{| quiz_id := "abc123"; content_name := "Notes"; quiz_user_id := "ada";
             quiz_created_at := 2000; source := Some "pdf";
             pdf_details :=
               Some {| total_pages := 12; processed_start := 3; processed_end := 12;
                       pd_num_questions := 50; pd_num_options := 4;
                       pd_include_flashcards := JBool true |};
             questions := [{| q_question := "2 + 2?"; q_type := "Multiple_Choice";
                              q_options := ["3"; "4"]; q_answer := "4" |}];
             flashcards := [] |}]
  ∧ ∃ details, Some {| total_pages := 12; processed_start := 3; processed_end := 12;
                       pd_num_questions := 50; pd_num_options := 4;
                       pd_include_flashcards := JBool true |} = Some details
               ∧ 1 ≤ processed_start details ≤ processed_end details.
Proof.
  assert (quizzes (serve (UploadPdf 2000 "abc123" (Some 12) reply_one_question
                    {| up_file := true; up_user_id := "ada"; up_content_name := "Notes";
                       up_num_questions := Some 500; up_num_options := None;
                       up_include_flashcards := None;
                       up_startPage := Some 3; up_endPage := Some 40 |} [])
             store_ada).2
    = quizzes store_ada
      ++ [{| quiz_id := "abc123"; content_name := "Notes"; quiz_user_id := "ada";
             quiz_created_at := 2000; source := Some "pdf";
             pdf_details :=
               Some {| total_pages := 12; processed_start := 3; processed_end := 12;
                       pd_num_questions := 50; pd_num_options := 4;
                       pd_include_flashcards := JBool true |};
             questions := [{| q_question := "2 + 2?"; q_type := "Multiple_Choice";
                              q_options := ["3"; "4"]; q_answer := "4" |}];
             flashcards := [] |}]) as Hq by (vm_compute; reflexivity).
  split; [exact Hq|].
  destruct (uploaded_quiz_details_in_bounds _ _ _ _ _ _ _ _ Hq)
    as (details & Hd & _ & Hr & _).
  exists details. split; [exact Hd | exact Hr].
Defined.

(** ** The page range of an upload *)

Lemma checkUserUsage_chargeable now userId w d :
  outages w = [] → users w !! userId = Some d → chargeable d →
  checkUserUsage now userId w =
    (Return {| canGenerate := true;
               remainingFree := free_generations_remaining d;
               subscriptionStatus := "free" |}, w).
Proof.
  intros Hup Hd (Hfree & Hpos).
  rewrite (checkUserUsage_existing now userId w d) by done.
  rewrite decide_False by (intros ?; done). unfold free_tier.
  by rewrite decide_True.
Qed.

(** X15.  For a free user with quota and a parsed PDF, upload_pdf refuses
    the page range exactly when it is empty after clamping: the start page
    is raised to at least 1 and the end page lowered to at most the number
    of pages, and the request is answered 400 "Invalid page range", with
    nothing written, if and only if the clamped start exceeds the clamped
    end.  A PDF without pages is therefore always refused, and an end page
    beyond the document is never the reason for a refusal. *)
Theorem upload_page_range
    (now : Z) (quizId : string) (totalPages : Z) (reply : ModelReply)
    (req : UploadPdfRequest) (w : World) (d : UserDoc) :
  up_file req = true → up_user_id req ≠ "" → up_content_name req ≠ "" →
  users w !! up_user_id req = Some d → chargeable d →
  let start := Z.max 1 (int_or (up_startPage req) 1) in
  let end_ := Z.min totalPages (int_or (up_endPage req) totalPages) in
  (end_ < start →
     (serve (UploadPdf now quizId (Some totalPages) reply req []) w).1 =
       Return {| res_status := 400; res_json := InvalidPageRange totalPages start end_ |}
     ∧ same_store w (serve (UploadPdf now quizId (Some totalPages) reply req []) w).2)
  ∧ (start ≤ end_ →
     ∃ resp, (serve (UploadPdf now quizId (Some totalPages) reply req []) w).1 = Return resp
             ∧ (res_status resp = 201 ∨ res_status resp = 500))
  ∧ (totalPages ≤ 0 → end_ < start).
Proof.
  intros Hfile Hid Hname Hd Hch start end_.
  assert (outages (set_outages [] w) = []) as Hup by done.
  assert (users (set_outages [] w) !! up_user_id req = Some d) as Hd0 by done.
  split_and!.
  - intros Hempty. cbn [serve]. unfold post_api_upload_pdf.
    rewrite Hfile. cbn [negb]. rewrite decide_False by tauto. munfold.
    rewrite (checkUserUsage_chargeable now _ _ d) by done.
    cbn [negb from_option canGenerate].
    fold start end_. rewrite decide_True by (left; lia).
    split; [done|]. apply same_store_set_outages.
  - intros Hok.
    destruct (serve_step (UploadPdf now quizId (Some totalPages) reply req []) w)
      as (resp & Hresp & Hstep).
    exists resp. split; [done|].
    revert Hresp. cbn [serve]. unfold post_api_upload_pdf.
    rewrite Hfile. cbn [negb]. rewrite decide_False by tauto. munfold.
    rewrite (checkUserUsage_chargeable now _ _ d) by done.
    cbn [negb from_option canGenerate].
    fold start end_. rewrite decide_False by lia.
    destruct (generateContent_returns reply
                (is_true (Some (default (JBool true) (up_include_flashcards req)))))
      as (content & Hc). rewrite Hc.
    destruct (array_map sanitize_question (Some (c_questions content)))
      as [qs|e]; [|intros [= <-]; by right].
    destruct (array_map sanitize_flashcard (Some (or_empty (Some (c_flashcards content)))))
      as [fs|e]; [|intros [= <-]; by right].
    match goal with
    | |- context [addDoc_quizzes ?q (set_outages [] w)] =>
        destruct (addDoc_quizzes q (set_outages [] w)) as [[[]|e] w2]
    end; [|intros [= <-]; by right].
    match goal with
    | |- context [charge ?u ?id w2] => destruct (charge u id w2) as [[n|e] w3]
    end; intros [= <-]; [by left|by right].
  - intros Hzero. unfold start, end_. lia.
Qed.

Lemma upload_page_range_witness :
  users store_ada !! "ada" = Some (new_profile "ada" 1000)
  ∧ chargeable (new_profile "ada" 1000)
  ∧ (serve (UploadPdf 2000 "abc123" (Some 0) reply_one_question
              {| up_file := true; up_user_id := "ada"; up_content_name := "Notes";
                 up_num_questions := None; up_num_options := None;
                 up_include_flashcards := None;
                 up_startPage := None; up_endPage := None |} []) store_ada).1
    = Return {| res_status := 400; res_json := InvalidPageRange 0 1 0 |}.
Proof.
  split; [reflexivity|]. split; [split; reflexivity|].
  destruct (upload_page_range 2000 "abc123" 0 reply_one_question
              {| up_file := true; up_user_id := "ada"; up_content_name := "Notes";
                 up_num_questions := None; up_num_options := None;
                 up_include_flashcards := None;
                 up_startPage := None; up_endPage := None |}
              store_ada (new_profile "ada" 1000)) as (Hempty & _ & _).
  - reflexivity.
  - discriminate.
  - discriminate.
  - reflexivity.
  - split; reflexivity.
  - apply Hempty. reflexivity.
Defined.

(** ** Validation of generated questions *)

Lemma Json_nested_ind (P : Json → Prop) :
  P JNull → (∀ b, P (JBool b)) → (∀ n, P (JNum n)) → (∀ s, P (JStr s)) →
  (∀ l, Forall P l → P (JArr l)) → (∀ fields, P (JObj fields)) →
  ∀ v, P v.
Proof.
  intros Hnull Hbool Hnum Hstr Harr Hobj.
  fix IH 1. intros [ | b | n | s | l | fields]; [done..| |done].
  apply Harr. induction l as [|x l IHl]; constructor; [apply IH|exact IHl].
Qed.

(** [String] returns on the values that are [stringifiable] and throws a
    TypeError on the others. *)
Lemma js_String_cases (v : Json) :
  if stringifiable v then ∃ s, js_String v = Return s
  else js_String v = Throw TypeError.
Proof.
  induction v as [ | b | n | s | l IH | fields] using Json_nested_ind;
    cbn [stringifiable js_String]; try by eexists.
  - induction IH as [|x l Hx _ IHl]; cbn [forallb]; [by eexists|].
    cbn [fmap Outcome_fmap mbind Outcome_bind] in *.
    destruct (stringifiable x); cbn [andb].
    + destruct Hx as (s & Hs).
      assert (∃ s', match x with JNull => Return "" | _ => js_String x end = Return s')
        as (s' & ->) by (destruct x; by eexists).
      destruct (forallb stringifiable l).
      * destruct IHl as (ss & Hss).
        destruct ((fix join (l0 : list Json) : Outcome (list string) := _) l); [|done].
        by eexists.
      * by destruct ((fix join (l0 : list Json) : Outcome (list string) := _) l).
    + assert (match x with JNull => Return "" | _ => js_String x end = Throw TypeError)
        as -> by (by destruct x).
      done.
  - destruct (get_field "toString" fields); [done|]. by eexists.
Qed.

Lemma mapM_js_String_cases (l : list Json) :
  if forallb stringifiable l then ∃ ss, mapM js_String l = Return ss
  else mapM js_String l = Throw TypeError.
Proof.
  induction l as [|x l IH]; cbn [forallb mapM]; [by eexists|].
  pose proof (js_String_cases x) as Hx.
  cbn [mbind Outcome_bind mret Outcome_ret].
  destruct (stringifiable x); cbn [andb].
  - destruct Hx as (s & ->). destruct (forallb stringifiable l).
    + destruct IH as (ss & ->). by eexists.
    + by rewrite IH.
  - by rewrite Hx.
Qed.

(** X16.  [String] converts exactly the values in which no object with an
    own [toString] property is reached, directly or through the elements of
    arrays.  A question object passes the sanitising map exactly when its
    [question] and [answer] are truthy and [String] converts them, its
    [type] is a non-empty string and, for the type multiple_choice with an
    [options] array, [String] converts every option.  The sanitised
    question then has the converted question and answer and that type; its
    options are "True" and "False" unless the type is multiple_choice in any
    capitalisation, in which case they are the converted [options] array,
    or none when [options] is not an array. *)
Theorem sanitize_question_accepts (fields : list (string * Json)) :
  (∀ v, stringifiable v = true ↔ ∃ s, js_String v = Return s)
  ∧ ((∃ x, sanitize_question (JObj fields) = Return x)
     ↔ (∃ question, get_field "question" fields = Some question
                    ∧ truthy (Some question) = true ∧ stringifiable question = true)
       ∧ (∃ answer, get_field "answer" fields = Some answer
                    ∧ truthy (Some answer) = true ∧ stringifiable answer = true)
       ∧ ∃ s, get_field "type" fields = Some (JStr s) ∧ s ≠ ""
              ∧ (toLowerCase s = "multiple_choice" →
                 ∀ l, get_field "options" fields = Some (JArr l) →
                      forallb stringifiable l = true))
  ∧ ∀ x, sanitize_question (JObj fields) = Return x →
      get_field "type" fields = Some (JStr (q_type x))
      ∧ (∃ question, get_field "question" fields = Some question
                     ∧ js_String question = Return (q_question x))
      ∧ (∃ answer, get_field "answer" fields = Some answer
                   ∧ js_String answer = Return (q_answer x))
      ∧ (toLowerCase (q_type x) ≠ "multiple_choice" → q_options x = ["True"; "False"])
      ∧ (toLowerCase (q_type x) = "multiple_choice" →
         match get_field "options" fields with
         | Some (JArr l) => mapM js_String l = Return (q_options x)
         | _ => q_options x = []
         end).
Proof.
  split.
  { intros v. pose proof (js_String_cases v) as Hv.
    destruct (stringifiable v); [done|]. rewrite Hv.
    split; [done|by intros (? & ?)]. }
  unfold sanitize_question. cbn [get_prop mbind Outcome_bind].
  destruct (get_field "question" fields) as [question|] eqn:Eq;
    [|split; [split; [by intros (? & ?)|by intros ((? & ? & _) & _)]|done]].
  destruct (truthy (Some question)) eqn:Tq; cbn [negb orb];
    [|split; [split; [by intros (? & ?)|intros ((? & [= <-] & ? & _) & _); congruence]|done]].
  destruct (get_field "type" fields) as [type_|] eqn:Et;
    [|split; [split; [by intros (? & ?)|by intros (_ & _ & ? & ? & _)]|done]].
  destruct (truthy (Some type_)) eqn:Tt; cbn [negb orb].
  2:{ split; [split; [by intros (? & ?)|]|done].
      intros (_ & _ & s & [= ->] & Hs & _). cbn in Tt.
      by rewrite bool_decide_eq_true_2 in Tt. }
  destruct (get_field "answer" fields) as [answer|] eqn:Ea;
    [|split; [split; [by intros (? & ?)|by intros (_ & (? & ? & _) & _)]|done]].
  destruct (truthy (Some answer)) eqn:Ta; cbn [negb orb];
    [|split; [split; [by intros (? & ?)|intros (_ & (? & [= <-] & ? & _) & _); congruence]|done]].
  pose proof (js_String_cases question) as Hq.
  destruct (stringifiable question) eqn:Sq.
  2:{ rewrite Hq. cbn [mbind Outcome_bind].
      split; [split; [by intros (? & ?)|intros ((? & [= <-] & _ & ?) & _); congruence]|done]. }
  destruct Hq as (question' & Hq). rewrite Hq. cbn [mbind Outcome_bind].
  destruct type_ as [|b|n|s|l|o];
    [destruct (js_String JNull)|destruct (js_String (JBool b))
    |destruct (js_String (JNum n))| |destruct (js_String (JArr l))
    |destruct (js_String (JObj o))];
    cbn [mbind Outcome_bind];
    try (split; [split; [by intros (? & ?)|by intros (_ & _ & ? & ? & _)]|done]).
  cbn [js_String mbind Outcome_bind].
  assert (s ≠ "") as Hs by (cbn in Tt; by apply bool_decide_eq_true in Tt).
  set (oexp := if decide (toLowerCase s = "multiple_choice") then
                 match get_field "options" fields with
                 | Some (JArr l) => mapM js_String l
                 | _ => Return []
                 end
               else Return ["True"; "False"]).
  assert ((∃ os, oexp = Return os
             ∧ (toLowerCase s = "multiple_choice" →
                ∀ l, get_field "options" fields = Some (JArr l) →
                     forallb stringifiable l = true)
             ∧ (toLowerCase s ≠ "multiple_choice" → os = ["True"; "False"])
             ∧ (toLowerCase s = "multiple_choice" →
                match get_field "options" fields with
                | Some (JArr l) => mapM js_String l = Return os
                | _ => os = []
                end))
          ∨ (oexp = Throw TypeError
             ∧ ∃ l, toLowerCase s = "multiple_choice"
                    ∧ get_field "options" fields = Some (JArr l)
                    ∧ forallb stringifiable l = false)) as Hopts.
  { unfold oexp. case_decide as Hmc.
    - destruct (get_field "options" fields) as [[ | | | |l| ]|] eqn:Eo;
        try (left; eexists; split_and!; [done|by intros|done|by intros]).
      pose proof (mapM_js_String_cases l) as Hl.
      destruct (forallb stringifiable l) eqn:Sl.
      + destruct Hl as (ss & Hl). left. exists ss.
        split_and!; [done|by intros _ l' [= <-]|done|done].
      + right. split; [done|]. by exists l.
    - left. eexists. by split_and!. }
  clearbody oexp.
  pose proof (js_String_cases answer) as Ha.
  destruct Hopts as [(os & -> & Hcond & Hne & Hmc)|(-> & l & Hmc & Eo & Sl)];
    cbn [mbind Outcome_bind].
  2:{ split; [split; [by intros (? & ?)|]|done].
      intros (_ & _ & s' & [= <-] & _ & Hopts). specialize (Hopts Hmc l Eo).
      congruence. }
  destruct (stringifiable answer) eqn:Sa.
  - destruct Ha as (answer' & Ha). rewrite Ha. cbn [mbind Outcome_bind]. split.
    + split; [intros _|by eexists].
      split_and!; [by eexists|by eexists|]. exists s. by split_and!.
    + intros x [= <-]. cbn. split_and!; [done|by eexists|by eexists|done|done].
  - rewrite Ha. cbn [mbind Outcome_bind].
    split; [split; [by intros (? & ?)|]|done].
    intros (_ & (? & [= <-] & _ & ?) & _). congruence.
Qed.

(** ** Sorting *)

Section sort_by.

Context {A : Type} (before : A → A → bool).
Hypothesis before_total : ∀ x y, before x y = true ∨ before y x = true.
Hypothesis before_trans :
  ∀ x y z, before x y = true → before y z = true → before x z = true.

Lemma insert_sorted_Permutation (x : A) (l : list A) :
  insert_sorted before x l ≡ₚ x :: l.
Proof.
  induction l as [|y l IH]; cbn; [done|].
  destruct (before x y); [done|]. rewrite IH. apply Permutation_swap.
Qed.

Lemma sort_by_Permutation (l : list A) : sort_by before l ≡ₚ l.
Proof.
  induction l as [|x l IH]; cbn; [done|].
  by rewrite insert_sorted_Permutation, IH.
Qed.

Lemma insert_sorted_StronglySorted (x : A) (l : list A) :
  StronglySorted (λ a b, before a b = true) l →
  StronglySorted (λ a b, before a b = true) (insert_sorted before x l).
Proof.
  induction l as [|y l IH]; cbn; intros Hl.
  - by repeat constructor.
  - apply StronglySorted_cons in Hl as (Hy & Hl).
    destruct (before x y) eqn:Hxy.
    + constructor; [by constructor|].
      constructor; [done|]. eapply Forall_impl; [done|]. cbn. eauto.
    + constructor; [by apply IH|].
      rewrite insert_sorted_Permutation. constructor; [|done].
      destruct (before_total x y); congruence.
Qed.

Lemma sort_by_StronglySorted (l : list A) :
  StronglySorted (λ a b, before a b = true) (sort_by before l).
Proof.
  induction l as [|x l IH]; cbn; [constructor|].
  by apply insert_sorted_StronglySorted.
Qed.

(** The first [n] of a sorted arrangement of [l]: a sorted list of at most
    [n] elements which, together with some rest, makes up [l], no element of
    the rest ranking before a listed one. *)
Lemma take_sort_by (n : nat) (l : list A) :
  (length (take n (sort_by before l)) ≤ n)%nat
  ∧ StronglySorted (λ a b, before a b = true) (take n (sort_by before l))
  ∧ ∃ rest, take n (sort_by before l) ++ rest ≡ₚ l
            ∧ (∀ x y, x ∈ take n (sort_by before l) → y ∈ rest → before x y = true)
            ∧ ((length l ≤ n)%nat → rest = []).
Proof.
  pose proof (sort_by_StronglySorted l) as Hs.
  pose proof (sort_by_Permutation l) as Hp.
  rewrite <- (take_drop n (sort_by before l)) in Hs, Hp.
  split_and!.
  - rewrite length_take. lia.
  - by eapply StronglySorted_app_1_l.
  - exists (drop n (sort_by before l)). split_and!; [done| |].
    + intros x y Hx Hy.
      exact (StronglySorted_app_1_elem_of (λ a b, before a b = true) _ _ x y Hs Hx Hy).
    + intros Hlen. apply drop_ge. by rewrite sort_by_Permutation.
Qed.

End sort_by.

Lemma score_before_total (x y : ScoreDoc) :
  score_before x y = true ∨ score_before y x = true.
Proof.
  unfold score_before. destruct (sc_score x), (sc_score y); auto.
  destruct (decide (z0 ≤ z)); [left|right]; apply bool_decide_eq_true; lia.
Qed.

Lemma score_before_trans (x y z : ScoreDoc) :
  score_before x y = true → score_before y z = true → score_before x z = true.
Proof.
  unfold score_before. destruct (sc_score x), (sc_score y), (sc_score z); try done.
  rewrite !bool_decide_eq_true. lia.
Qed.

Lemma quiz_newer_total (x y : QuizDoc) : quiz_newer x y = true ∨ quiz_newer y x = true.
Proof.
  unfold quiz_newer. destruct (decide (quiz_created_at y ≤ quiz_created_at x));
    [left|right]; apply bool_decide_eq_true; lia.
Qed.

Lemma quiz_newer_trans (x y z : QuizDoc) :
  quiz_newer x y = true → quiz_newer y z = true → quiz_newer x z = true.
Proof. unfold quiz_newer. rewrite !bool_decide_eq_true. lia. Qed.

Lemma mock_test_newer_total (x y : MockTestDoc) :
  mock_test_newer x y = true ∨ mock_test_newer y x = true.
Proof.
  unfold mock_test_newer. destruct (decide (mt_created_at y ≤ mt_created_at x));
    [left|right]; apply bool_decide_eq_true; lia.
Qed.

Lemma mock_test_newer_trans (x y z : MockTestDoc) :
  mock_test_newer x y = true → mock_test_newer y z = true → mock_test_newer x z = true.
Proof. unfold mock_test_newer. rewrite !bool_decide_eq_true. lia. Qed.

(** ** The read endpoints *)

Section ReadEndpoints.

Variable by_document_id : ∀ A : Type, list A → list A.
Hypothesis by_document_id_perm : ∀ (A : Type) (l : list A), by_document_id A l ≡ₚ l.

Lemma query_where_Permutation {A : Type} (P : A → Prop) `{∀ x, Decision (P x)}
    (coll : list A) :
  query_where by_document_id P coll ≡ₚ filter P coll.
Proof. unfold query_where. by rewrite by_document_id_perm. Qed.

Lemma query_where_elem_of {A : Type} (P : A → Prop) `{∀ x, Decision (P x)}
    (coll : list A) (x : A) :
  x ∈ query_where by_document_id P coll ↔ P x ∧ x ∈ coll.
Proof. by rewrite query_where_Permutation, list_elem_of_filter. Qed.

Lemma query_newest_ranked {A : Type} (P : A → Prop) `{∀ x, Decision (P x)}
    (before : A → A → bool) (n : nat) (coll : list A) :
  (∀ x y, before x y = true ∨ before y x = true) →
  (∀ x y z, before x y = true → before y z = true → before x z = true) →
  (length (query_newest by_document_id P before n coll) ≤ n)%nat
  ∧ StronglySorted (λ a b, before a b = true)
      (query_newest by_document_id P before n coll)
  ∧ ∃ rest, query_newest by_document_id P before n coll ++ rest ≡ₚ filter P coll
            ∧ (∀ x y, x ∈ query_newest by_document_id P before n coll → y ∈ rest →
                      before x y = true)
            ∧ ((length (filter P coll) ≤ n)%nat → rest = []).
Proof.
  intros Htot Htrans. unfold query_newest.
  destruct (take_sort_by before Htot Htrans n
              (reverse (query_where by_document_id P coll)))
    as (Hlen & Hsorted & rest & Hperm & Hrank & Hall).
  split_and!; [done|done|].
  exists rest. split_and!; [|done|].
  - by rewrite Hperm, reverse_Permutation, query_where_Permutation.
  - intros Hn. apply Hall.
    by rewrite length_reverse, query_where_Permutation.
Qed.

Lemma getDocs_up {A : Type} (q : World → list A) (w : World) :
  outages w = [] → getDocs q w = (Return (q w), w).
Proof. intros Hup. unfold getDocs. munfold. by rewrite firestore_call_up. Qed.

Lemma getDocs_cases {A : Type} (q : World → list A) (w : World) :
  ∃ w1, same_store w w1
        ∧ (getDocs q w = (Return (q w1), w1) ∨ getDocs q w = (Throw FirestoreError, w1)).
Proof.
  destruct (firestore_call_cases w) as (w1 & Hs & [E|E]); exists w1;
    (split; [done|]); unfold getDocs; munfold; rewrite E; auto.
Qed.

Lemma get_api_quiz_run (quizId : string) (w : World) :
  outages w = [] →
  (get_api_quiz by_document_id quizId w).2 = w
  ∧ ((∀ q, q ∈ quizzes w → quiz_id q ≠ quizId) →
     (get_api_quiz by_document_id quizId w).1 =
       Return {| rr_status := 404; rr_json := ReadError "Quiz not found" None |})
  ∧ (∀ q, q ∈ quizzes w → quiz_id q = quizId →
     ∃ q', q' ∈ quizzes w ∧ quiz_id q' = quizId
           ∧ (get_api_quiz by_document_id quizId w).1 =
               Return {| rr_status := 200;
                         rr_json := QuizData quizId (questions q') (flashcards q') |})
  ∧ (∀ q, q ∈ quizzes w → quiz_id q = quizId →
     (∀ q', q' ∈ quizzes w → quiz_id q' = quizId → q' = q) →
     (get_api_quiz by_document_id quizId w).1 =
       Return {| rr_status := 200;
                 rr_json := QuizData quizId (questions q) (flashcards q) |}).
Proof.
  intros Hup. unfold get_api_quiz. munfold. rewrite getDocs_up by done.
  destruct (query_where by_document_id (λ q, quiz_id q = quizId) (quizzes w))
    as [|q0 rest] eqn:Hq.
  - assert (∀ q, q ∈ quizzes w → quiz_id q ≠ quizId) as Hnone.
    { intros q Hin Hid.
      assert (q ∈ query_where by_document_id (λ q, quiz_id q = quizId) (quizzes w))
        as Hq' by by apply query_where_elem_of.
      rewrite Hq in Hq'. by apply not_elem_of_nil in Hq'. }
    split_and!; [done|done| |]; intros q Hin Hid; by destruct (Hnone q Hin).
  - assert (q0 ∈ quizzes w ∧ quiz_id q0 = quizId) as (Hin0 & Hid0).
    { assert (q0 ∈ query_where by_document_id (λ q, quiz_id q = quizId) (quizzes w))
        as Hq' by (rewrite Hq; by left).
      apply query_where_elem_of in Hq'. tauto. }
    split_and!; [done| | |].
    + intros Hnone. by destruct (Hnone q0 Hin0).
    + intros q _ _. by exists q0.
    + intros q Hin Hid Huniq. by rewrite (Huniq q0 Hin0 Hid0).
Qed.

(** X20.  The flashcards endpoint agrees with the quiz endpoint on every
    store and under every outage: it answers 200 with the flashcards the
    quiz endpoint returns, 404 exactly when the quiz endpoint does, and 500
    exactly when the quiz endpoint does. *)
Theorem flashcards_agree_with_quiz (quizId : string) (w : World) :
  (get_api_flashcards by_document_id quizId w).2 = (get_api_quiz by_document_id quizId w).2
  ∧ ∃ quiz_resp cards_resp,
      (get_api_quiz by_document_id quizId w).1 = Return quiz_resp
      ∧ (get_api_flashcards by_document_id quizId w).1 = Return cards_resp
      ∧ rr_status cards_resp = rr_status quiz_resp
      ∧ (rr_status quiz_resp = 200 ∨ rr_status quiz_resp = 404 ∨ rr_status quiz_resp = 500)
      ∧ ∀ qs fs, rr_json quiz_resp = QuizData quizId qs fs →
                 rr_json cards_resp = FlashcardData quizId fs.
Proof.
  unfold get_api_flashcards, get_api_quiz. munfold.
  destruct (getDocs_cases (λ w, query_where by_document_id (λ q, quiz_id q = quizId)
                                  (quizzes w)) w) as (w1 & _ & [E|E]);
    rewrite E.
  - destruct (query_where by_document_id (λ q, quiz_id q = quizId) (quizzes w1))
      as [|q0 rest].
    + split; [done|]. eexists _, _.
      split_and!; [done|done|done|by right; left|by intros qs fs].
    + split; [done|]. eexists _, _.
      split_and!; [done|done|done|by left|]. cbn. by intros qs fs [= <- <-].
  - split; [done|]. eexists _, _.
    split_and!; [done|done|done|by right; right|by intros qs fs].
Qed.

(** X18.  With Firestore reachable, the quiz endpoint writes nothing and
    answers by lookup: 404 when no stored quiz carries the id; otherwise 200
    with the questions and flashcards of a stored quiz with that id, which
    is the quiz itself when the id is unique in the store. *)
Theorem get_quiz_lookup (quizId : string) (w : World) :
  outages w = [] →
  (get_api_quiz by_document_id quizId w).2 = w
  ∧ ((∀ q, q ∈ quizzes w → quiz_id q ≠ quizId) →
     (get_api_quiz by_document_id quizId w).1 =
       Return {| rr_status := 404; rr_json := ReadError "Quiz not found" None |})
  ∧ (∀ q, q ∈ quizzes w → quiz_id q = quizId →
     ∃ q', q' ∈ quizzes w ∧ quiz_id q' = quizId
           ∧ (get_api_quiz by_document_id quizId w).1 =
               Return {| rr_status := 200;
                         rr_json := QuizData quizId (questions q') (flashcards q') |})
  ∧ (∀ q, q ∈ quizzes w → quiz_id q = quizId →
     (∀ q', q' ∈ quizzes w → quiz_id q' = quizId → q' = q) →
     (get_api_quiz by_document_id quizId w).1 =
       Return {| rr_status := 200;
                 rr_json := QuizData quizId (questions q) (flashcards q) |}).
Proof. apply get_api_quiz_run. Qed.

(** X19.  A quiz that a generation request has created can be read back:
    when the 201 carries a quiz id that no stored quiz had before, the quiz
    endpoint (with Firestore reachable) returns the questions and flashcards
    of the 201. *)
Theorem created_quiz_can_be_read
    (r : GenerationRequest) (w : World) (resp : Response)
    (quizId status : string) (n : Z) (qs : list Question) (fs : list Flashcard) :
  (serve r w).1 = Return resp →
  res_status resp = 201 →
  res_json resp = ContentCreated quizId status n qs fs →
  (∀ q, q ∈ quizzes w → quiz_id q ≠ quizId) →
  (get_api_quiz by_document_id quizId (set_outages [] (serve r w).2)).1 =
    Return {| rr_status := 200; rr_json := QuizData quizId qs fs |}.
Proof.
  intros Hresp Hst Hbody Hfresh.
  destruct (serve_created r w resp Hresp Hst)
    as (u & n' & w1 & w2 & a & Hev & _ & Hart & Hch & _ & ->).
  destruct a as [q|m]; [|done]. cbn in Hbody. injection Hbody as Hid _ _ <- <-.
  assert (quizzes (serve r w).2 = quizzes w ++ [q]) as Hq.
  { destruct (evaluate_step_artifacts _ _ _ _ _ Hev) as (Hq1 & _).
    destruct (charge_step_artifacts _ _ _ _ _ Hch) as (Hq2 & _).
    destruct Hart as (_ & Hqa & _). by rewrite Hq2, Hqa, Hq1. }
  destruct (get_api_quiz_run quizId (set_outages [] (serve r w).2) eq_refl)
    as (_ & _ & _ & Huniq).
  apply Huniq; cbn [quizzes set_outages]; rewrite ?Hq.
  - apply elem_of_app. right. by left.
  - done.
  - intros q' [Hin| ->%list_elem_of_singleton]%elem_of_app Hid'; [|done].
    by destruct (Hfresh q' Hin).
Qed.

Lemma filter_all {A : Type} (l : list A) : filter (λ _ : A, True) l = l.
Proof.
  induction l as [|x l IH]; [done|]. rewrite filter_cons_True by done. by rewrite IH.
Qed.

Lemma StronglySorted_weaken {A : Type} (R1 R2 : relation A) (l : list A) :
  (∀ x y, R1 x y → R2 x y) → StronglySorted R1 l → StronglySorted R2 l.
Proof.
  intros Himpl. induction 1 as [|x l Hl IH Hx]; constructor; [done|].
  eapply Forall_impl; [done|]. auto.
Qed.

Lemma get_api_recent_user_run (userId : string) (w : World) :
  outages w = [] →
  ∃ docs rest,
    get_api_recent_user by_document_id userId w =
      (Return {| rr_status := 200; rr_json := ContentList (content_item <$> docs) |}, w)
    ∧ (length docs ≤ 10)%nat
    ∧ docs ++ rest ≡ₚ filter (λ q, quiz_user_id q = userId) (quizzes w)
    ∧ StronglySorted (λ a b, quiz_created_at b ≤ quiz_created_at a) docs
    ∧ (∀ x y, x ∈ docs → y ∈ rest → quiz_created_at y ≤ quiz_created_at x)
    ∧ ((length (filter (λ q, quiz_user_id q = userId) (quizzes w)) ≤ 10)%nat → rest = []).
Proof.
  intros Hup. unfold get_api_recent_user. munfold. rewrite getDocs_up by done.
  destruct (query_newest_ranked (λ q, quiz_user_id q = userId) quiz_newer 10 (quizzes w)
              quiz_newer_total quiz_newer_trans)
    as (Hlen & Hsorted & rest & Hperm & Hrank & Hall).
  eexists _, rest. split_and!; [done|done|done| | |done].
  - eapply StronglySorted_weaken; [|done]. intros x y. unfold quiz_newer.
    by rewrite bool_decide_eq_true.
  - intros x y Hx Hy. specialize (Hrank x y Hx Hy). unfold quiz_newer in Hrank.
    by apply bool_decide_eq_true in Hrank.
Qed.

(** X23.  With Firestore reachable, the user's recent list holds at most ten
    of that user's stored quizzes, newest first, and nothing it leaves out
    is newer than anything it lists; a user with at most ten quizzes sees
    all of them.  The endpoint writes nothing. *)
Theorem recent_user_lists_newest (userId : string) (w : World) :
  outages w = [] →
  ∃ docs rest,
    get_api_recent_user by_document_id userId w =
      (Return {| rr_status := 200; rr_json := ContentList (content_item <$> docs) |}, w)
    ∧ (length docs ≤ 10)%nat
    ∧ docs ++ rest ≡ₚ filter (λ q, quiz_user_id q = userId) (quizzes w)
    ∧ StronglySorted (λ a b, quiz_created_at b ≤ quiz_created_at a) docs
    ∧ (∀ x y, x ∈ docs → y ∈ rest → quiz_created_at y ≤ quiz_created_at x)
    ∧ ((length (filter (λ q, quiz_user_id q = userId) (quizzes w)) ≤ 10)%nat → rest = []).
Proof. apply get_api_recent_user_run. Qed.

(** X25.  With Firestore reachable, the public recent list holds at most ten
    stored quizzes, newest first, and nothing it leaves out is newer than
    anything it lists; with at most ten quizzes stored it lists them all. *)
Theorem recent_lists_newest (w : World) :
  outages w = [] →
  ∃ docs rest,
    get_api_recent by_document_id w =
      (Return {| rr_status := 200; rr_json := ContentList (content_item <$> docs) |}, w)
    ∧ (length docs ≤ 10)%nat
    ∧ docs ++ rest ≡ₚ quizzes w
    ∧ StronglySorted (λ a b, quiz_created_at b ≤ quiz_created_at a) docs
    ∧ (∀ x y, x ∈ docs → y ∈ rest → quiz_created_at y ≤ quiz_created_at x)
    ∧ ((length (quizzes w) ≤ 10)%nat → rest = []).
Proof.
  intros Hup. unfold get_api_recent. munfold. rewrite getDocs_up by done.
  destruct (query_newest_ranked (λ _ : QuizDoc, True) quiz_newer 10 (quizzes w)
              quiz_newer_total quiz_newer_trans)
    as (Hlen & Hsorted & rest & Hperm & Hrank & Hall).
  rewrite filter_all in *.
  eexists _, rest. split_and!; [done|done|done| | |done].
  - eapply StronglySorted_weaken; [|done]. intros x y. unfold quiz_newer.
    by rewrite bool_decide_eq_true.
  - intros x y Hx Hy. specialize (Hrank x y Hx Hy). unfold quiz_newer in Hrank.
    by apply bool_decide_eq_true in Hrank.
Qed.

(** X26.  With Firestore reachable, the user's mock-test list holds at most
    ten of that user's stored mock tests, newest first, each with the
    download link of its test id; nothing it leaves out is newer than
    anything it lists. *)
Theorem mock_test_user_lists_newest (userId : string) (w : World) :
  outages w = [] →
  ∃ docs rest,
    get_api_mock_test_user by_document_id userId w =
      (Return {| rr_status := 200; rr_json := MockTestList (mock_test_item <$> docs) |}, w)
    ∧ (length docs ≤ 10)%nat
    ∧ docs ++ rest ≡ₚ filter (λ m, mt_user_id m = userId) (mock_tests w)
    ∧ StronglySorted (λ a b, mt_created_at b ≤ mt_created_at a) docs
    ∧ (∀ x y, x ∈ docs → y ∈ rest → mt_created_at y ≤ mt_created_at x)
    ∧ Forall (λ item, ∃ m, m ∈ mock_tests w ∧ mt_user_id m = userId
                           ∧ mi_test_id item = test_id m
                           ∧ mi_download_link item =
                               ("/api/mock-test/download/" +:+ test_id m)%string)
        (mock_test_item <$> docs).
Proof.
  intros Hup. unfold get_api_mock_test_user. munfold. rewrite getDocs_up by done.
  destruct (query_newest_ranked (λ m, mt_user_id m = userId) mock_test_newer 10
              (mock_tests w) mock_test_newer_total mock_test_newer_trans)
    as (Hlen & Hsorted & rest & Hperm & Hrank & Hall).
  eexists _, rest. split_and!; [done|done|done| | |].
  - eapply StronglySorted_weaken; [|done]. intros x y. unfold mock_test_newer.
    by rewrite bool_decide_eq_true.
  - intros x y Hx Hy. specialize (Hrank x y Hx Hy). unfold mock_test_newer in Hrank.
    by apply bool_decide_eq_true in Hrank.
  - apply Forall_fmap, Forall_forall. intros m Hm. exists m.
    assert (m ∈ filter (λ m, mt_user_id m = userId) (mock_tests w)) as Hin.
    { rewrite <- Hperm. apply elem_of_app. by left. }
    apply list_elem_of_filter in Hin as (? & ?). by split_and!.
Qed.

(** X24.  A quiz created later than all stored quizzes of its user heads
    that user's recent list: after a 201 for a quiz request at a time after
    the creation of every quiz the user had, the list starts with the id of
    the 201, the content name of the request and the time of the request. *)
Theorem created_quiz_heads_recent
    (r : GenerationRequest) (w : World) (resp : Response)
    (quizId status : string) (n : Z) (qs : list Question) (fs : list Flashcard) :
  (serve r w).1 = Return resp →
  res_status resp = 201 →
  res_json resp = ContentCreated quizId status n qs fs →
  (∀ q, q ∈ quizzes w → quiz_user_id q = request_user r →
        quiz_created_at q < request_time r) →
  ∃ name items,
    (get_api_recent_user by_document_id (request_user r)
       (set_outages [] (serve r w).2)).1 =
      Return {| rr_status := 200;
                rr_json := ContentList ((quizId, name, request_time r) :: items) |}.
Proof.
  intros Hresp Hst Hbody Hnew.
  destruct (serve_created r w resp Hresp Hst)
    as (u & n' & w1 & w2 & a & Hev & _ & Hart & Hch & Hstored & ->).
  destruct a as [q|m]; [|done]. cbn in Hbody. injection Hbody as Hid _ _ _ _.
  assert (quizzes (serve r w).2 = quizzes w ++ [q]) as Hq.
  { destruct (evaluate_step_artifacts _ _ _ _ _ Hev) as (Hq1 & _).
    destruct (charge_step_artifacts _ _ _ _ _ Hch) as (Hq2 & _).
    destruct Hart as (_ & Hqa & _). by rewrite Hq2, Hqa, Hq1. }
  assert (quiz_user_id q = request_user r ∧ quiz_created_at q = request_time r)
    as (Huser & Htime).
  { destruct r; cbn in Hstored; [| |done]; destruct Hstored as (_ & _ & ? & ? & _); done. }
  destruct (get_api_recent_user_run (request_user r) (set_outages [] (serve r w).2) eq_refl)
    as (docs & rest & Hrun & Hlen & Hperm & Hsorted & Hrank & Hall).
  rewrite Hrun. cbn [fst quizzes set_outages] in *. rewrite Hq in Hperm.
  assert (∀ x, x ∈ docs ++ rest → x = q ∨ quiz_created_at x < quiz_created_at q) as Hold.
  { intros x Hx. rewrite Hperm in Hx.
    apply list_elem_of_filter in Hx as (Hxu & [Hx| ->%list_elem_of_singleton]%elem_of_app);
      [right|by left].
    rewrite Htime. by apply Hnew. }
  assert (q ∈ docs ++ rest) as Hin.
  { rewrite Hperm. apply list_elem_of_filter. split; [done|].
    apply elem_of_app. right. by left. }
  destruct docs as [|h docs].
  - (* the list cannot be empty: the rest would then hold more than ten *)
    cbn in Hin.
    assert (rest = []) as ->.
    { destruct rest as [|y rest]; [done|].
      exfalso. revert Hrun. unfold get_api_recent_user. munfold.
      rewrite getDocs_up by done. unfold query_newest.
      intros [= Hempty%fmap_nil_inv].
      assert (length (sort_by quiz_newer
                (reverse (query_where by_document_id
                            (λ q0, quiz_user_id q0 = request_user r)
                            (quizzes (serve r w).2)))) = 0)%nat as Hzero.
      { destruct (sort_by quiz_newer _) as [|z l]; [done|]. done. }
      rewrite sort_by_Permutation, length_reverse, query_where_Permutation in Hzero.
      cbn [quizzes set_outages] in Hzero.
      rewrite Hq, <- Hperm in Hzero. cbn in Hzero. lia. }
    by apply not_elem_of_nil in Hin.
  - assert (h = q) as ->.
    { destruct (Hold h) as [|Hlt]; [by left|done|].
      apply StronglySorted_cons in Hsorted as (Hh & _).
      rewrite Forall_forall in Hh.
      apply elem_of_cons in Hin as [->|Hin]; [done|].
      apply elem_of_app in Hin as [Hin|Hin].
      + specialize (Hh q Hin). lia.
      + specialize (Hrank h q ltac:(by left) Hin). lia. }
    exists (content_name q), (content_item <$> docs). cbn [fmap list_fmap].
    unfold content_item at 1. by rewrite Hid, Htime.
Qed.

Lemma get_api_leaderboard_run (quizId : string) (scores : list ScoreDoc) :
  ∃ docs rest,
    get_api_leaderboard by_document_id false quizId scores =
      {| rr_status := 200;
         rr_json := LeaderboardData quizId
                      ((λ doc, (sc_player_name doc, sc_score doc)) <$> docs) |}
    ∧ (length docs ≤ 10)%nat
    ∧ docs ++ rest ≡ₚ filter (λ s, sc_quiz_id s = quizId) scores
    ∧ StronglySorted (λ a b, score_before a b = true) docs
    ∧ (∀ x y, x ∈ docs → y ∈ rest → score_before x y = true)
    ∧ ((length (filter (λ s, sc_quiz_id s = quizId) scores) ≤ 10)%nat → rest = []).
Proof.
  unfold get_api_leaderboard.
  destruct (query_newest_ranked (λ s, sc_quiz_id s = quizId) score_before 10 scores
              score_before_total score_before_trans)
    as (Hlen & Hsorted & rest & Hperm & Hrank & Hall).
  eexists _, rest. by split_and!.
Qed.

(** X21.  The leaderboard of a quiz lists at most ten of the scores stored
    for that quiz, highest first, a score that is not a number after all
    numbers; no score it leaves out ranks above a listed one, and a quiz
    with at most ten scores has all of them listed. *)
Theorem leaderboard_ranking (quizId : string) (scores : list ScoreDoc) :
  ∃ docs rest,
    get_api_leaderboard by_document_id false quizId scores =
      {| rr_status := 200;
         rr_json := LeaderboardData quizId
                      ((λ doc, (sc_player_name doc, sc_score doc)) <$> docs) |}
    ∧ (length docs ≤ 10)%nat
    ∧ docs ++ rest ≡ₚ filter (λ s, sc_quiz_id s = quizId) scores
    ∧ StronglySorted (λ a b, score_before a b = true) docs
    ∧ (∀ x y, x ∈ docs → y ∈ rest → score_before x y = true)
    ∧ ((length (filter (λ s, sc_quiz_id s = quizId) scores) ≤ 10)%nat → rest = []).
Proof. apply get_api_leaderboard_run. Qed.

(** X22.  A submitted score shows on the leaderboard: a request with quiz
    id, player name and a score (0 included) is answered 201 and appends one
    document; if the quiz had fewer than ten scores, the leaderboard then
    lists the player with that score.  The same request stores nothing
    when its addDoc is rejected. *)
Theorem submitted_score_is_listed
    (now : Z) (body : ScoreBody) (score : option Z) (scores : list ScoreDoc) :
  sb_quizId body ≠ "" → sb_playerName body ≠ "" → sb_score body = Some score →
  (length (filter (λ s, sc_quiz_id s = sb_quizId body) scores) < 10)%nat →
  rr_status (post_api_submit_score now false body scores).1 = 201
  ∧ (∃ doc, (post_api_submit_score now false body scores).2 = scores ++ [doc])
  ∧ (post_api_submit_score now true body scores).2 = scores
  ∧ ∃ entries,
      rr_json (get_api_leaderboard by_document_id false (sb_quizId body)
                 (post_api_submit_score now false body scores).2)
        = LeaderboardData (sb_quizId body) entries
      ∧ (sb_playerName body, score) ∈ entries.
Proof.
  intros Hid Hname Hscore Hfew. unfold post_api_submit_score. rewrite Hscore.
  destruct (decide (sb_quizId body = "" ∨ sb_playerName body = "")); [tauto|].
  cbv zeta iota. cbn [fst snd rr_status].
  split_and!; [done|by eexists|done|].
  set (doc := {| sc_quiz_id := sb_quizId body; sc_player_name := sb_playerName body;
                 sc_score := score; sc_created_at := now |}).
  destruct (get_api_leaderboard_run (sb_quizId body) (scores ++ [doc]))
    as (docs & rest & Hrun & _ & Hperm & _ & _ & Hall).
  rewrite Hrun. eexists. split; [done|].
  assert (rest = []) as ->.
  { apply Hall. rewrite filter_app, length_app.
    rewrite filter_cons_True by done. cbn. lia. }
  rewrite app_nil_r in Hperm.
  apply (list_elem_of_fmap_2' (λ d, (sc_player_name d, sc_score d)) docs doc); [|done].
  rewrite Hperm. apply list_elem_of_filter. split; [done|].
  apply elem_of_app. right. by left.
Qed.

End ReadEndpoints.

(** ** The read endpoints on a store whose document ids grow with insertion *)

Lemma insertion_order_perm (A : Type) (l : list A) : insertion_order A l ≡ₚ l.
Proof. reflexivity. Qed.

Lemma get_quiz_lookup_witness :
  outages store_quizzes = []
  ∧ (get_api_quiz insertion_order "q1aaaa" store_quizzes).2 = store_quizzes.
Proof.
  split; [reflexivity|].
  exact (proj1 (get_quiz_lookup insertion_order insertion_order_perm "q1aaaa"
                  store_quizzes eq_refl)).
Defined.

Lemma created_quiz_can_be_read_witness :
  (serve (CreateContent 2000 "abc123" reply_one_question body_ada []) store_quizzes).1 =
    Return {| res_status := 201;
              res_json := ContentCreated "abc123" "free" 9
                            [{| q_question := "2 + 2?"; q_type := "Multiple_Choice";
                                q_options := ["3"; "4"]; q_answer := "4" |}] [] |}
  ∧ (∀ q, q ∈ quizzes store_quizzes → quiz_id q ≠ "abc123")
  ∧ (get_api_quiz insertion_order "abc123"
       (set_outages []
          (serve (CreateContent 2000 "abc123" reply_one_question body_ada [])
             store_quizzes).2)).1 =
      Return {| rr_status := 200;
                rr_json := QuizData "abc123"
                             [{| q_question := "2 + 2?"; q_type := "Multiple_Choice";
                                 q_options := ["3"; "4"]; q_answer := "4" |}] [] |}.
Proof.
  assert (∀ q, q ∈ quizzes store_quizzes → quiz_id q ≠ "abc123") as Hfresh.
  { intros q Hq. cbn in Hq.
    apply elem_of_cons in Hq as [->|Hq]; [done|].
    apply elem_of_cons in Hq as [->|Hq]; [done|].
    by apply not_elem_of_nil in Hq. }
  split; [vm_compute; reflexivity|]. split; [exact Hfresh|].
  apply (created_quiz_can_be_read insertion_order insertion_order_perm
           (CreateContent 2000 "abc123" reply_one_question body_ada []) store_quizzes
           {| res_status := 201;
              res_json := ContentCreated "abc123" "free" 9
                            [{| q_question := "2 + 2?"; q_type := "Multiple_Choice";
                                q_options := ["3"; "4"]; q_answer := "4" |}] [] |}
           "abc123" "free" 9).
  - vm_compute. reflexivity.
  - reflexivity.
  - reflexivity.
  - exact Hfresh.
Defined.

Lemma recent_user_lists_newest_witness :
  outages store_quizzes = []
  ∧ ∃ docs, (get_api_recent_user insertion_order "ada" store_quizzes).1 =
              Return {| rr_status := 200;
                        rr_json := ContentList (content_item <$> docs) |}.
Proof.
  split; [reflexivity|].
  destruct (recent_user_lists_newest insertion_order insertion_order_perm "ada"
              store_quizzes eq_refl) as (docs & rest & Hrun & _).
  exists docs. by rewrite Hrun.
Defined.

Lemma recent_lists_newest_witness :
  outages store_quizzes = []
  ∧ ∃ docs, (get_api_recent insertion_order store_quizzes).1 =
              Return {| rr_status := 200;
                        rr_json := ContentList (content_item <$> docs) |}.
Proof.
  split; [reflexivity|].
  destruct (recent_lists_newest insertion_order insertion_order_perm
              store_quizzes eq_refl) as (docs & rest & Hrun & _).
  exists docs. by rewrite Hrun.
Defined.

Lemma mock_test_user_lists_newest_witness :
  outages store_quizzes = []
  ∧ ∃ docs, (get_api_mock_test_user insertion_order "ada" store_quizzes).1 =
              Return {| rr_status := 200;
                        rr_json := MockTestList (mock_test_item <$> docs) |}.
Proof.
  split; [reflexivity|].
  destruct (mock_test_user_lists_newest insertion_order insertion_order_perm "ada"
              store_quizzes eq_refl) as (docs & rest & Hrun & _).
  exists docs. by rewrite Hrun.
Defined.

Lemma created_quiz_heads_recent_witness :
  (serve (CreateContent 2000 "abc123" reply_one_question body_ada []) store_quizzes).1 =
    Return {| res_status := 201;
              res_json := ContentCreated "abc123" "free" 9
                            [{| q_question := "2 + 2?"; q_type := "Multiple_Choice";
                                q_options := ["3"; "4"]; q_answer := "4" |}] [] |}
  ∧ (∀ q, q ∈ quizzes store_quizzes → quiz_user_id q = "ada" → quiz_created_at q < 2000)
  ∧ ∃ name items,
      (get_api_recent_user insertion_order "ada"
         (set_outages []
            (serve (CreateContent 2000 "abc123" reply_one_question body_ada [])
               store_quizzes).2)).1 =
        Return {| rr_status := 200;
                  rr_json := ContentList (("abc123", name, 2000) :: items) |}.
Proof.
  assert (∀ q, q ∈ quizzes store_quizzes → quiz_user_id q = "ada" →
               quiz_created_at q < 2000) as Hnew.
  { intros q Hq. cbn in Hq.
    apply elem_of_cons in Hq as [->|Hq]; [done|].
    apply elem_of_cons in Hq as [->|Hq]; [done|].
    by apply not_elem_of_nil in Hq. }
  split; [vm_compute; reflexivity|]. split; [exact Hnew|].
  apply (created_quiz_heads_recent insertion_order insertion_order_perm
           (CreateContent 2000 "abc123" reply_one_question body_ada []) store_quizzes
           {| res_status := 201;
              res_json := ContentCreated "abc123" "free" 9
                            [{| q_question := "2 + 2?"; q_type := "Multiple_Choice";
                                q_options := ["3"; "4"]; q_answer := "4" |}] [] |}
           "abc123" "free" 9
           [{| q_question := "2 + 2?"; q_type := "Multiple_Choice";
               q_options := ["3"; "4"]; q_answer := "4" |}] []).
  - vm_compute. reflexivity.
  - reflexivity.
  - reflexivity.
  - exact Hnew.
Defined.

Lemma leaderboard_ranking_witness :
  (∀ (A : Type) (l : list A), insertion_order A l ≡ₚ l)
  ∧ ∃ docs,
      get_api_leaderboard insertion_order false "q1aaaa" scores_sample =
        {| rr_status := 200;
           rr_json := LeaderboardData "q1aaaa"
                        ((λ doc, (sc_player_name doc, sc_score doc)) <$> docs) |}.
Proof.
  split; [exact insertion_order_perm|].
  destruct (leaderboard_ranking insertion_order insertion_order_perm "q1aaaa"
              scores_sample) as (docs & rest & Hrun & _).
  by exists docs.
Defined.

Lemma submitted_score_is_listed_witness :
  (length (filter (λ s, sc_quiz_id s = "q1aaaa") scores_sample) < 10)%nat
  ∧ ∃ entries,
      rr_json (get_api_leaderboard insertion_order false "q1aaaa"
                 (post_api_submit_score 40 false
                    {| sb_quizId := "q1aaaa"; sb_playerName := "zed";
                       sb_score := Some (Some 0) |} scores_sample).2)
        = LeaderboardData "q1aaaa" entries
      ∧ ("zed", Some 0) ∈ entries.
Proof.
  assert (length (filter (λ s, sc_quiz_id s = "q1aaaa") scores_sample) < 10)%nat as Hfew.
  { vm_compute. lia. }
  split; [exact Hfew|].
  exact (proj2 (proj2 (proj2
    (submitted_score_is_listed insertion_order insertion_order_perm 40
       {| sb_quizId := "q1aaaa"; sb_playerName := "zed"; sb_score := Some (Some 0) |}
       (Some 0) scores_sample ltac:(done) ltac:(done) eq_refl Hfew)))).
Defined.
